(** * ProCast: quote extraction and card rendering

    A shallow embedding of the Python package [procast] (configuration,
    transcription, quote extraction, card generation and the command line
    interface) together with the properties its specification states.

    Conventions of the embedding:
    - a Python [str] is the list of its Unicode code points ([str]);
    - JSON-like Python objects are the inductive [value]; a [dict] keeps
      insertion order and is an association list;
    - a [float] that is only stored and compared is a rational ([Q]);
    - effects (console output, file writes, raised exceptions) are threaded
      through the monad [M] over an explicit [world]. *)

From Stdlib Require Import ZArith NArith QArith Bool String Ascii List Lia.
From Stdlib Require Import Permutation Sorted.
From Stdlib Require DecimalFacts DecimalN.
Import ListNotations.

Local Open Scope string_scope.
Local Open Scope N_scope.
Local Open Scope Z_scope.
Local Open Scope list_scope.

Set Implicit Arguments.
#[local] Set Warnings "-register-all".

(* ================================================================== *)
(** * Python strings *)
(* ================================================================== *)

Module Py.

(** A character is a Unicode code point; a [str] is a sequence of them. *)
Definition char := N.
Definition str := list char.

(** [a == b] on strings. *)
Fixpoint str_eqb (a b : str) : bool :=
  match a, b with
  | [], [] => true
  | x :: a', y :: b' => (x =? y)%N && str_eqb a' b'
  | _, _ => false
  end.

(** Source literals are written as UTF-8 text and decoded to code points. *)
Fixpoint utf8_decode (bs : list N) : str :=
  match bs with
  | [] => []
  | b0 :: r0 =>
    if (b0 <? 0x80)%N then b0 :: utf8_decode r0
    else match r0 with
    | [] => []
    | b1 :: r1 =>
      if (b0 <? 0xE0)%N
      then ((b0 - 0xC0) * 0x40 + (b1 - 0x80))%N :: utf8_decode r1
      else match r1 with
      | [] => []
      | b2 :: r2 =>
        if (b0 <? 0xF0)%N
        then ((b0 - 0xE0) * 0x1000 + (b1 - 0x80) * 0x40 + (b2 - 0x80))%N
               :: utf8_decode r2
        else match r2 with
        | [] => []
        | b3 :: r3 =>
          ((b0 - 0xF0) * 0x40000 + (b1 - 0x80) * 0x1000
             + (b2 - 0x80) * 0x40 + (b3 - 0x80))%N :: utf8_decode r3
        end
      end
    end
  end.

Definition u (s : string) : str :=
  utf8_decode (map N_of_ascii (list_ascii_of_string s)).

(** The newline and the double quote, and a string between quotes. *)
Definition nl : str := [0x0A%N].
Definition dq : str := [0x22%N].
Definition quoted (s : str) : str := dq ++ s ++ dq.

(** Truthiness of a string or list: empty is false. *)
Definition nonempty {A} (l : list A) : bool :=
  match l with [] => false | _ :: _ => true end.

(** [sep.join(parts)] *)
Fixpoint join (sep : str) (parts : list str) : str :=
  match parts with
  | [] => []
  | [p] => p
  | p :: rest => p ++ sep ++ join sep rest
  end.

(** [str.isspace] for one character: the code points CPython treats as
    whitespace, which are the separators of [str.split()]. *)
Definition isspace (c : char) : bool :=
  ((0x09 <=? c) && (c <=? 0x0D) || (0x1C <=? c) && (c <=? 0x20)
   || (c =? 0x85) || (c =? 0xA0) || (c =? 0x1680)
   || (0x2000 <=? c) && (c <=? 0x200A)
   || (c =? 0x2028) || (c =? 0x2029) || (c =? 0x202F)
   || (c =? 0x205F) || (c =? 0x3000))%N.

(** [text.split()]: maximal runs of non-whitespace characters. *)
Fixpoint split_ws_from (word : str) (s : str) : list str :=
  match s with
  | [] => if nonempty word then [word] else []
  | c :: rest =>
    if isspace c
    then (if nonempty word then word :: split_ws_from [] rest
          else split_ws_from [] rest)
    else split_ws_from (word ++ [c]) rest
  end.

Definition split (s : str) : list str := split_ws_from [] s.

(** [s.split(sep)] for a one-character separator: every occurrence cuts,
    empty pieces are kept. *)
Fixpoint split_on_from (sep : char) (piece : str) (s : str) : list str :=
  match s with
  | [] => [piece]
  | c :: rest =>
    if (c =? sep)%N then piece :: split_on_from sep [] rest
    else split_on_from sep (piece ++ [c]) rest
  end.

Definition split_on (sep : char) (s : str) : list str :=
  split_on_from sep [] s.

(** [str(n)] for an [int]. *)
Fixpoint digits_of_uint (d : Decimal.uint) : str :=
  match d with
  | Decimal.Nil => []
  | Decimal.D0 d => 0x30%N :: digits_of_uint d
  | Decimal.D1 d => 0x31%N :: digits_of_uint d
  | Decimal.D2 d => 0x32%N :: digits_of_uint d
  | Decimal.D3 d => 0x33%N :: digits_of_uint d
  | Decimal.D4 d => 0x34%N :: digits_of_uint d
  | Decimal.D5 d => 0x35%N :: digits_of_uint d
  | Decimal.D6 d => 0x36%N :: digits_of_uint d
  | Decimal.D7 d => 0x37%N :: digits_of_uint d
  | Decimal.D8 d => 0x38%N :: digits_of_uint d
  | Decimal.D9 d => 0x39%N :: digits_of_uint d
  end.

Definition str_of_N (n : N) : str := digits_of_uint (N.to_uint n).

Definition str_of_int (z : Z) : str :=
  match z with
  | Z0 => str_of_N 0
  | Zpos p => str_of_N (Npos p)
  | Zneg p => 0x2D%N :: str_of_N (Npos p)
  end.

(** [t] starts with [s]. *)
Definition prefix (s t : str) : Prop := exists post, t = s ++ post.

(** [s] occurs in [t] as a contiguous substring. *)
Definition substring (s t : str) : Prop :=
  exists pre post, t = pre ++ s ++ post.

End Py.
Import Py.

(* ================================================================== *)
(** * Python objects, exceptions and effects *)
(* ================================================================== *)

(** JSON-like Python objects.  A [float] is represented by the rational it
    denotes (the code only stores and compares floats); a [dict] keeps its
    insertion order. *)
Inductive value : Type :=
| VNone
| VBool (b : bool)
| VInt (z : Z)
| VFloat (q : Q)
| VStr (s : str)
| VList (l : list value)
| VDict (d : list (str * value)).

Definition dict := list (str * value).

Module Dict.

(** [d[k]] when [k in d] *)
Fixpoint lookup (d : dict) (k : str) : option value :=
  match d with
  | [] => None
  | (k', v) :: rest => if str_eqb k' k then Some v else lookup rest k
  end.

(** [d.get(k, default)] *)
Definition get (d : dict) (k : str) (default : value) : value :=
  match lookup d k with Some v => v | None => default end.

End Dict.

(** Truthiness, as tested by [if x:], [x or y] and [not x]. *)
Definition truthy (v : value) : bool :=
  match v with
  | VNone => false
  | VBool b => b
  | VInt z => negb (z =? 0)
  | VFloat q => negb (Qeq_bool q 0)
  | VStr s => nonempty s
  | VList l => nonempty l
  | VDict d => nonempty d
  end.

(** The number a value denotes, when it is one ([bool] is an [int]). *)
Definition num_of (v : value) : option Q :=
  match v with
  | VBool b => Some (if b then 1%Q else 0%Q)
  | VInt z => Some (inject_Z z)
  | VFloat q => Some q
  | _ => None
  end.

Definition Qlt_bool (x y : Q) : bool := negb (Qle_bool y x).

(** Exceptions the code raises or lets through.  [Exit] is [typer.Exit]
    (click's [Exit], a [RuntimeError]); [KeyboardInterrupt] stands for the
    exceptions that do not derive from [Exception]. *)
Inductive exn : Type :=
| FileNotFoundError (msg : str)
| ValueError (msg : str)
| KeyError (key : str)
| TypeError
| AttributeError
| OSError (msg : str)
| RuntimeError (msg : str)
| Exit (code : Z)
| KeyboardInterrupt.

(** [isinstance(e, Exception)], what [except Exception] catches. *)
Definition is_Exception (e : exn) : bool :=
  match e with
  | KeyboardInterrupt => false
  | _ => true
  end.

(** [str(e)], as interpolated by [f"{e}"]. *)
Definition exn_str (e : exn) : str :=
  match e with
  | FileNotFoundError msg | ValueError msg | OSError msg
  | RuntimeError msg => msg
  | KeyError key => u "'" ++ key ++ u "'"
  | TypeError => u "TypeError"
  | AttributeError => u "AttributeError"
  | Exit _ => []
  | KeyboardInterrupt => []
  end.

Inductive result (A : Type) : Type :=
| Ok (a : A)
| Raise (e : exn).
Arguments Ok {A} a.
Arguments Raise {A} e.

(** What the code uses of a PIL font object. *)
Record Font := {
  getbbox : str -> Z * Z * Z * Z;   (* (left, top, right, bottom) *)
  textbbox : str -> Z * Z * Z * Z;  (* [draw.textbbox((0, 0), s, font)] *)
  size : Z;
  path : option str                 (* [hasattr(font, 'path')] *)
}.

(** Drawing primitives of [ImageDraw]; coordinates that the code computes
    with float arithmetic ([text_y += font.size * 1.5]) are kept as the
    integer start, the number of advances and the advance factor. *)
Definition rgb := (Z * Z * Z)%type.

Record ypos := { y0 : Z; steps : nat; step_size : Z; step_factor : Q }.

Inductive draw_op : Type :=
| FillRect (box : Z * Z * Z * Z) (fill : rgb)
| OutlineRect (box : Z * Z * Z * Z) (outline : rgb) (width : Z)
| Line (box : Z * Z * Z * Z) (fill : rgb) (width : Z)
| DrawText (x : Z) (y : ypos) (s : str) (font : Font) (fill : rgb).

Record image := {
  img_size : Z * Z;
  img_background : rgb;
  img_ops : list draw_op
}.

(** What a file holds. *)
Inductive content : Type :=
| TextFile (s : str)
| ImageFile (img : image) (quality : Z).

(** File-system effects, in the order in which they happen. *)
Inductive fs_event : Type :=
| Mkdir (dir : str)
| WriteFile (file : str) (c : content).

(** The world a call runs in: which paths existed before, what has been
    done to the file system since, and what was printed to the console. *)
Record world := {
  existed : str -> bool;
  fs_log : list fs_event;
  console : list str
}.

Definition touches (p : str) (ev : fs_event) : bool :=
  match ev with
  | Mkdir d => str_eqb d p
  | WriteFile f _ => str_eqb f p
  end.

(** [Path(p).exists()] *)
Definition path_exists (w : world) (p : str) : bool :=
  existed w p || existsb (touches p) (fs_log w).

(** The files written, in order. *)
Fixpoint files_written (log : list fs_event) : list (str * content) :=
  match log with
  | [] => []
  | WriteFile f c :: rest => (f, c) :: files_written rest
  | Mkdir _ :: rest => files_written rest
  end.

(** Computations with effects on the world that may raise. *)
Definition M (A : Type) : Type := world -> result A * world.

Definition ret {A} (a : A) : M A := fun w => (Ok a, w).

Definition bind {A B} (m : M A) (k : A -> M B) : M B :=
  fun w =>
    match m w with
    | (Ok a, w') => k a w'
    | (Raise e, w') => (Raise e, w')
    end.

Definition raise {A} (e : exn) : M A := fun w => (Raise e, w).

Definition lift {A} (r : result A) : M A := fun w => (r, w).

Declare Scope monad_scope.
Delimit Scope monad_scope with monad.
Notation "x <- c ;; k" := (bind c (fun x => k))
  (at level 61, c at next level, right associativity) : monad_scope.
Notation "c ;;; k" := (bind c (fun _ => k))
  (at level 61, right associativity) : monad_scope.
Local Open Scope monad_scope.

Definition rbind {A B} (r : result A) (k : A -> result B) : result B :=
  match r with
  | Ok a => k a
  | Raise e => Raise e
  end.
Notation "x <~ c ;; k" := (rbind c (fun x => k))
  (at level 61, c at next level, right associativity) : monad_scope.

(** [console.print(msg)] *)
Definition print (msg : str) : M unit :=
  fun w => (Ok tt, {| existed := existed w; fs_log := fs_log w;
                      console := console w ++ [msg] |}).

Definition emit (ev : fs_event) : M unit :=
  fun w => (Ok tt, {| existed := existed w; fs_log := fs_log w ++ [ev];
                      console := console w |}).

Definition exists_ (p : str) : M bool :=
  fun w => (Ok (path_exists w p), w).

(** [try: body  except Exception as e: handler(e)] *)
Definition try_except {A} (body : M A) (handler : exn -> M A) : M A :=
  fun w =>
    match body w with
    | (Ok a, w') => (Ok a, w')
    | (Raise e, w') =>
      if is_Exception e then handler e w' else (Raise e, w')
    end.

(* ================================================================== *)
(** * pathlib (POSIX flavour, Python 3.8 to 3.11) *)
(* ================================================================== *)

Module Pathlib.

Definition slash : char := 0x2F%N.
Definition dot : char := 0x2E%N.

(** A pure path: the root (empty, one slash or two slashes) and the
    components below it. *)
Record Path := {
  root : str;
  parts : list str
}.

Fixpoint count_leading (c : char) (s : str) : nat :=
  match s with
  | x :: rest => if (x =? c)%N then S (count_leading c rest) else O
  | [] => O
  end.

(** Exactly two leading slashes are kept; any other number is one. *)
Definition parse_root (s : str) : str :=
  match count_leading slash s with
  | O => []
  | 2%nat => [slash; slash]
  | _ => [slash]
  end.

(** Empty components and [.] are dropped when a path is parsed. *)
Definition is_component (c : str) : bool :=
  nonempty c && negb (str_eqb c [dot]).

(** [Path(s)] *)
Definition Path_of (s : str) : Path :=
  {| root := parse_root s;
     parts := filter is_component (split_on slash s) |}.

(** [str(p)] *)
Definition str_of (p : Path) : str :=
  match root p, parts p with
  | [], [] => [dot]
  | r, ps => r ++ join [slash] ps
  end.

(** [p / s] *)
Definition joinpath (p : Path) (s : str) : Path :=
  let q := Path_of s in
  if nonempty (root q) then q
  else {| root := root p; parts := parts p ++ parts q |}.

(** [p.parent] *)
Definition parent (p : Path) : Path :=
  {| root := root p; parts := removelast (parts p) |}.

(** [p.name] *)
Definition name (p : Path) : str := last (parts p) [].

(** [s.rfind(c)], [None] standing for [-1]. *)
Fixpoint rfind (c : char) (s : str) : option nat :=
  match s with
  | [] => None
  | x :: rest =>
    match rfind c rest with
    | Some i => Some (S i)
    | None => if (x =? c)%N then Some O else None
    end
  end.

(** The index at which the suffix of a name starts: the last dot, unless
    it is the first or the last character. *)
Definition suffix_start (name : str) : option nat :=
  match rfind dot name with
  | Some i =>
    if (0 <? i)%nat && (i <? length name - 1)%nat then Some i else None
  | None => None
  end.

Definition suffix_of (name : str) : str :=
  match suffix_start name with
  | Some i => skipn i name
  | None => []
  end.

Definition stem_of (name : str) : str :=
  match suffix_start name with
  | Some i => firstn i name
  | None => name
  end.

(** [p.suffix] and [p.stem] *)
Definition suffix (p : Path) : str := suffix_of (name p).
Definition stem (p : Path) : str := stem_of (name p).

(** [p.with_suffix(suffix)] for a suffix such as [".txt"]: a path with an
    empty name has no suffix to replace. *)
Definition with_suffix (p : Path) (suffix : str) : result Path :=
  if nonempty (name p)
  then Ok {| root := root p;
             parts := removelast (parts p) ++ [stem p ++ suffix] |}
  else Raise (ValueError (str_of p ++ u " has an empty name")).

End Pathlib.

(* ================================================================== *)
(** * extractor.py *)
(* ================================================================== *)

Module Extractor.

(** ** class Quote *)

Record Quote := {
  text : value;
  context : value;
  category : value;
  score : value;
  timestamp : value
}.

(** [Quote.__init__]; the field [timestamp] is [timestamp or {}]. *)
Definition Quote_init (text context category score timestamp : value)
    : Quote :=
  {| text := text;
     context := context;
     category := category;
     score := score;
     timestamp := if truthy timestamp then timestamp else VDict [] |}.

Definition to_dict (self : Quote) : dict :=
  [ (u "text", text self);
    (u "context", context self);
    (u "category", category self);
    (u "score", score self);
    (u "timestamp", timestamp self) ].

Definition from_dict (data : dict) : Quote :=
  Quote_init
    (Dict.get data (u "text") (VStr []))
    (Dict.get data (u "context") (VStr []))
    (Dict.get data (u "category") (VStr []))
    (Dict.get data (u "score") (VFloat 0))
    (Dict.get data (u "timestamp") (VDict [])).

(** ** class QuoteExtractor *)

(** [client] stands for [client.chat.completions.create(...)] followed by
    [response.choices[0].message.content]: it maps the model name, the
    messages (role, content) and the temperature to the reply text, or
    raises. *)
Record QuoteExtractor := {
  client : value -> list (str * str) -> value -> result str;
  model : value;
  temperature : value
}.

Definition default_categories : list str :=
  [u "启发"; u "观点"; u "方法论"; u "故事"; u "其他"].

(** The f-string of [_build_prompt], line by line. *)
Definition _build_prompt (text : str) (num_quotes min_length max_length : Z)
    (categories : list str) : str :=
  u "请从以下文本中提取最有价值的金句。" ++ nl
  ++ nl
  ++ u "文本内容：" ++ nl
  ++ text ++ nl
  ++ nl
  ++ u "要求：" ++ nl
  ++ u "1. 提取约 " ++ str_of_int num_quotes ++ u " 条最有价值的金句" ++ nl
  ++ u "2. 每条金句长度在 " ++ str_of_int min_length ++ u "-"
       ++ str_of_int max_length ++ u " 字之间" ++ nl
  ++ u "3. 金句应该具有启发性、观点性或实用性" ++ nl
  ++ u "4. 为每条金句分配一个分类：" ++ join (u ", ") categories ++ nl
  ++ u "5. 为每条金句打分（0-10分），分数越高表示越有价值" ++ nl
  ++ u "6. 提供简短的上下文说明（可选）" ++ nl
  ++ nl
  ++ u "请以 JSON 格式返回结果，格式如下：" ++ nl
  ++ u "{" ++ nl
  ++ u "  " ++ quoted (u "quotes") ++ u ": [" ++ nl
  ++ u "    {" ++ nl
  ++ u "      " ++ quoted (u "text") ++ u ": " ++ quoted (u "金句内容")
       ++ u "," ++ nl
  ++ u "      " ++ quoted (u "context") ++ u ": " ++ quoted (u "上下文说明")
       ++ u "," ++ nl
  ++ u "      " ++ quoted (u "category") ++ u ": " ++ quoted (u "分类")
       ++ u "," ++ nl
  ++ u "      " ++ quoted (u "score") ++ u ": 8.5" ++ nl
  ++ u "    }" ++ nl
  ++ u "  ]" ++ nl
  ++ u "}" ++ nl.

(** [for item in v]: what iterating over a JSON value yields. *)
Definition iterate (v : value) : result (list value) :=
  match v with
  | VList l => Ok l
  | VStr s => Ok (map (fun c => VStr [c]) s)
  | VDict d => Ok (map (fun kv => VStr (fst kv)) d)
  | _ => Raise TypeError
  end.

(** The loop body of [extract]: [item.get] needs a [dict]; the timestamp
    argument is left at its default [None]. *)
Definition quote_of_item (item : value) : result Quote :=
  match item with
  | VDict d =>
    Ok (Quote_init
          (Dict.get d (u "text") (VStr []))
          (Dict.get d (u "context") (VStr []))
          (Dict.get d (u "category") (VStr []))
          (Dict.get d (u "score") (VFloat 0))
          VNone)
  | _ => Raise AttributeError
  end.

Fixpoint quotes_of_items (items : list value) : result (list Quote) :=
  match items with
  | [] => Ok []
  | item :: rest =>
    match quote_of_item item with
    | Raise e => Raise e
    | Ok q =>
      match quotes_of_items rest with
      | Raise e => Raise e
      | Ok qs => Ok (q :: qs)
      end
    end
  end.

(** [result.get("quotes", [])] needs [result] to be a [dict]. *)
Definition quotes_entry (parsed : value) : result value :=
  match parsed with
  | VDict d => Ok (Dict.get d (u "quotes") (VList []))
  | _ => Raise AttributeError
  end.

Section Extract.

(** [json.loads] *)
Variable json_loads : str -> result value.

Definition system_message : str :=
  u "你是一个专业的内容编辑，擅长从播客或文章中提取有价值的金句。".

Definition extract (self : QuoteExtractor) (text : str)
    (num_quotes min_length max_length : Z) (categories : option (list str))
    : M (list Quote) :=
  let categories :=
    match categories with
    | Some (c :: cs) => c :: cs
    | _ => default_categories
    end in
  let prompt :=
    _build_prompt text num_quotes min_length max_length categories in
  print (u "正在提取金句...") ;;;
  reply <- lift (client self (model self)
                   [(u "system", system_message); (u "user", prompt)]
                   (temperature self)) ;;
  parsed <- lift (json_loads reply) ;;
  entry <- lift (quotes_entry parsed) ;;
  items <- lift (iterate entry) ;;
  quotes <- lift (quotes_of_items items) ;;
  print (u "✓ 成功提取 " ++ str_of_N (N.of_nat (length quotes))
           ++ u " 条金句") ;;;
  ret quotes.

End Extract.

(** ** filter_quotes *)

(** [a < b] and [a >= b] on scores.  Scores are numbers ([score: float]);
    a comparison that involves anything else is a [TypeError] here. *)
Definition py_lt (a b : value) : result bool :=
  match num_of a, num_of b with
  | Some x, Some y => Ok (Qlt_bool x y)
  | _, _ => Raise TypeError
  end.

Definition py_ge (a b : value) : result bool :=
  match num_of a, num_of b with
  | Some x, Some y => Ok (Qle_bool y x)
  | _, _ => Raise TypeError
  end.

(** [[q for q in quotes if q.score >= min_score]] *)
Fixpoint filter_score (min_score : Q) (quotes : list Quote)
    : result (list Quote) :=
  match quotes with
  | [] => Ok []
  | q :: rest =>
    match py_ge (score q) (VFloat min_score) with
    | Raise e => Raise e
    | Ok keep =>
      match filter_score min_score rest with
      | Raise e => Raise e
      | Ok qs => Ok (if keep then q :: qs else qs)
      end
    end
  end.

(** [q.category == category] for a [str] *)
Definition category_is (category : str) (q : Quote) : bool :=
  match Extractor.category q with
  | VStr s => str_eqb s category
  | _ => false
  end.

(** [list.sort(key=lambda q: q.score, reverse=True)]: the list in
    descending order of score, quotes of equal score in their original
    order (the sort is stable).  Written as an insertion from the right,
    which yields the same list as any other stable sort. *)
Fixpoint insert_desc (q : Quote) (sorted : list Quote)
    : result (list Quote) :=
  match sorted with
  | [] => Ok [q]
  | q' :: rest =>
    match py_lt (score q) (score q') with
    | Raise e => Raise e
    | Ok true =>
      match insert_desc q rest with
      | Raise e => Raise e
      | Ok l => Ok (q' :: l)
      end
    | Ok false => Ok (q :: q' :: rest)
    end
  end.

Fixpoint sort_desc (quotes : list Quote) : result (list Quote) :=
  match quotes with
  | [] => Ok []
  | q :: rest =>
    match sort_desc rest with
    | Raise e => Raise e
    | Ok sorted => insert_desc q sorted
    end
  end.

(** [l[:n]] *)
Definition slice_to {A} (l : list A) (n : Z) : list A :=
  if 0 <=? n then firstn (Z.to_nat n) l
  else firstn (length l - Z.to_nat (- n)) l.

(** [filter_quotes] returns the filtered list and, next to it, what the
    caller's list [quotes] holds afterwards: [filtered] is the same list
    object as [quotes] until a comprehension rebinds it, so the in-place
    sort reorders the caller's list when no filter ran. *)
Definition filter_quotes (quotes : list Quote) (min_score : Q)
    (category : option str) (max_count : option Z)
    : result (list Quote * list Quote) :=
  let by_score := Qlt_bool 0 min_score in
  let by_category :=
    match category with Some c => nonempty c | None => false end in
  match (if by_score then filter_score min_score quotes else Ok quotes) with
  | Raise e => Raise e
  | Ok filtered =>
    let filtered :=
      match category with
      | Some c => if nonempty c then filter (category_is c) filtered
                  else filtered
      | None => filtered
      end in
    match sort_desc filtered with
    | Raise e => Raise e
    | Ok sorted =>
      let quotes_after :=
        if by_score || by_category then quotes else sorted in
      let filtered :=
        match max_count with
        | Some n => if n =? 0 then sorted else slice_to sorted n
        | None => sorted
        end in
      Ok (filtered, quotes_after)
    end
  end.

End Extractor.

(* ================================================================== *)
(** * config.py *)
(* ================================================================== *)

Module Config.

Definition _default_config : dict :=
  [ (u "llm", VDict
       [ (u "provider", VStr (u "openai"));
         (u "model", VStr (u "gpt-4-turbo-preview"));
         (u "api_key", VStr []);
         (u "base_url", VStr (u "https://api.openai.com/v1"));
         (u "temperature", VFloat (7 # 10));
         (u "max_tokens", VInt 2000) ]);
    (u "whisper", VDict
       [ (u "model", VStr (u "base"));
         (u "language", VStr (u "zh")) ]);
    (u "card", VDict
       [ (u "width", VInt 1080);
         (u "height", VInt 1920);
         (u "background_color", VStr (u "#1a1a2e"));
         (u "text_color", VStr (u "#ffffff"));
         (u "accent_color", VStr (u "#e94560"));
         (u "font_path", VNone);
         (u "font_size", VInt 48);
         (u "padding", VInt 100) ]);
    (u "output", VDict
       [ (u "transcript_dir", VStr (u "output/transcripts"));
         (u "quotes_dir", VStr (u "output/quotes"));
         (u "cards_dir", VStr (u "output/cards")) ]) ].

(** A [Config] object; [config] is whatever [json.load] returned, or the
    default dictionary. *)
Record Config := {
  config_path : str;
  config : value
}.

(** The loop of [get]: one dictionary level per key component. *)
Fixpoint descend (keys : list str) (val default : value) : value :=
  match keys with
  | [] => val
  | k :: keys' =>
    match val with
    | VDict d =>
      match Dict.lookup d k with
      | Some v => descend keys' v default
      | None => default
      end
    | _ => default
    end
  end.

Definition dot : char := 0x2E%N.

Definition get (self : Config) (key : str) (default : value) : value :=
  descend (split_on dot key) (config self) default.

(** [d[k] = v] on a dictionary: replaces in place or appends. *)
Fixpoint setitem (d : dict) (k : str) (v : value) : dict :=
  match d with
  | [] => [(k, v)]
  | (k', v') :: rest =>
    if str_eqb k' k then (k', v) :: rest else (k', v') :: setitem rest k v
  end.

(** [self.config[section][k] = v] *)
Definition setitem_in (cfg : value) (section k : str) (v : value)
    : result value :=
  match cfg with
  | VDict d =>
    match Dict.lookup d section with
    | Some (VDict inner) => Ok (VDict (setitem d section
                                         (VDict (setitem inner k v))))
    | Some _ => Raise TypeError
    | None => Raise (KeyError section)
    end
  | _ => Raise TypeError
  end.

Section Init.

(** [os.getenv] and [json.load] of the file at a path. *)
Variable getenv : str -> option str.
Variable json_load : str -> result value.

Definition _load_config (config_path : str) : M value :=
  present <- exists_ config_path ;;
  if present then lift (json_load config_path)
  else ret (VDict _default_config).

Definition override (cfg : value) (var k : str) : result value :=
  match getenv var with
  | Some (c :: s) => setitem_in cfg (u "llm") k (VStr (c :: s))
  | _ => Ok cfg
  end.

Definition _override_with_env (cfg : value) : result value :=
  match override cfg (u "OPENAI_API_KEY") (u "api_key") with
  | Raise e => Raise e
  | Ok cfg =>
    match override cfg (u "OPENAI_BASE_URL") (u "base_url") with
    | Raise e => Raise e
    | Ok cfg =>
      match override cfg (u "ANTHROPIC_API_KEY") (u "anthropic_key") with
      | Raise e => Raise e
      | Ok cfg => override cfg (u "GOOGLE_API_KEY") (u "google_key")
      end
    end
  end.

(** [Config.__init__] *)
Definition Config_init (config_path : option str) : M Config :=
  let config_path :=
    match config_path with
    | Some p => p
    | None =>
      match getenv (u "CONFIG_PATH") with
      | Some p => p
      | None => u "config.json"
      end
    end in
  cfg <- _load_config config_path ;;
  cfg <- lift (_override_with_env cfg) ;;
  ret {| config_path := config_path; config := cfg |}.

End Init.

(** The specification's reading of the configuration: a flat object whose
    keys map to scalars, looked up in one step. *)
Definition is_scalar (v : value) : bool :=
  match v with
  | VList _ | VDict _ => false
  | _ => true
  end.

Definition flat_get (self : Config) (key : str) (default : value) : value :=
  match config self with
  | VDict d => Dict.get d key default
  | _ => default
  end.

End Config.

(* ================================================================== *)
(** * Module imports of a process *)
(* ================================================================== *)

Module Process.

(** The modules of the package and the top-level statements of each that
    import another module of the package or construct a [Config]. *)
Inductive module_name : Type :=
| procast | procast_config | procast_transcriber | procast_extractor
| procast_card_generator | procast_cli.

Inductive top_stmt : Type :=
| Import (m : module_name)
| NewConfig.            (* [config = Config()] *)

Definition module_eqb (a b : module_name) : bool :=
  match a, b with
  | procast, procast | procast_config, procast_config
  | procast_transcriber, procast_transcriber
  | procast_extractor, procast_extractor
  | procast_card_generator, procast_card_generator
  | procast_cli, procast_cli => true
  | _, _ => false
  end.

(** Importing a submodule imports the package [procast] first. *)
Definition top_level (m : module_name) : list top_stmt :=
  match m with
  | procast =>
    [Import procast_transcriber; Import procast_extractor;
     Import procast_card_generator]
  | procast_config => [Import procast; NewConfig]
  | procast_transcriber => [Import procast]
  | procast_extractor => [Import procast]
  | procast_card_generator => [Import procast]
  | procast_cli =>
    [Import procast; Import procast_config; Import procast_transcriber;
     Import procast_extractor; Import procast_card_generator]
  end.

(** [sys.modules] and the number of [Config] objects constructed. *)
Record interp := {
  sys_modules : list module_name;
  configs_constructed : nat
}.

Definition loaded (st : interp) (m : module_name) : bool :=
  existsb (module_eqb m) (sys_modules st).

(** [import m]: a module that is already in [sys.modules] is not run
    again; otherwise it is registered and its top level runs. *)
Fixpoint import_module (fuel : nat) (m : module_name) (st : interp)
    : option interp :=
  match fuel with
  | O => None
  | S fuel' =>
    if loaded st m then Some st
    else
      fold_left
        (fun acc stmt =>
           match acc with
           | None => None
           | Some st' =>
             match stmt with
             | Import m' => import_module fuel' m' st'
             | NewConfig =>
               Some {| sys_modules := sys_modules st';
                       configs_constructed := S (configs_constructed st') |}
             end
           end)
        (top_level m)
        (Some {| sys_modules := m :: sys_modules st;
                 configs_constructed := configs_constructed st |})
  end.

Definition fresh : interp :=
  {| sys_modules := []; configs_constructed := 0 |}.

End Process.

(* ================================================================== *)
(** * card_generator.py *)
(* ================================================================== *)

Module CardGenerator.

(** [bbox = font.getbbox(s); width = bbox[2] - bbox[0]] *)
Definition bbox_width (font : Font) (s : str) : Z :=
  let '(x0, _, x1, _) := getbbox font s in x1 - x0.

(** ['一' <= char <= '鿿'] *)
Definition is_cjk (c : char) : bool :=
  ((0x4e00 <=? c) && (c <=? 0x9fff))%N.

(** One iteration of the loop over the characters of a Chinese text; the
    state is [(lines, current_line)]. *)
Definition wrap_char (font : Font) (max_width : Z)
    (st : list str * str) (c : char) : list str * str :=
  let '(lines, current_line) := st in
  let test_line := current_line ++ [c] in
  let width := bbox_width font test_line in
  if width <=? max_width then (lines, test_line)
  else ((if nonempty current_line then lines ++ [current_line] else lines),
        [c]).

(** One iteration of the loop over the words of any other text. *)
Definition wrap_word (font : Font) (max_width : Z)
    (st : list str * str) (word : str) : list str * str :=
  let '(lines, current_line) := st in
  let test_line :=
    if nonempty current_line then current_line ++ u " " ++ word else word in
  let width := bbox_width font test_line in
  if width <=? max_width then (lines, test_line)
  else ((if nonempty current_line then lines ++ [current_line] else lines),
        word).

(** After either loop: [if current_line: lines.append(current_line)]. *)
Definition flush (st : list str * str) : list str :=
  let '(lines, current_line) := st in
  if nonempty current_line then lines ++ [current_line] else lines.

Definition _wrap_text (text : str) (font : Font) (max_width : Z) : list str :=
  if existsb is_cjk text
  then flush (fold_left (wrap_char font max_width) text ([], []))
  else flush (fold_left (wrap_word font max_width) (split text) ([], [])).

(** ** The generator object (after [__init__] has loaded the fonts) *)

Record CardGenerator := {
  width : Z;
  height : Z;
  background_color : str;
  text_color : str;
  accent_color : str;
  padding : Z;
  font : Font;
  title_font : Font;
  small_font : Font
}.

Definition hash : char := 0x23%N.

(** [s.lstrip('#')] *)
Fixpoint lstrip_hash (s : str) : str :=
  match s with
  | c :: rest => if (c =? hash)%N then lstrip_hash rest else s
  | [] => []
  end.

(** [s[i:i+2]] *)
Definition slice2 (s : str) (i : nat) : str := firstn 2 (skipn i s).

Definition bbox_w (bbox : Z * Z * Z * Z) : Z :=
  let '(x0, _, x1, _) := bbox in x1 - x0.

Definition at_y (y : Z) : ypos :=
  {| y0 := y; steps := 0; step_size := 0; step_factor := 0 |}.

(** The [k]-th value of [text_y] in a loop [text_y += font.size * factor]
    that starts at [y]. *)
Definition line_y (y : Z) (k : nat) (f : Font) (factor : Q) : ypos :=
  {| y0 := y; steps := k; step_size := size f; step_factor := factor |}.

(** [f"card_{i:03d}.png"] *)
Definition zero : char := 0x30%N.

Definition format_03d (i : N) : str :=
  let digits := str_of_N i in
  repeat zero (3 - length digits) ++ digits.

Definition card_name (i : N) : str :=
  u "card_" ++ format_03d i ++ u ".png".

(** An element of the list given to [generate_batch]: a [Quote] object
    (it has an attribute [text]) or any other value. *)
Inductive batch_item : Type :=
| AQuote (q : Extractor.Quote)
| AValue (v : value).

(** The drawing code needs strings: anything else in the place of the
    text is a [TypeError]; a subtitle is only looked at when truthy. *)
Definition as_text (v : value) : result str :=
  match v with
  | VStr s => Ok s
  | _ => Raise TypeError
  end.

Definition as_subtitle (v : value) : result str :=
  if truthy v then as_text v else Ok [].

Section Render.

(** Python's [int(s, 16)] and [str(x)], [str.upper] and PIL's
    [ImageFont.truetype]. *)
Variable int16 : str -> result Z.
Variable py_str : value -> str.
Variable upper : str -> str.
Variable truetype : str -> Z -> Font.

Definition _hex_to_rgb (hex_color : str) : result rgb :=
  let hex_color := lstrip_hash hex_color in
  r <~ int16 (slice2 hex_color 0) ;;
  g <~ int16 (slice2 hex_color 2) ;;
  b <~ int16 (slice2 hex_color 4) ;;
  Ok (r, g, b).

(** [for line in lines: draw.text((x line, text_y), line, font=self.font,
    fill=self._hex_to_rgb(self.text_color)); text_y += font.size * factor];
    the colour is computed in the loop body, so not at all without lines. *)
Fixpoint draw_lines_from (self : CardGenerator) (x : str -> Z) (text_y : Z)
    (factor : Q) (fill : rgb) (k : nat) (lines : list str) : list draw_op :=
  match lines with
  | [] => []
  | line :: rest =>
    DrawText (x line) (line_y text_y k (font self) factor) line (font self)
             fill
      :: draw_lines_from self x text_y factor fill (S k) rest
  end.

Definition draw_lines (self : CardGenerator) (x : str -> Z) (text_y : Z)
    (factor : Q) (lines : list str) : result (list draw_op) :=
  match lines with
  | [] => Ok []
  | _ :: _ =>
    fill <~ _hex_to_rgb (text_color self) ;;
    Ok (draw_lines_from self x text_y factor fill 0 lines)
  end.

Definition _draw_minimal_card (self : CardGenerator)
    (quote_text title subtitle : str) : result (list draw_op) :=
  accent_rgb <~ _hex_to_rgb (accent_color self) ;;
  let top := FillRect (0, 0, width self, 10) accent_rgb in
  let title_y := padding self in
  text_rgb <~ _hex_to_rgb (text_color self) ;;
  let title_op :=
    DrawText (padding self) (at_y title_y) title (title_font self)
             text_rgb in
  let quote_y := title_y + 120 in
  let mark_font :=
    match path (font self) with
    | Some p => truetype p 120
    | None => font self
    end in
  let mark_op :=
    DrawText (padding self) (at_y quote_y) dq mark_font accent_rgb in
  let text_y := quote_y + 100 in
  let max_width := width self - 2 * padding self in
  let lines := _wrap_text quote_text (font self) max_width in
  line_ops <~ draw_lines self (fun _ => padding self) text_y (3 # 2)
                lines ;;
  let subtitle_ops :=
    if nonempty subtitle
    then [DrawText (padding self) (at_y (height self - padding self - 60))
                   subtitle (small_font self) accent_rgb]
    else [] in
  Ok ([top; title_op; mark_op] ++ line_ops ++ subtitle_ops).

Definition centred (self : CardGenerator) (f : Font) (s : str) : Z :=
  (width self - bbox_w (textbbox f s)) / 2.

Definition _draw_elegant_card (self : CardGenerator)
    (quote_text title subtitle : str) : result (list draw_op) :=
  accent_rgb <~ _hex_to_rgb (accent_color self) ;;
  let border_width := 3 in
  let border :=
    OutlineRect (padding self - 20, padding self - 20,
                 width self - padding self + 20,
                 height self - padding self + 20)
                accent_rgb border_width in
  let title_y := padding self + 40 in
  let title_x := centred self (title_font self) title in
  let title_op :=
    DrawText title_x (at_y title_y) title (title_font self) accent_rgb in
  let line_y := title_y + 80 in
  let line_margin := 150 in
  let rule :=
    Line (line_margin, line_y, width self - line_margin, line_y)
         accent_rgb 2 in
  let text_y := line_y + 100 in
  let max_width := width self - 2 * padding self - 40 in
  let lines := _wrap_text quote_text (font self) max_width in
  line_ops <~ draw_lines self (centred self (font self)) text_y (16 # 10)
                lines ;;
  let subtitle_ops :=
    if nonempty subtitle
    then [DrawText (centred self (small_font self) subtitle)
                   (at_y (height self - padding self - 80))
                   subtitle (small_font self) accent_rgb]
    else [] in
  Ok ([border; title_op; rule] ++ line_ops ++ subtitle_ops).

Definition _draw_modern_card (self : CardGenerator)
    (quote_text title subtitle : str) : result (list draw_op) :=
  accent_rgb <~ _hex_to_rgb (accent_color self) ;;
  let bar := FillRect (0, 0, 20, height self) accent_rgb in
  let box_padding := 60 in
  let box_left := padding self + 20 in
  let box_top := padding self + 100 in
  let box_right := width self - padding self in
  let box_bottom := height self - padding self - 100 in
  let title_y := box_padding in
  let title_op :=
    DrawText box_left (at_y title_y) (upper title) (title_font self)
             accent_rgb in
  let text_y := box_top + 80 in
  let max_width := box_right - box_left - 40 in
  let lines := _wrap_text quote_text (font self) max_width in
  line_ops <~ draw_lines self (fun _ => box_left + 20) text_y (3 # 2)
                lines ;;
  subtitle_ops <~
    (if nonempty subtitle
     then
       background_rgb <~ _hex_to_rgb (background_color self) ;;
       Ok [FillRect (box_left, box_bottom - 80, box_right, box_bottom)
                    accent_rgb;
           DrawText (box_left + 20) (at_y (box_bottom - 60)) subtitle
                    (small_font self) background_rgb]
     else Ok []) ;;
  Ok ([bar; title_op] ++ line_ops ++ subtitle_ops).

(** [generate]: the canvas, the template chosen by [style], then the
    directory and the file. *)
Definition generate (self : CardGenerator)
    (quote_text title subtitle output_path style : str) : M str :=
  background <- lift (_hex_to_rgb (background_color self)) ;;
  ops <- lift
    (if str_eqb style (u "minimal")
     then _draw_minimal_card self quote_text title subtitle
     else if str_eqb style (u "elegant")
     then _draw_elegant_card self quote_text title subtitle
     else if str_eqb style (u "modern")
     then _draw_modern_card self quote_text title subtitle
     else _draw_minimal_card self quote_text title subtitle) ;;
  let img := {| img_size := (width self, height self);
                img_background := background;
                img_ops := ops |} in
  let output_path := Pathlib.Path_of output_path in
  emit (Mkdir (Pathlib.str_of (Pathlib.parent output_path))) ;;;
  emit (WriteFile (Pathlib.str_of output_path) (ImageFile img 95)) ;;;
  print (u "✓ 卡片已生成: " ++ Pathlib.str_of output_path) ;;;
  ret (Pathlib.str_of output_path).

(** The text and the subtitle that [generate_batch] takes from an item. *)
Definition item_text (quote : batch_item) : value :=
  match quote with
  | AQuote q => Extractor.text q
  | AValue (VDict d) => Dict.get d (u "text") (VStr [])
  | AValue v => VStr (py_str v)
  end.

Definition item_subtitle (quote : batch_item) : value :=
  match quote with
  | AQuote q => Extractor.category q
  | AValue (VDict d) => Dict.get d (u "category") (VStr [])
  | AValue _ => VStr []
  end.

(** The loop [for i, quote in enumerate(quotes, 1)] from index [i] on. *)
Fixpoint batch_loop (self : CardGenerator) (output_dir : Pathlib.Path)
    (title style : str) (i : N) (quotes : list batch_item)
    : M (list str) :=
  match quotes with
  | [] => ret []
  | quote :: rest =>
    let output_path := Pathlib.joinpath output_dir (card_name i) in
    quote_text <- lift (as_text (item_text quote)) ;;
    subtitle <- lift (as_subtitle (item_subtitle quote)) ;;
    generate self quote_text title subtitle
             (Pathlib.str_of output_path) style ;;;
    paths <- batch_loop self output_dir title style (i + 1) rest ;;
    ret (Pathlib.str_of output_path :: paths)
  end.

Definition generate_batch (self : CardGenerator) (quotes : list batch_item)
    (output_dir title style : str) : M (list str) :=
  let output_dir := Pathlib.Path_of output_dir in
  emit (Mkdir (Pathlib.str_of output_dir)) ;;;
  output_paths <- batch_loop self output_dir title style 1%N quotes ;;
  print (u "✓ 批量生成完成，共 "
           ++ str_of_N (N.of_nat (length output_paths))
           ++ u " 张卡片") ;;;
  ret output_paths.

End Render.

End CardGenerator.

(* ================================================================== *)
(** * transcriber.py *)
(* ================================================================== *)

Module Transcriber.

(** A loaded Whisper model: [model.transcribe(path, language=...)]. *)
Definition WhisperModel := str -> str -> result dict.

Record AudioTranscriber := {
  model_name : str;
  language : str;
  model : option WhisperModel
}.

Definition AudioTranscriber_init (model_name language : str)
    : AudioTranscriber :=
  {| model_name := model_name; language := language; model := None |}.

Section Transcribe.

(** [whisper.load_model] and [json.dumps(_, ensure_ascii=False, indent=2)] *)
Variable load_model : str -> result WhisperModel.
Variable json_dumps : value -> str.

Definition _load_model (self : AudioTranscriber) : M AudioTranscriber :=
  match model self with
  | Some _ => ret self
  | None =>
    print (u "正在加载 Whisper " ++ model_name self ++ u " 模型...") ;;;
    m <- lift (load_model (model_name self)) ;;
    print (u "✓ 模型加载完成") ;;;
    ret {| model_name := model_name self; language := language self;
           model := Some m |}
  end.

(** [with open(text_path, 'w') as f: f.write(result['text'])]: the file is
    opened (and so created) before the text is looked up. *)
Definition write_text (text_path : str) (res : dict) : M unit :=
  match Dict.lookup res (u "text") with
  | Some (VStr t) => emit (WriteFile text_path (TextFile t))
  | Some _ => emit (WriteFile text_path (TextFile [])) ;;; raise TypeError
  | None =>
    emit (WriteFile text_path (TextFile [])) ;;;
    raise (KeyError (u "text"))
  end.

(** [transcribe] returns the result and the transcriber with its model
    loaded. *)
Definition transcribe (self : AudioTranscriber) (audio_path : str)
    (output_path : option str) (verbose : bool)
    : M (dict * AudioTranscriber) :=
  let audio_path := Pathlib.Path_of audio_path in
  present <- exists_ (Pathlib.str_of audio_path) ;;
  if negb present
  then raise (FileNotFoundError
                (u "音频文件不存在: " ++ Pathlib.str_of audio_path))
  else
    self <- _load_model self ;;
    (if verbose
     then print (u "正在转录: " ++ Pathlib.name audio_path)
     else ret tt) ;;;
    res <- lift (match model self with
                 | Some m => m (Pathlib.str_of audio_path) (language self)
                 | None => Raise AttributeError
                 end) ;;
    match output_path with
    | Some (c :: s) =>
      let output_path := Pathlib.Path_of (c :: s) in
      emit (Mkdir (Pathlib.str_of (Pathlib.parent output_path))) ;;;
      text_path <- lift (Pathlib.with_suffix output_path (u ".txt")) ;;
      write_text (Pathlib.str_of text_path) res ;;;
      json_path <- lift (Pathlib.with_suffix output_path (u ".json")) ;;
      emit (WriteFile (Pathlib.str_of json_path)
                      (TextFile (json_dumps (VDict res)))) ;;;
      (if verbose
       then print (u "✓ 转录完成，已保存到: " ++ Pathlib.str_of text_path)
       else ret tt) ;;;
      ret (res, self)
    | _ => ret (res, self)
    end.

End Transcribe.

End Transcriber.

(* ================================================================== *)
(** * cli.py *)
(* ================================================================== *)

Module Cli.

Import Extractor.

(** A command body is a sequence of blocks: statements outside any
    [try], and [try: ... except Exception as e: ...] statements.  The
    blocks of one command share its local variables. *)
Record locals := {
  output : option str;
  output_dir : Pathlib.Path;
  quotes : list Quote
}.

Inductive block : Type :=
| Plain (body : locals -> M locals)
| Try (body : locals -> M locals) (handler : exn -> M locals).

Fixpoint run_blocks (blocks : list block) (l : locals) : M locals :=
  match blocks with
  | [] => ret l
  | Plain body :: rest => l' <- body l ;; run_blocks rest l'
  | Try body handler :: rest =>
    l' <- try_except (body l) handler ;; run_blocks rest l'
  end.


(** The status with which the process ends: [typer.Exit(code)] gives
    [code], any other exception that escapes the command gives 1. *)
Definition exit_code {A} (r : result A) : Z :=
  match r with
  | Ok _ => 0
  | Raise (Exit code) => code
  | Raise _ => 1
  end.

(** The handlers: [console.print(f"[bold red]✗ <label>: {e}[/bold red]")]
    and [raise typer.Exit(1)]. *)
Definition failure_message (label : str) (e : exn) : str :=
  u "[bold red]✗ " ++ label ++ u ": " ++ exn_str e ++ u "[/bold red]".

Definition fail (label : str) (e : exn) : M locals :=
  print (failure_message label e) ;;; raise (Exit 1).

Definition path_of_value (v : value) : result Pathlib.Path :=
  match v with
  | VStr s => Ok (Pathlib.Path_of s)
  | _ => Raise TypeError
  end.

Definition shown (o : option str) : str :=
  match o with
  | Some s => s
  | None => u "None"
  end.

Section Commands.

(** The module-level [config] of [procast.config]. *)
Variable config : Config.Config.

(** The stages, each standing for the construction of the stage object
    from its settings followed by the method call:
    [AudioTranscriber(model_name, language).transcribe(audio, output)],
    [QuoteExtractor(api_key, model, base_url, temperature)
       .extract_from_file(path, output, num_quotes=n)] and
    [CardGenerator(...eight settings...)
       .generate_batch(quotes, dir, title=t, style=s)];
    [load_json] is [json.load] of an opened file, [render_table] the
    rich table of the [extract] command and [str_of_float] the text of a
    [float] in an f-string. *)
Variable transcribe_stage : str -> str -> str -> option str -> M dict.
Variable extract_stage :
  list value -> str -> option str -> Z -> M (list Quote).
Variable generate_stage :
  list value -> list Quote -> str -> str -> str -> M (list str).
Variable load_json : str -> M value.
Variable render_table : list Quote -> result str.
Variable str_of_float : Q -> str.

Definition cfg (key : string) (default : value) : value :=
  Config.get config (u key) default.

Definition extractor_settings : list value :=
  [ cfg "llm.api_key" VNone; cfg "llm.model" VNone;
    cfg "llm.base_url" VNone; cfg "llm.temperature" (VFloat (7 # 10)) ].

Definition card_settings : list value :=
  [ cfg "card.width" (VInt 1080);
    cfg "card.height" (VInt 1920);
    cfg "card.background_color" (VStr (u "#1a1a2e"));
    cfg "card.text_color" (VStr (u "#ffffff"));
    cfg "card.accent_color" (VStr (u "#e94560"));
    cfg "card.font_path" VNone;
    cfg "card.font_size" (VInt 48);
    cfg "card.padding" (VInt 100) ].

Definition set_output (l : locals) (o : option str) : locals :=
  {| output := o; output_dir := output_dir l; quotes := quotes l |}.

Definition set_output_dir (l : locals) (d : Pathlib.Path) : locals :=
  {| output := output l; output_dir := d; quotes := quotes l |}.

Definition set_quotes (l : locals) (qs : list Quote) : locals :=
  {| output := output l; output_dir := output_dir l; quotes := qs |}.

(** [if output is None: ...] of [transcribe] and [extract] *)
Definition default_output (l : locals) (key default : string)
    (source : str) (ending : str) : M locals :=
  match output l with
  | Some _ => ret l
  | None =>
    dir <- lift (path_of_value (cfg key (VStr (u default)))) ;;
    emit (Mkdir (Pathlib.str_of dir)) ;;;
    let stem := Pathlib.stem (Pathlib.Path_of source) in
    ret (set_output l
           (Some (Pathlib.str_of (Pathlib.joinpath dir (stem ++ ending)))))
  end.

(** ** [procast transcribe] *)
Definition transcribe (audio_path : str) (model language : str)
    : list block :=
  [ Plain (fun l =>
      print (u "[bold cyan]开始音频转录...[/bold cyan]") ;;;
      default_output l "output.transcript_dir" "output/transcripts"
                     audio_path (u ".txt"));
    Try (fun l =>
      transcribe_stage model language audio_path (output l) ;;;
      print (nl ++ u "[bold green]✓ 转录成功！[/bold green]") ;;;
      print (u "输出文件: " ++ shown (output l)) ;;;
      ret l)
      (fail (u "转录失败")) ].

(** ** [procast extract] *)
Definition extract (text_path : str) (num : Z) (min_score : Q)
    : list block :=
  [ Plain (fun l =>
      print (u "[bold cyan]开始提取金句...[/bold cyan]") ;;;
      default_output l "output.quotes_dir" "output/quotes"
                     text_path (u "_quotes.json"));
    Try (fun l =>
      qs <- extract_stage extractor_settings text_path (output l) num ;;
      qs <- (if Qlt_bool 0 min_score
             then r <- lift (filter_quotes qs min_score None None) ;;
                  ret (fst r)
             else ret qs) ;;
      print (nl ++ u "[bold green]✓ 成功提取 "
               ++ str_of_N (N.of_nat (length qs))
               ++ u " 条金句[/bold green]" ++ nl) ;;;
      table <- lift (render_table qs) ;;
      print table ;;;
      ret (set_quotes l qs))
      (fail (u "提取失败")) ].

(** [[Quote.from_dict(q) for q in quotes_data]] *)
Fixpoint quotes_from (items : list value) : result (list Quote) :=
  match items with
  | [] => Ok []
  | VDict d :: rest =>
    qs <~ quotes_from rest ;; Ok (from_dict d :: qs)
  | _ :: _ => Raise AttributeError
  end.

(** ** [procast generate] *)
Definition generate (quotes_path : str) (title style : str)
    (min_score : Q) (max_count : Z) : list block :=
  [ Plain (fun l =>
      print (u "[bold cyan]开始生成金句卡片...[/bold cyan]") ;;;
      quotes_data <- load_json quotes_path ;;
      items <- lift (iterate quotes_data) ;;
      qs <- lift (quotes_from items) ;;
      qs <- (if Qlt_bool 0 min_score || (0 <? max_count)
             then r <- lift (filter_quotes qs min_score None
                               (if 0 <? max_count then Some max_count
                                else None)) ;;
                  ret (fst r)
             else ret qs) ;;
      dir <- (match output l with
              | None => lift (path_of_value
                                (cfg "output.cards_dir"
                                     (VStr (u "output/cards"))))
              | Some d => ret (Pathlib.Path_of d)
              end) ;;
      ret (set_output_dir (set_quotes l qs) dir));
    Try (fun l =>
      output_paths <- generate_stage card_settings (quotes l)
                        (Pathlib.str_of (output_dir l)) title style ;;
      print (nl ++ u "[bold green]✓ 成功生成 "
               ++ str_of_N (N.of_nat (length output_paths))
               ++ u " 张卡片[/bold green]") ;;;
      print (u "输出目录: " ++ Pathlib.str_of (output_dir l)) ;;;
      ret l)
      (fail (u "生成失败")) ].

(** ** [procast pipeline] *)
Definition pipeline (audio_path : str) (num_quotes : Z) (min_score : Q)
    (style whisper_model : str) : list block :=
  let audio_path := Pathlib.Path_of audio_path in
  let audio_name := Pathlib.stem audio_path in
  let dir_of (l : locals) :=
    match output l with
    | None => Pathlib.joinpath (Pathlib.Path_of (u "output")) audio_name
    | Some d => Pathlib.Path_of d
    end in
  let transcript_path (l : locals) :=
    Pathlib.joinpath (output_dir l) (u "transcript.txt") in
  let quotes_path (l : locals) :=
    Pathlib.joinpath (output_dir l) (u "quotes.json") in
  let cards_dir (l : locals) :=
    Pathlib.joinpath (output_dir l) (u "cards") in
  [ Plain (fun l =>
      print (u "[bold cyan]开始完整处理流程...[/bold cyan]" ++ nl) ;;;
      let l := set_output_dir l (dir_of l) in
      emit (Mkdir (Pathlib.str_of (output_dir l))) ;;;
      print (u "[bold]步骤 1/3: 转录音频[/bold]") ;;;
      ret l);
    Try (fun l =>
      transcribe_stage whisper_model (u "zh") (Pathlib.str_of audio_path)
                       (Some (Pathlib.str_of (transcript_path l))) ;;;
      ret l)
      (fail (u "转录失败"));
    Plain (fun l =>
      print (nl ++ u "[bold]步骤 2/3: 提取金句[/bold]") ;;;
      ret l);
    Try (fun l =>
      qs <- extract_stage extractor_settings
              (Pathlib.str_of (transcript_path l))
              (Some (Pathlib.str_of (quotes_path l))) num_quotes ;;
      r <- lift (filter_quotes qs min_score None None) ;;
      let qs := fst r in
      if nonempty qs then ret (set_quotes l qs)
      else
        print (u "[bold yellow]⚠ 没有找到分数 >= " ++ str_of_float min_score
                 ++ u " 的金句[/bold yellow]") ;;;
        raise (Exit 0))
      (fail (u "提取失败"));
    Plain (fun l =>
      print (nl ++ u "[bold]步骤 3/3: 生成卡片[/bold]") ;;;
      ret l);
    Try (fun l =>
      generate_stage card_settings (quotes l)
                     (Pathlib.str_of (cards_dir l)) (u "播客金句") style ;;;
      ret l)
      (fail (u "生成卡片失败"));
    Plain (fun l =>
      print (nl ++ u "[bold green]✓ 全部完成！[/bold green]") ;;;
      print (u "输出目录: " ++ Pathlib.str_of (output_dir l)) ;;;
      print (u "- 转录文本: " ++ Pathlib.str_of (transcript_path l)) ;;;
      print (u "- 金句数据: " ++ Pathlib.str_of (quotes_path l)) ;;;
      print (u "- 卡片图片: " ++ Pathlib.str_of (cards_dir l)) ;;;
      ret l) ].


End Commands.

(** Locals before the first statement: [output] is the [--output]
    option, if given. *)
Definition start (o : option str) : locals :=
  {| output := o; output_dir := Pathlib.Path_of []; quotes := [] |}.

End Cli.

(* ================================================================== *)
(** * Vocabulary of the properties *)
(* ================================================================== *)

Module Wrapping.

Import CardGenerator.

(** The units [_wrap_text] never splits, and what joins them in a line:
    the characters of a text with a Chinese character, joined by nothing;
    the whitespace-delimited words of any other text, joined by a space. *)
Definition units (text : str) : list str :=
  if existsb is_cjk text then map (fun c => [c]) text else split text.

Definition separator (text : str) : str :=
  if existsb is_cjk text then [] else u " ".

(** A line, given as the units it holds, fits or is a single unit that is
    too wide by itself. *)
Definition line_ok (font : Font) (max_width : Z) (sep : str)
    (g : list str) : Prop :=
  bbox_width font (join sep g) <= max_width
  \/ exists unit, g = [unit] /\ max_width < bbox_width font unit.

(** The first unit of the next line did not fit at the end of this one. *)
Definition forced_break (font : Font) (max_width : Z) (sep : str)
    (g next : list str) : Prop :=
  match next with
  | unit :: _ => max_width < bbox_width font (join sep (g ++ [unit]))
  | [] => True
  end.

(** Both loops of [_wrap_text] are this one, over units. *)
Definition wrap_unit (font : Font) (max_width : Z) (sep : str)
    (st : list str * str) (unit : str) : list str * str :=
  let '(lines, current_line) := st in
  let test_line :=
    if nonempty current_line then current_line ++ sep ++ unit else unit in
  if bbox_width font test_line <=? max_width then (lines, test_line)
  else ((if nonempty current_line then lines ++ [current_line] else lines),
        unit).

(** The state of the loop, read as lines of units: [gs] are the lines
    already appended and [g] holds the units of [current_line]. *)
Record reads (font : Font) (max_width : Z) (sep : str)
    (gs : list (list str)) (g : list str) (st : list str * str) : Prop := {
  reads_lines : fst st = map (join sep) gs;
  reads_current : snd st = join sep g;
  reads_units : Forall (fun x => x <> []) g;
  reads_closed : Forall (fun x => x <> []) gs;
  reads_ok : Forall (line_ok font max_width sep) gs;
  reads_current_ok : g = [] \/ line_ok font max_width sep g;
  reads_breaks : Sorted (forced_break font max_width sep) (gs ++ [g]);
  reads_start : g = [] -> gs = []
}.

End Wrapping.

Module Extraction.

Import Extractor.

(** The categories that go into the prompt: [if not categories] replaces
    [None] and the empty list by the default list. *)
Definition effective_categories (categories : option (list str))
    : list str :=
  match categories with
  | Some (c :: cs) => c :: cs
  | _ => default_categories
  end.

(** The two messages [extract] sends. *)
Definition messages (prompt : str) : list (str * str) :=
  [(u "system", system_message); (u "user", prompt)].

(** The lines of the rubric that depend on the arguments, and the scoring
    instruction. *)
Definition rubric_count (num_quotes : Z) : str :=
  u "1. 提取约 " ++ str_of_int num_quotes ++ u " 条最有价值的金句".

Definition rubric_length (min_length max_length : Z) : str :=
  u "2. 每条金句长度在 " ++ str_of_int min_length ++ u "-"
    ++ str_of_int max_length ++ u " 字之间".

Definition rubric_categories (categories : list str) : str :=
  u "4. 为每条金句分配一个分类：" ++ join (u ", ") categories.

Definition rubric_score : str :=
  u "5. 为每条金句打分（0-10分），分数越高表示越有价值".

(** A quote that copies the four fields of a reply entry, a missing field
    being the empty string or 0.0. *)
Definition copied_from (entry : dict) (q : Quote) : Prop :=
  text q = Dict.get entry (u "text") (VStr [])
  /\ context q = Dict.get entry (u "context") (VStr [])
  /\ category q = Dict.get entry (u "category") (VStr [])
  /\ score q = Dict.get entry (u "score") (VFloat 0).

End Extraction.

Module Filtering.

Import Extractor.

(** The score of a quote is a number. *)
Definition numeric (q : Quote) : Prop := num_of (score q) <> None.




(** The number a numeric score denotes. *)
Definition key (q : Quote) : Q :=
  match num_of (score q) with
  | Some x => x
  | None => 0
  end.

Definition key_ge (a b : Quote) : Prop := (key b <= key a)%Q.

(** The stages of [filter_quotes] after the score filter: the list after
    the category filter, and after the truncation. *)
Definition by_category (category : option str) (l : list Quote)
    : list Quote :=
  match category with
  | Some c => if nonempty c then filter (category_is c) l else l
  | None => l
  end.

Definition truncated (max_count : option Z) (l : list Quote) : list Quote :=
  match max_count with
  | Some n => if n =? 0 then l else slice_to l n
  | None => l
  end.

End Filtering.

Module Paths.

Import Pathlib.

(** A component as [Path] keeps it: not empty, not [.], without a slash. *)
Definition component (c : str) : Prop :=
  is_component c = true /\ ~ In slash c.

(** A path as [Path(s)] builds it. *)
Definition normal (p : Path) : Prop :=
  (root p = [] \/ root p = [slash] \/ root p = [slash; slash])
  /\ Forall component (parts p).

Definition is_digit (c : char) : Prop := (0x30 <= c <= 0x39)%N.

(** [str(dir / card_name(i))] for [n] consecutive indices from [i] on:
    the paths [generate_batch] is to write and return. *)
Fixpoint card_paths (dir : Path) (i : N) (n : nat) : list str :=
  match n with
  | O => []
  | S n' =>
    str_of (joinpath dir (CardGenerator.card_name i))
      :: card_paths dir (i + 1) n'
  end.

End Paths.

Module Rendering.

Import CardGenerator.

(** The three colours of a generator are colours [_hex_to_rgb] reads. *)
Definition colours_ok (int16 : str -> result Z) (self : CardGenerator)
    : Prop :=
  forall c,
    In c [background_color self; text_color self; accent_color self] ->
    exists colour, _hex_to_rgb int16 c = Ok colour.

(** An item whose text is a string and whose subtitle is a string or
    falsy: one the drawing code can print. *)
Definition printable (py_str : value -> str) (quote : batch_item) : Prop :=
  (exists t, as_text (item_text py_str quote) = Ok t)
  /\ (exists s, as_subtitle (item_subtitle quote) = Ok s).

(** The template [generate] draws for a style. *)
Definition template (int16 : str -> result Z) (upper : str -> str)
    (truetype : str -> Z -> Font) (self : CardGenerator) (style : str)
    (quote_text title subtitle : str) : result (list draw_op) :=
  if str_eqb style (u "minimal")
  then _draw_minimal_card int16 truetype self quote_text title subtitle
  else if str_eqb style (u "elegant")
  then _draw_elegant_card int16 self quote_text title subtitle
  else if str_eqb style (u "modern")
  then _draw_modern_card int16 upper self quote_text title subtitle
  else _draw_minimal_card int16 truetype self quote_text title subtitle.

(** What [img.save(path, quality=95)] stores. *)
Definition saved (img : image) : content := ImageFile img 95.

(** The world after [generate] has made the directory, saved the image
    and printed its message. *)
Definition after_generate (w : world) (target : Pathlib.Path)
    (img : image) : world :=
  {| existed := existed w;
     fs_log := (fs_log w ++ [Mkdir (Pathlib.str_of (Pathlib.parent target))])
                 ++ [WriteFile (Pathlib.str_of target) (saved img)];
     console := console w ++ [u "✓ 卡片已生成: " ++ Pathlib.str_of target] |}.

End Rendering.

Module Transcription.

Import Transcriber.

(** The model [transcribe] uses: the one already loaded, or else the one
    [whisper.load_model] returns. *)
Definition model_in_use (load_model : str -> result WhisperModel)
    (self : AudioTranscriber) : result WhisperModel :=
  match model self with
  | Some m => Ok m
  | None => load_model (model_name self)
  end.

(** A suffix such as [.txt]: a dot followed by at least one character,
    none of them a dot. *)
Definition plain_suffix (suf : str) : Prop :=
  Pathlib.rfind Pathlib.dot suf = Some O /\ (2 <= length suf)%nat.

(** A file of [stem] and [suffix] next to the path [p]. *)
Definition sibling (p q : Pathlib.Path) (suffix : str) : Prop :=
  Pathlib.parent q = Pathlib.parent p
  /\ Pathlib.stem q = Pathlib.stem p
  /\ Pathlib.suffix q = suffix.

End Transcription.

Module Recovery.

Import Cli.

(** The world after a failure message has been printed. *)
Definition after_failure (w : world) (label : str) (e : exn) : world :=
  {| existed := existed w;
     fs_log := fs_log w;
     console := console w ++ [failure_message label e] |}.


End Recovery.

(** Concrete objects on which the definitions are evaluated. *)
Module Examples.

Definition empty_world : world :=
  {| existed := fun _ => false; fs_log := []; console := [] |}.

(** A fixed-pitch font: every character is ten units wide. *)
Definition mono : Font :=
  {| getbbox := fun s => (0, 0, 10 * Z.of_nat (length s), 12);
     textbbox := fun s => (0, 0, 10 * Z.of_nat (length s), 12);
     size := 12;
     path := None |}.

Definition quote (text category : string) (score : Q) : Extractor.Quote :=
  Extractor.Quote_init (VStr (u text)) (VStr []) (VStr (u category))
    (VFloat score) VNone.

(** A configuration object holding the default configuration. *)
Definition default_Config : Config.Config :=
  {| Config.config_path := u "config.json";
     Config.config := VDict Config._default_config |}.

(** A model whose reply parses to two entries, the second one empty. *)
Definition reply_entry : dict :=
  [ (u "text", VStr (u "三人行，必有我师"));
    (u "category", VStr (u "启发"));
    (u "score", VFloat (17 # 2)) ].

Definition canned_extractor : Extractor.QuoteExtractor :=
  {| Extractor.client := fun _ _ _ => Ok (u "{}");
     Extractor.model := VStr (u "gpt-4-turbo-preview");
     Extractor.temperature := VFloat (7 # 10) |}.

Definition canned_loads (reply : str) : result value :=
  Ok (VDict [(u "quotes", VList [VDict reply_entry; VDict []])]).

(** Two hexadecimal digits, as [int(s, 16)] reads them. *)
Definition hex_digit (c : char) : option Z :=
  if ((0x30 <=? c) && (c <=? 0x39))%N then Some (Z.of_N (c - 0x30))
  else if ((0x61 <=? c) && (c <=? 0x66))%N then Some (Z.of_N (c - 0x57))
  else if ((0x41 <=? c) && (c <=? 0x46))%N then Some (Z.of_N (c - 0x37))
  else None.

Definition hex_pair (s : str) : result Z :=
  match s with
  | [a; b] =>
    match hex_digit a, hex_digit b with
    | Some x, Some y => Ok (16 * x + y)
    | _, _ => Raise (ValueError (u "invalid literal for int()"))
    end
  | _ => Raise (ValueError (u "invalid literal for int()"))
  end.

(** A generator with the default colours and the fixed-pitch font. *)
Definition generator : CardGenerator.CardGenerator :=
  {| CardGenerator.width := 1080;
     CardGenerator.height := 1920;
     CardGenerator.background_color := u "#1a1a2e";
     CardGenerator.text_color := u "#ffffff";
     CardGenerator.accent_color := u "#e94560";
     CardGenerator.padding := 100;
     CardGenerator.font := mono;
     CardGenerator.title_font := mono;
     CardGenerator.small_font := mono |}.

(** A speech model with a canned result, and a world in which every
    path exists. *)
Definition heard : dict :=
  [ (u "text", VStr (u "学而时习之"));
    (u "segments",
     VList [VDict [ (u "start", VFloat 0); (u "end", VFloat (5 # 2));
                    (u "text", VStr (u "学而时习之")) ]]);
    (u "language", VStr (u "zh")) ].

Definition canned_whisper (name : str) : result Transcriber.WhisperModel :=
  Ok (fun _ _ => Ok heard).

Definition full_world : world :=
  {| existed := fun _ => true; fs_log := []; console := [] |}.

(** Stages of the command line interface: a transcription that fails,
    and an extraction and a rendering that return nothing. *)
Definition failing_transcribe (model language audio : str)
    (output : option str) : M dict :=
  raise (RuntimeError (u "out of memory")).

Definition quiet_transcribe (model language audio : str)
    (output : option str) : M dict :=
  ret heard.

Definition no_quotes (settings : list value) (path : str)
    (output : option str) (n : Z) : M (list Extractor.Quote) :=
  ret [].

Definition no_cards (settings : list value) (quotes : list Extractor.Quote)
    (dir title style : str) : M (list str) :=
  ret [].

Definition three_quotes : list Extractor.Quote :=
  [ quote "学而不思则罔" "观点" (15 # 2);
    quote "千里之行，始于足下" "启发" 9;
    quote "温故而知新" "观点" (-1) ].

End Examples.

(* ================================================================== *)
(** * The remaining operations of the package *)
(* ================================================================== *)

(** ** config.py: [Config.set] *)

Module ConfigStore.

Import Config.

(** The loop of [set] over [keys[:-1]] followed by the assignment to
    [keys[-1]], on the dictionary reached so far: a missing key gets an
    empty dictionary, and whatever is not a dictionary cannot be indexed by
    a string or assigned to. *)
Fixpoint assign (init : list str) (last : str) (v : value) (node : value)
    : result value :=
  match node with
  | VDict d =>
    match init with
    | [] => Ok (VDict (setitem d last v))
    | k :: init' =>
      let child :=
        match Dict.lookup d k with
        | Some c => c
        | None => VDict []
        end in
      child' <~ assign init' last v child ;;
      Ok (VDict (setitem d k child'))
    end
  | _ => Raise TypeError
  end.

(** [set] returns the object with its configuration updated. *)
Definition set (self : Config) (key : str) (v : value) : result Config :=
  let keys := split_on dot key in
  cfg <~ assign (removelast keys) (last keys []) v (config self) ;;
  Ok {| config_path := config_path self; config := cfg |}.

End ConfigStore.

(** ** extractor.py: [extract_from_file] *)

Module ExtractorFile.

Import Extractor.

(** [[q.to_dict() for q in quotes]] *)
Definition quotes_data (quotes : list Quote) : value :=
  VList (map (fun q => VDict (to_dict q)) quotes).

Section FromFile.

(** [json.loads], reading a text file, and [json.dumps]. *)
Variable json_loads : str -> result value.
Variable read_text : str -> result str.
Variable json_dumps : value -> str.

Definition extract_from_file (self : QuoteExtractor) (input_path : str)
    (output_path : option str) (num_quotes min_length max_length : Z)
    (categories : option (list str)) : M (list Quote) :=
  let input_path := Pathlib.Path_of input_path in
  present <- exists_ (Pathlib.str_of input_path) ;;
  if negb present
  then raise (FileNotFoundError
                (u "文件不存在: " ++ Pathlib.str_of input_path))
  else
    text <- lift (read_text (Pathlib.str_of input_path)) ;;
    quotes <- extract json_loads self text num_quotes min_length max_length
                categories ;;
    match output_path with
    | Some (c :: s) =>
      let output_path := Pathlib.Path_of (c :: s) in
      emit (Mkdir (Pathlib.str_of (Pathlib.parent output_path))) ;;;
      emit (WriteFile (Pathlib.str_of output_path)
                      (TextFile (json_dumps (quotes_data quotes)))) ;;;
      print (u "✓ 金句已保存到: " ++ Pathlib.str_of output_path) ;;;
      ret quotes
    | _ => ret quotes
    end.

End FromFile.

End ExtractorFile.

(** ** card_generator.py: [_load_font] *)

Module Fonts.

Definition system_fonts : list str :=
  [ u "/System/Library/Fonts/PingFang.ttc";
    u "/usr/share/fonts/truetype/noto/NotoSansCJK-Regular.ttc";
    u "/usr/share/fonts/opentype/noto/NotoSansCJK-Regular.ttc";
    u "C:\Windows\Fonts\msyh.ttc" ].

Section Load.

(** [ImageFont.truetype], which may raise, and [ImageFont.load_default()]. *)
Variable truetype : str -> Z -> result Font.
Variable load_default : Font.

(** The loop over the system fonts; its bare [except:] swallows whatever
    is raised. *)
Fixpoint try_fonts (fonts : list str) (size : Z) : M Font :=
  match fonts with
  | [] => ret load_default
  | f :: rest =>
    present <- exists_ f ;;
    if present
    then match truetype f size with
         | Ok loaded => ret loaded
         | Raise _ => try_fonts rest size
         end
    else try_fonts rest size
  end.

Definition _load_font (font_path : option str) (size : Z) : M Font :=
  match font_path with
  | Some (c :: s) =>
    present <- exists_ (c :: s) ;;
    if present
    then match truetype (c :: s) size with
         | Ok loaded => ret loaded
         | Raise e =>
           if is_Exception e
           then print (u "⚠ 无法加载字体 " ++ (c :: s) ++ u ": "
                         ++ exn_str e) ;;;
                try_fonts system_fonts size
           else raise e
         end
    else try_fonts system_fonts size
  | _ => try_fonts system_fonts size
  end.

End Load.

End Fonts.

(** ** transcriber.py: [transcribe_with_timestamps] and [get_full_text] *)

Module Segments.

Import Transcriber.

(** [s.lstrip()], [s.rstrip()] and [s.strip()] *)
Fixpoint lstrip (s : str) : str :=
  match s with
  | c :: rest => if isspace c then lstrip rest else s
  | [] => []
  end.

Definition rstrip (s : str) : str := rev (lstrip (rev s)).

Definition strip (s : str) : str := rstrip (lstrip s).

(** [d[k]] *)
Definition getitem (d : dict) (k : str) : result value :=
  match Dict.lookup d k with
  | Some v => Ok v
  | None => Raise (KeyError k)
  end.

(** The dictionary appended for one segment; only a dictionary can be
    indexed by a string, and only a string has [strip]. *)
Definition segment_entry (segment : value) : result value :=
  match segment with
  | VDict d =>
    start <~ getitem d (u "start") ;;
    stop <~ getitem d (u "end") ;;
    text <~ getitem d (u "text") ;;
    match text with
    | VStr s =>
      Ok (VDict [ (u "start", start); (u "end", stop);
                  (u "text", VStr (strip s)) ])
    | _ => Raise AttributeError
    end
  | _ => Raise TypeError
  end.

Fixpoint segment_entries (segments : list value) : result (list value) :=
  match segments with
  | [] => Ok []
  | segment :: rest =>
    entry <~ segment_entry segment ;;
    entries <~ segment_entries rest ;;
    Ok (entry :: entries)
  end.

Section Methods.

Variable load_model : str -> result WhisperModel.
Variable json_dumps : value -> str.

Definition transcribe_with_timestamps (self : AudioTranscriber)
    (audio_path : str) (output_path : option str)
    : M (list value * AudioTranscriber) :=
  r <- transcribe load_model json_dumps self audio_path output_path true ;;
  let '(res, self) := r in
  segments <- lift (Extractor.iterate
                      (Dict.get res (u "segments") (VList []))) ;;
  entries <- lift (segment_entries segments) ;;
  ret (entries, self).

Definition get_full_text (self : AudioTranscriber) (audio_path : str)
    : M (value * AudioTranscriber) :=
  r <- transcribe load_model json_dumps self audio_path None false ;;
  let '(res, self) := r in
  text <- lift (getitem res (u "text")) ;;
  ret (text, self).

End Methods.

End Segments.

(** ** Vocabulary of the further properties *)

Module Further.


(** The environment variables [_override_with_env] reads, each with the
    key of the section [llm] it overrides. *)
Definition overrides : list (str * str) :=
  [ (u "OPENAI_API_KEY", u "api_key");
    (u "OPENAI_BASE_URL", u "base_url");
    (u "ANTHROPIC_API_KEY", u "anthropic_key");
    (u "GOOGLE_API_KEY", u "google_key") ].

(** A variable is set when [os.getenv] returns a non-empty string. *)
Definition is_set (getenv : str -> option str) (var : str) : Prop :=
  exists c s, getenv var = Some (c :: s).

(** A configuration whose section [llm] is a dictionary. *)
Definition has_llm (cfg : value) : Prop :=
  exists d inner,
    cfg = VDict d /\ Dict.lookup d (u "llm") = Some (VDict inner).

(** The path [Config.__init__] settles on. *)
Definition effective_path (getenv : str -> option str)
    (config_path : option str) : str :=
  match config_path with
  | Some p => p
  | None =>
    match getenv (u "CONFIG_PATH") with
    | Some p => p
    | None => u "config.json"
    end
  end.

(** What [extract] makes of the model's reply: the parsed reply, its entry
    ["quotes"], the iteration over it and one quote per item. *)
Definition quotes_of_reply (json_loads : str -> result value) (reply : str)
    : result (list Extractor.Quote) :=
  parsed <~ json_loads reply ;;
  entry <~ Extractor.quotes_entry parsed ;;
  items <~ Extractor.iterate entry ;;
  Extractor.quotes_of_items items.

(** The world after some messages have been printed. *)
Definition printed (w : world) (msgs : list str) : world :=
  {| existed := existed w; fs_log := fs_log w;
     console := console w ++ msgs |}.

(** The two messages of [extract]. *)
Definition progress_message : str := u "正在提取金句...".

Definition success_message (n : nat) : str :=
  u "✓ 成功提取 " ++ str_of_N (N.of_nat n) ++ u " 条金句".

(** The world after [extract_from_file] has saved the quotes. *)
Definition after_save (json_dumps : value -> str) (w : world)
    (target : Pathlib.Path) (quotes : list Extractor.Quote) : world :=
  {| existed := existed w;
     fs_log := (fs_log w
                  ++ [Mkdir (Pathlib.str_of (Pathlib.parent target))])
                 ++ [WriteFile (Pathlib.str_of target)
                       (TextFile
                          (json_dumps (ExtractorFile.quotes_data quotes)))];
     console := console w
                  ++ [u "✓ 金句已保存到: " ++ Pathlib.str_of target] |}.

(** The quotes that pass the two filters of [filter_quotes], in input
    order. *)
Definition selected (min_score : Q) (category : option str)
    (quotes : list Extractor.Quote) : list Extractor.Quote :=
  Filtering.by_category category
    (if Qlt_bool 0 min_score
     then filter (fun q => Qle_bool min_score (Filtering.key q)) quotes
     else quotes).


(** What [_load_font] may return: the default font, or a font loaded
    from an existing file that is the given path or a system font. *)
Definition font_source (truetype : str -> Z -> result Font)
    (load_default : Font) (font_path : option str) (size : Z) (w : world)
    (loaded : Font) : Prop :=
  loaded = load_default
  \/ exists p,
       truetype p size = Ok loaded
       /\ path_exists w p = true
       /\ (font_path = Some p \/ In p Fonts.system_fonts).

(** Values that cannot be iterated over: [for char in text] raises a
    [TypeError] on them. *)
Definition not_iterable (v : value) : Prop :=
  match v with
  | VNone | VBool _ | VInt _ | VFloat _ => True
  | _ => False
  end.

(** What [str.strip] leaves of a string: the string without a prefix and
    a suffix of whitespace, itself neither starting nor ending with a
    whitespace character. *)
Definition stripped (s t : str) : Prop :=
  (exists pre post,
     s = pre ++ t ++ post
     /\ forallb isspace pre = true /\ forallb isspace post = true)
  /\ match t with
     | c :: _ => isspace c = false /\ isspace (last t c) = false
     | [] => True
     end.

(** A segment as Whisper returns it, and the entry
    [transcribe_with_timestamps] makes of it. *)
Definition segment_of (start stop : value) (t : str) (segment : value)
    : Prop :=
  exists d,
    segment = VDict d
    /\ Dict.lookup d (u "start") = Some start
    /\ Dict.lookup d (u "end") = Some stop
    /\ Dict.lookup d (u "text") = Some (VStr t).

Definition entry_of (segment entry : value) : Prop :=
  exists start stop t t',
    segment_of start stop t segment
    /\ stripped t t'
    /\ entry = VDict [ (u "start", start); (u "end", stop);
                       (u "text", VStr t') ].

Definition well_formed (segment : value) : Prop :=
  exists start stop t, segment_of start stop t segment.

(** The output directory of [pipeline], and the world once the command
    has made it and announced its first step. *)
Definition pipeline_dir (audio_path : str) (o : option str) : Pathlib.Path :=
  match o with
  | None =>
    Pathlib.joinpath (Pathlib.Path_of (u "output"))
      (Pathlib.stem (Pathlib.Path_of audio_path))
  | Some d => Pathlib.Path_of d
  end.




(** The width the templates wrap the quote to. *)
Definition body_width (self : CardGenerator.CardGenerator) (style : str)
    : Z :=
  if str_eqb style (u "elegant")
  then CardGenerator.width self - 2 * CardGenerator.padding self - 40
  else if str_eqb style (u "modern")
  then CardGenerator.width self - CardGenerator.padding self
         - (CardGenerator.padding self + 20) - 40
  else CardGenerator.width self - 2 * CardGenerator.padding self.

(** The text an operation draws. *)
Definition drawn_text (op : draw_op) : str :=
  match op with
  | DrawText _ _ s _ _ => s
  | _ => []
  end.

(** A line of the quote drawn in the body font that ends at or before the
    right padding, unless it is a single unit of the text that is wider
    than the body. *)
Definition inside_margin (self : CardGenerator.CardGenerator) (style : str)
    (text : str) (op : draw_op) : Prop :=
  match op with
  | DrawText x _ s f _ =>
    f = CardGenerator.font self
    /\ (x + CardGenerator.bbox_width f s
          <= CardGenerator.width self - CardGenerator.padding self
        \/ (In s (Wrapping.units text)
            /\ body_width self style < CardGenerator.bbox_width f s))
  | _ => False
  end.

(** A text drawn in the middle of the card: the space to its left and
    the space to its right differ by at most one pixel. *)
Definition centred_text (self : CardGenerator.CardGenerator) (op : draw_op)
    : Prop :=
  match op with
  | DrawText x _ s f _ =>
    0 <= CardGenerator.width self - CardGenerator.bbox_w (textbbox f s)
         - 2 * x <= 1
  | _ => True
  end.

End Further.

(** Further concrete objects. *)
Module Samples.

(** An environment that only sets the OpenAI key. *)
Definition only_openai_key (var : str) : option str :=
  if str_eqb var (u "OPENAI_API_KEY") then Some (u "sk-test") else None.

Definition no_environment (var : str) : option str := None.

(** A configuration file without the section [llm]. *)
Definition card_only (path : str) : result value :=
  Ok (VDict [(u "card", VDict [(u "width", VInt 800)])]).

(** A reply that parses to a list, and one whose second entry is a
    string. *)
Definition loads_list (reply : str) : result value := Ok (VList []).

Definition loads_bad_entry (reply : str) : result value :=
  Ok (VDict [(u "quotes", VList [VDict []; VStr (u "three")])]).

Definition loads_empty_object (reply : str) : result value := Ok (VDict []).

(** A file system holding one transcript. *)
Definition transcript_world : world :=
  {| existed := fun p => str_eqb p (u "talk/transcript.txt");
     fs_log := []; console := [] |}.

Definition read_transcript (path : str) : result str :=
  Ok (u "三人行，必有我师焉。").

Definition dumps_stub (v : value) : str := u "[...]".

(** A quote whose score is a string. *)
Definition unscored : Extractor.Quote :=
  Extractor.Quote_init (VStr (u "知之为知之")) (VStr []) (VStr (u "观点"))
    (VStr (u "high")) VNone.

(** A generator whose accent colour ends in a letter that is no digit. *)
Definition bad_accent : CardGenerator.CardGenerator :=
  {| CardGenerator.width := 1080;
     CardGenerator.height := 1920;
     CardGenerator.background_color := u "#1a1a2e";
     CardGenerator.text_color := u "#ffffff";
     CardGenerator.accent_color := u "#e9456g";
     CardGenerator.padding := 100;
     CardGenerator.font := Examples.mono;
     CardGenerator.title_font := Examples.mono;
     CardGenerator.small_font := Examples.mono |}.

(** A font loader that knows one file, and one that always fails. *)
Definition truetype_noto (p : str) (size : Z) : result Font :=
  if str_eqb p (u "/usr/share/fonts/truetype/noto/NotoSansCJK-Regular.ttc")
  then Ok Examples.mono
  else Raise (OSError (u "cannot open resource")).

(** A quote whose text is a number. *)
Definition numbered : CardGenerator.batch_item :=
  CardGenerator.AValue (VDict [(u "text", VInt 42)]).

(** A speech model whose result has no text, and one that fails. *)
Definition silent_whisper (name : str) : result Transcriber.WhisperModel :=
  Ok (fun _ _ => Ok [(u "segments", VList [])]).

Definition broken_whisper (name : str) : result Transcriber.WhisperModel :=
  Raise (RuntimeError (u "CUDA out of memory")).

(** A result with two segments, the text of each padded with spaces. *)
Definition heard_twice : dict :=
  [ (u "text", VStr (u " 学而时习之 不亦说乎"));
    (u "segments",
     VList [ VDict [ (u "id", VInt 0); (u "start", VFloat 0);
                     (u "end", VFloat (5 # 2));
                     (u "text", VStr (u " 学而时习之")) ];
             VDict [ (u "id", VInt 1); (u "start", VFloat (5 # 2));
                     (u "end", VFloat 5);
                     (u "text", VStr (u " 不亦说乎 ")) ] ]) ].

Definition padded_whisper (name : str) : result Transcriber.WhisperModel :=
  Ok (fun _ _ => Ok heard_twice).

End Samples.

(* ================================================================== *)
(** * Properties *)
(* ================================================================== *)

(** ** Strings *)

Lemma str_eqb_eq (a b : str) : str_eqb a b = true <-> a = b.
Proof.
  revert b. induction a as [|x a IH]; intros [|y b]; simpl;
    try (split; [discriminate | discriminate]); try tauto.
  rewrite andb_true_iff, N.eqb_eq, IH. split.
  - intros [-> ->]. reflexivity.
  - intros H. injection H as -> ->. auto.
Qed.

Lemma str_eqb_refl (a : str) : str_eqb a a = true.
Proof. now apply str_eqb_eq. Qed.

Lemma str_eqb_neq (a b : str) : a <> b -> str_eqb a b = false.
Proof.
  intros H. destruct (str_eqb a b) eqn:E; [|reflexivity].
  apply str_eqb_eq in E. contradiction.
Qed.

Lemma nonempty_true {A} (l : list A) : nonempty l = true <-> l <> [].
Proof. destruct l; simpl; split; congruence. Qed.

Lemma nonempty_false {A} (l : list A) : nonempty l = false <-> l = [].
Proof. destruct l; simpl; split; congruence. Qed.

Lemma join_cons (sep p : str) (rest : list str) :
  rest <> [] -> join sep (p :: rest) = p ++ sep ++ join sep rest.
Proof. destruct rest; [congruence | reflexivity]. Qed.

Lemma join_snoc (sep : str) (g : list str) (x : str) :
  g <> [] -> join sep (g ++ [x]) = join sep g ++ sep ++ x.
Proof.
  induction g as [|p g IH]; [congruence|]. intros _.
  destruct g as [|p' g].
  - reflexivity.
  - change ((p :: p' :: g) ++ [x]) with (p :: ((p' :: g) ++ [x])).
    rewrite join_cons by (destruct g; discriminate).
    rewrite IH by discriminate.
    rewrite (join_cons sep p (rest := p' :: g)) by discriminate.
    now rewrite <- !app_assoc.
Qed.

Lemma join_nonempty (sep : str) (g : list str) :
  g <> [] -> Forall (fun x => x <> []) g -> join sep g <> [].
Proof.
  destruct g as [|p g]; [congruence|]. intros _ H.
  inversion H as [|? ? Hp _]; subst.
  destruct g; simpl; [assumption|].
  destruct p; [congruence | discriminate].
Qed.

Lemma join_nil_sep (g : list str) : join [] g = concat g.
Proof.
  induction g as [|p g IH]; [reflexivity|].
  destruct g as [|p' g].
  - simpl. now rewrite app_nil_r.
  - rewrite join_cons by discriminate. rewrite IH. reflexivity.
Qed.

(** [str.split()] never yields an empty word. *)
Lemma split_ws_from_nonempty (s word : str) :
  Forall (fun x => x <> []) (split_ws_from word s).
Proof.
  revert word. induction s as [|c s IH]; intros word; simpl.
  - destruct word; simpl; constructor; [discriminate | constructor].
  - destruct (isspace c).
    + destruct word; simpl; [apply IH|].
      constructor; [discriminate | apply IH].
    + apply IH.
Qed.

Lemma split_nonempty (s : str) : Forall (fun x => x <> []) (split s).
Proof. apply split_ws_from_nonempty. Qed.

Lemma split_on_from_no_sep sep (s : str) : forall piece,
  ~ In sep s -> split_on_from sep piece s = [piece ++ s].
Proof.
  induction s as [|c s IH]; intros piece Hno; simpl.
  - now rewrite app_nil_r.
  - destruct (N.eqb_spec c sep) as [->|Hne].
    + exfalso. apply Hno. now left.
    + rewrite IH by (intros H; apply Hno; now right).
      now rewrite <- app_assoc.
Qed.

Lemma split_on_from_sep sep (a b : str) : forall piece,
  ~ In sep a ->
  split_on_from sep piece (a ++ sep :: b)
  = (piece ++ a) :: split_on_from sep [] b.
Proof.
  induction a as [|c a IH]; intros piece Hno; simpl.
  - rewrite N.eqb_refl. now rewrite app_nil_r.
  - destruct (N.eqb_spec c sep) as [->|Hne].
    + exfalso. apply Hno. now left.
    + rewrite IH by (intros H; apply Hno; now right).
      now rewrite <- app_assoc.
Qed.

(** ** Line wrapping *)

Section Greedy.

Import CardGenerator Wrapping.

Variable font : Font.
Variable max_width : Z.
Variable sep : str.

Let ok := line_ok font max_width sep.
Let adj := forced_break font max_width sep.
Let step := wrap_unit font max_width sep.

Let reads := Wrapping.reads font max_width sep.

Lemma Sorted_snoc {A} (R : A -> A -> Prop) (l : list A) (x y : A) :
  Sorted R (l ++ [x]) -> R x y -> Sorted R ((l ++ [x]) ++ [y]).
Proof.
  induction l as [|a l IH]; simpl; intros H Hxy.
  - repeat constructor. assumption.
  - inversion H as [|? ? Hs Hh]; subst. constructor.
    + apply IH; assumption.
    + destruct l; simpl in *; inversion Hh; subst; constructor; assumption.
Qed.

Lemma Sorted_change_last {A} (R : A -> A -> Prop) (l : list A) (x y : A) :
  Sorted R (l ++ [x]) -> (forall a, R a x -> R a y) -> Sorted R (l ++ [y]).
Proof.
  induction l as [|a l IH]; simpl; intros H Hxy.
  - repeat constructor.
  - inversion H as [|? ? Hs Hh]; subst. constructor.
    + apply IH; assumption.
    + destruct l; simpl in *; inversion Hh; subst; constructor; auto.
Qed.

Lemma Sorted_adjacent {A} (R : A -> A -> Prop) (before after : list A)
    (a b : A) :
  Sorted R (before ++ a :: b :: after) -> R a b.
Proof.
  induction before as [|x before IH]; simpl; intros H.
  - inversion H as [|? ? _ Hh]; subst. now inversion Hh.
  - inversion H; subst. auto.
Qed.

Lemma test_line_join (g : list str) (unit : str) :
  Forall (fun x => x <> []) g ->
  (if nonempty (join sep g) then join sep g ++ sep ++ unit else unit)
  = join sep (g ++ [unit]).
Proof.
  intros Hg. destruct g as [|p g]; [reflexivity|].
  rewrite join_snoc by discriminate.
  assert (H : join sep (p :: g) <> []) by (apply join_nonempty; easy).
  apply nonempty_true in H. now rewrite H.
Qed.

(** One iteration keeps the reading and adds the unit to it. *)
Lemma step_reads gs g st unit :
  reads gs g st -> unit <> [] ->
  exists gs' g',
    reads gs' g' (step st unit)
    /\ g' <> []
    /\ concat gs' ++ g' = (concat gs ++ g) ++ [unit].
Proof.
  intros [Hl Hc Hu Hcl Hok Hcur Hbr Hst] Hunit.
  destruct st as [lines cur]; simpl in Hl, Hc. subst lines cur.
  unfold step, wrap_unit. rewrite test_line_join by assumption.
  match goal with
  | |- context [if ?c then (_, _) else _] => destruct c eqn:Hfit
  end.
  - apply Z.leb_le in Hfit.
    exists gs, (g ++ [unit]). split; [|split].
    + constructor; simpl;
        [ reflexivity | reflexivity | | assumption | assumption | | | ].
      * apply Forall_app; split; [assumption|].
        constructor; [exact Hunit | constructor].
      * right. left. assumption.
      * destruct g as [|p g].
        { rewrite (Hst eq_refl). repeat constructor. }
        { apply Sorted_change_last with (x := p :: g); [assumption|].
          intros a Ha. exact Ha. }
      * intros H. now destruct g.
    + now destruct g.
    + now rewrite app_assoc.
  - apply Z.leb_gt in Hfit.
    assert (Hnew : ok [unit]).
    { destruct (Z_le_gt_dec (bbox_width font unit) max_width) as [Hle|Hgt].
      - left. exact Hle.
      - right. exists unit. split; [reflexivity | lia]. }
    destruct g as [|p g].
    + rewrite (Hst eq_refl) in *. exists [], [unit]. simpl.
      split; [|split; [discriminate | reflexivity]].
      constructor; simpl;
        [ reflexivity | reflexivity | | constructor | constructor
        | right; exact Hnew | repeat constructor | discriminate ].
      constructor; [exact Hunit | constructor].
    + assert (Hne : nonempty (join sep (p :: g)) = true).
      { apply nonempty_true, join_nonempty; easy. }
      rewrite Hne.
      exists (gs ++ [p :: g]), [unit]. split; [|split].
      * constructor; simpl;
          [ now rewrite map_app | reflexivity
          | constructor; [exact Hunit | constructor]
          | | | right; exact Hnew | | discriminate ].
        { apply Forall_app; split; [assumption|].
          repeat constructor. discriminate. }
        { apply Forall_app; split; [assumption|].
          destruct Hcur as [Hcur|Hcur]; [discriminate|].
          constructor; [exact Hcur | constructor]. }
        { apply Sorted_snoc; [assumption | exact Hfit]. }
      * discriminate.
      * rewrite concat_app. simpl. rewrite app_nil_r.
        now rewrite <- !app_assoc.
Qed.

(** The whole loop, from any state that can be read. *)
Lemma loop_reads (us : list str) : forall gs g st,
  reads gs g st -> Forall (fun x => x <> []) us ->
  exists gs' g',
    reads gs' g' (fold_left step us st)
    /\ concat gs' ++ g' = (concat gs ++ g) ++ us.
Proof.
  induction us as [|unit us IH]; intros gs g st Hr Hus; simpl.
  - exists gs, g. now rewrite app_nil_r.
  - inversion Hus as [|? ? Hunit Hrest]; subst.
    destruct (step_reads Hr Hunit) as (gs1 & g1 & Hr1 & _ & Hc1).
    destruct (IH gs1 g1 _ Hr1 Hrest) as (gs2 & g2 & Hr2 & Hc2).
    exists gs2, g2. split; [assumption|].
    rewrite Hc2, Hc1. now rewrite <- !app_assoc.
Qed.

Lemma reads_initial : reads [] [] ([], []).
Proof.
  constructor; simpl; auto; repeat constructor.
Qed.

(** What [flush] returns after the loop. *)
Lemma flush_loop (us : list str) :
  Forall (fun x => x <> []) us ->
  exists groups : list (list str),
    flush (fold_left step us ([], [])) = map (join sep) groups
    /\ concat groups = us
    /\ Forall (fun g => g <> []) groups
    /\ Forall ok groups
    /\ Sorted adj groups.
Proof.
  intros Hus.
  destruct (loop_reads reads_initial Hus) as (gs & g & Hr & Hc).
  simpl in Hc. destruct Hr as [Hl Hcur Hu Hcl Hok Hgok Hbr Hst].
  destruct (fold_left step us ([], [])) as [lines cur].
  simpl in Hl, Hcur. subst lines cur. unfold flush.
  destruct g as [|p g].
  - rewrite (Hst eq_refl) in *. exists []. simpl in *.
    repeat split; auto; constructor.
  - assert (Hne : nonempty (join sep (p :: g)) = true).
    { apply nonempty_true, join_nonempty; easy. }
    rewrite Hne. exists (gs ++ [p :: g]). repeat split.
    + now rewrite map_app.
    + rewrite concat_app. simpl. now rewrite app_nil_r.
    + apply Forall_app; split; [assumption|].
      repeat constructor. discriminate.
    + apply Forall_app; split; [assumption|].
      destruct Hgok as [Hgok|Hgok]; [discriminate|].
      constructor; [exact Hgok | constructor].
    + assumption.
Qed.

End Greedy.

Section WrapText.

Import CardGenerator Wrapping.

Lemma wrap_char_unit font max_width st c :
  wrap_char font max_width st c = wrap_unit font max_width [] st [c].
Proof.
  destruct st as [lines cur]. unfold wrap_char, wrap_unit.
  destruct cur; reflexivity.
Qed.

Lemma fold_wrap_char font max_width text : forall st,
  fold_left (wrap_char font max_width) text st
  = fold_left (wrap_unit font max_width []) (map (fun c => [c]) text) st.
Proof.
  induction text as [|c text IH]; intros st; simpl; [reflexivity|].
  now rewrite IH, wrap_char_unit.
Qed.

Lemma fold_wrap_word font max_width words : forall st,
  fold_left (wrap_word font max_width) words st
  = fold_left (wrap_unit font max_width (u " ")) words st.
Proof.
  induction words as [|w words IH]; intros st; simpl; [reflexivity|].
  rewrite IH. f_equal.
Qed.

Lemma units_nonempty text : Forall (fun x => x <> []) (units text).
Proof.
  unfold units. destruct (existsb is_cjk text).
  - induction text; simpl; constructor; [discriminate | assumption].
  - apply split_nonempty.
Qed.

(** [_wrap_text] as a grouping of the units into lines. *)
Lemma wrap_text_lines text font max_width :
  exists groups : list (list str),
    _wrap_text text font max_width = map (join (separator text)) groups
    /\ concat groups = units text
    /\ Forall (fun g => g <> []) groups
    /\ Forall (line_ok font max_width (separator text)) groups
    /\ Sorted (forced_break font max_width (separator text)) groups.
Proof.
  pose proof (units_nonempty text) as Hu.
  unfold _wrap_text, units, separator in *.
  destruct (existsb is_cjk text).
  - rewrite fold_wrap_char. now apply flush_loop.
  - rewrite fold_wrap_word. now apply flush_loop.
Qed.

Lemma concat_singletons {A} (l : list A) :
  concat (map (fun c => [c]) l) = l.
Proof. induction l; simpl; congruence. Qed.

Lemma concat_map_concat {A} (l : list (list (list A))) :
  concat (map (@concat A) l) = concat (concat l).
Proof.
  induction l as [|x l IH]; simpl; [reflexivity|].
  now rewrite concat_app, IH.
Qed.

Lemma join_app (sep : str) (a b : list str) :
  a <> [] -> b <> [] ->
  join sep (a ++ b) = join sep a ++ sep ++ join sep b.
Proof.
  induction a as [|p a IH]; [congruence|]. intros _ Hb.
  destruct a as [|p' a].
  - simpl. destruct b; [congruence | reflexivity].
  - change ((p :: p' :: a) ++ b) with (p :: ((p' :: a) ++ b)).
    rewrite join_cons by discriminate.
    rewrite IH by (discriminate || assumption).
    rewrite (join_cons sep p (rest := p' :: a)) by discriminate.
    now rewrite <- !app_assoc.
Qed.

Lemma concat_groups_nonempty {A} (gs : list (list A)) :
  gs <> [] -> Forall (fun g => g <> []) gs -> concat gs <> [].
Proof.
  destruct gs as [|g gs]; [congruence|]. intros _ H.
  inversion H as [|? ? Hg _]; subst. simpl.
  destruct g; [congruence | discriminate].
Qed.

Lemma join_groups (sep : str) (gs : list (list str)) :
  Forall (fun g => g <> []) gs ->
  join sep (map (join sep) gs) = join sep (concat gs).
Proof.
  induction gs as [|g gs IH]; intros H; [reflexivity|].
  inversion H as [|? ? Hg Hgs]; subst.
  destruct gs as [|g' gs].
  - simpl. now rewrite app_nil_r.
  - change (map (join sep) (g :: g' :: gs))
      with (join sep g :: map (join sep) (g' :: gs)).
    rewrite join_cons by discriminate.
    rewrite IH by assumption.
    change (concat (g :: g' :: gs)) with (g ++ concat (g' :: gs)).
    rewrite join_app; [reflexivity | assumption |].
    apply concat_groups_nonempty; [discriminate | assumption].
Qed.

End WrapText.

(** C1. The wrapping is greedy.  For every text, font and maximal width,
    the lines returned by [_wrap_text] are the units of the text (its
    characters when it holds a Chinese character, its whitespace-delimited
    words otherwise) cut into consecutive non-empty groups, each joined by
    the separator; every line is at most [max_width] wide or is one single
    unit that is wider than [max_width] by itself; and wherever a line ends
    and the next one starts with [unit], appending [unit] to the line that
    ended would have been wider than [max_width]. *)
Theorem wrap_text_greedy (text : str) (font : Font) (max_width : Z) :
  exists groups : list (list str),
    CardGenerator._wrap_text text font max_width
      = map (join (Wrapping.separator text)) groups
    /\ concat groups = Wrapping.units text
    /\ Forall (fun g => g <> []) groups
    /\ Forall (fun g =>
         CardGenerator.bbox_width font (join (Wrapping.separator text) g)
           <= max_width
         \/ exists unit,
              g = [unit]
              /\ max_width < CardGenerator.bbox_width font unit) groups
    /\ forall before g unit rest after,
         groups = before ++ g :: (unit :: rest) :: after ->
         max_width
           < CardGenerator.bbox_width font
               (join (Wrapping.separator text) (g ++ [unit])).
Proof.
  destruct (wrap_text_lines text font max_width)
    as (groups & Hl & Hc & Hne & Hok & Hbr).
  exists groups. repeat split; try assumption.
  intros before g unit rest after ->.
  apply Sorted_adjacent in Hbr. exact Hbr.
Qed.

(** C2. Wrapping neither loses nor duplicates content.  For a text that
    holds a Chinese character (U+4E00 to U+9FFF) the lines of [_wrap_text]
    concatenated in order are the text; for any other text the lines
    joined by single spaces are the whitespace-split words of the text
    joined by single spaces. *)
Theorem wrap_text_preserves_content (text : str) (font : Font)
    (max_width : Z) :
  if existsb CardGenerator.is_cjk text
  then concat (CardGenerator._wrap_text text font max_width) = text
  else join (u " ") (CardGenerator._wrap_text text font max_width)
       = join (u " ") (split text).
Proof.
  destruct (wrap_text_lines text font max_width)
    as (groups & Hl & Hc & Hne & _ & _).
  rewrite Hl. unfold Wrapping.separator, Wrapping.units in *.
  destruct (existsb CardGenerator.is_cjk text).
  - replace (map (join []) groups) with (map (@concat char) groups)
      by (apply map_ext; intros g; now rewrite join_nil_sep).
    rewrite concat_map_concat.
    etransitivity; [|apply (concat_singletons text)].
    f_equal. exact Hc.
  - rewrite join_groups by assumption. now rewrite Hc.
Qed.

(** The lines of three texts in a font whose characters are all ten units
    wide: words are kept whole, a word that is too wide stands alone, and
    a text with a Chinese character is cut between any two characters. *)
Example wrap_words :
  CardGenerator._wrap_text (u "hello  world foo bar") Examples.mono 90
  = [u "hello"; u "world foo"; u "bar"].
Proof. vm_compute. reflexivity. Qed.

Example wrap_wide_word :
  CardGenerator._wrap_text (u "a incomprehensible b") Examples.mono 50
  = [u "a"; u "incomprehensible"; u "b"].
Proof. vm_compute. reflexivity. Qed.

Example wrap_chinese :
  CardGenerator._wrap_text (u "学而时习之，不亦说乎") Examples.mono 40
  = [u "学而时习"; u "之，不亦"; u "说乎"].
Proof. vm_compute. reflexivity. Qed.

(** ** Quotes *)

Section Quotes.

Import Extractor.

Lemma truthy_or_dict (v : value) :
  truthy (if truthy v then v else VDict []) = truthy v.
Proof. destruct (truthy v) eqn:E; [exact E | reflexivity]. Qed.

Lemma get_absent (d : dict) (k : str) (default : value) :
  Dict.lookup d k = None -> Dict.get d k default = default.
Proof. unfold Dict.get. now intros ->. Qed.

End Quotes.

(** C9. Quote serialization round-trips.  For every quote built by the
    constructor, [from_dict (to_dict q)] is a quote with the same text,
    context, category, score and timestamp; and [from_dict] gives a field
    whose key is missing from the dictionary its default: the empty string
    for text, context and category, 0.0 for the score and the empty
    dictionary for the timestamp. *)
Theorem quote_roundtrip :
  (forall text context category score timestamp : value,
     let q := Extractor.Quote_init text context category score timestamp in
     Extractor.from_dict (Extractor.to_dict q) = q)
  /\ (forall data : dict,
        (Dict.lookup data (u "text") = None ->
         Extractor.text (Extractor.from_dict data) = VStr [])
        /\ (Dict.lookup data (u "context") = None ->
            Extractor.context (Extractor.from_dict data) = VStr [])
        /\ (Dict.lookup data (u "category") = None ->
            Extractor.category (Extractor.from_dict data) = VStr [])
        /\ (Dict.lookup data (u "score") = None ->
            Extractor.score (Extractor.from_dict data) = VFloat 0)
        /\ (Dict.lookup data (u "timestamp") = None ->
            Extractor.timestamp (Extractor.from_dict data) = VDict [])).
Proof.
  split.
  - intros text context category score timestamp q.
    unfold Extractor.from_dict, Extractor.to_dict.
    change (Dict.get _ (u "text") _) with (Extractor.text q).
    change (Dict.get _ (u "context") _) with (Extractor.context q).
    change (Dict.get _ (u "category") _) with (Extractor.category q).
    change (Dict.get _ (u "score") _) with (Extractor.score q).
    change (Dict.get _ (u "timestamp") _) with (Extractor.timestamp q).
    subst q. unfold Extractor.Quote_init; simpl.
    rewrite truthy_or_dict.
    destruct (truthy timestamp); reflexivity.
  - intros data. unfold Extractor.from_dict, Extractor.Quote_init; simpl.
    repeat split; intros H; rewrite (get_absent _ _ _ H); reflexivity.
Qed.

(** The round trip and the defaults at a quote with a timestamp and at the
    empty dictionary. *)
Lemma quote_roundtrip_witness :
  Extractor.from_dict
    (Extractor.to_dict
       (Extractor.Quote_init (VStr (u "知行合一")) (VStr []) (VStr (u "观点"))
          (VFloat (17 # 2)) (VDict [(u "start", VFloat (3 # 2))])))
  = Extractor.Quote_init (VStr (u "知行合一")) (VStr []) (VStr (u "观点"))
      (VFloat (17 # 2)) (VDict [(u "start", VFloat (3 # 2))])
  /\ Extractor.from_dict []
     = Extractor.Quote_init (VStr []) (VStr []) (VStr []) (VFloat 0) VNone.
Proof.
  destruct quote_roundtrip as [Hround Hdefault]. split.
  - apply Hround.
  - destruct (Hdefault []) as (Ht & Hc & Hk & Hs & Hts).
    specialize (Ht eq_refl). specialize (Hc eq_refl).
    specialize (Hk eq_refl). specialize (Hs eq_refl).
    specialize (Hts eq_refl).
    destruct (Extractor.from_dict []) as [t c k s ts]; simpl in *.
    subst. reflexivity.
Defined.

(** ** Extraction *)

Section ExtractionFacts.

Import Extractor Extraction.

Lemma quotes_of_dicts (entries : list dict) :
  exists quotes,
    quotes_of_items (map VDict entries) = Ok quotes
    /\ Forall2 copied_from entries quotes.
Proof.
  induction entries as [|d entries (quotes & Hq & Hall)]; simpl.
  - exists []. split; [reflexivity | constructor].
  - rewrite Hq. eexists. split; [reflexivity|].
    constructor; [|assumption]. repeat split.
Qed.

End ExtractionFacts.

Section Substrings.

Lemma prefix_here (s t : str) : prefix s (s ++ t).
Proof. now exists t. Qed.

Lemma prefix_app (a s t : str) : prefix s t -> prefix (a ++ s) (a ++ t).
Proof. intros [post ->]. exists post. now rewrite app_assoc. Qed.

Lemma substring_prefix (s t : str) : prefix s t -> substring s t.
Proof. intros [post ->]. now exists [], post. Qed.

Lemma substring_skip (a s t : str) : substring s t -> substring s (a ++ t).
Proof.
  intros (pre & post & ->). exists (a ++ pre), post.
  now rewrite app_assoc.
Qed.

End Substrings.

(** The pieces of a concatenation are compared as written, never by
    evaluating them. *)
Ltac prove_prefix :=
  lazymatch goal with
  | |- prefix (?a ++ _) (?a' ++ _) =>
    constr_eq a a'; apply prefix_app; prove_prefix
  | |- prefix ?s (?s' ++ _) => constr_eq s s'; apply prefix_here
  end.

Ltac find_substring :=
  repeat
    first
      [ apply substring_prefix; solve [ prove_prefix ]
      | apply substring_skip ].

(** C6. Extraction formats a prompt that embeds the transcript and the
    fixed rubric, and parses the reply into scored quotes.  For every
    text the prompt of [_build_prompt] contains the text verbatim, the
    requested number of quotes, the length bounds, the list of categories
    and the instruction to score from 0 to 10; and when the model's reply
    to that prompt parses to an object whose ["quotes"] array holds
    objects, [extract] returns one quote per entry, in order, each copying
    the entry's text, context, category and score, an absent field being
    [""] or [0.0]. *)
Theorem extract_prompt_and_parse
    (json_loads : str -> result value) (self : Extractor.QuoteExtractor)
    (text : str) (num_quotes min_length max_length : Z)
    (categories : option (list str)) :
  let prompt :=
    Extractor._build_prompt text num_quotes min_length max_length
      (Extraction.effective_categories categories) in
  substring text prompt
  /\ substring (Extraction.rubric_count num_quotes) prompt
  /\ substring (Extraction.rubric_length min_length max_length) prompt
  /\ substring (Extraction.rubric_categories
                  (Extraction.effective_categories categories)) prompt
  /\ substring Extraction.rubric_score prompt
  /\ forall (w : world) (reply : str) (parsed : dict)
            (entries : list dict),
       Extractor.client self (Extractor.model self)
         (Extraction.messages prompt) (Extractor.temperature self)
         = Ok reply ->
       json_loads reply = Ok (VDict parsed) ->
       Dict.get parsed (u "quotes") (VList []) = VList (map VDict entries) ->
       exists quotes,
         fst (Extractor.extract json_loads self text num_quotes min_length
                max_length categories w) = Ok quotes
         /\ Forall2 Extraction.copied_from entries quotes
         /\ length quotes = length entries.
Proof.
  intros prompt. subst prompt.
  split; [|split; [|split; [|split; [|split]]]].
  - unfold Extractor._build_prompt. find_substring.
  - unfold Extractor._build_prompt, Extraction.rubric_count.
    find_substring.
  - unfold Extractor._build_prompt, Extraction.rubric_length.
    find_substring.
  - unfold Extractor._build_prompt, Extraction.rubric_categories.
    find_substring.
  - unfold Extractor._build_prompt, Extraction.rubric_score.
    find_substring.
  - intros w reply parsed entries Hreply Hparse Hentry.
    destruct (quotes_of_dicts entries) as (quotes & Hq & Hall).
    exists quotes. split; [|split].
    + unfold Extractor.extract.
      fold (Extraction.effective_categories categories).
      unfold Extraction.messages in Hreply.
      cbv [bind lift print ret fst]. rewrite Hreply, Hparse.
      cbv [Extractor.quotes_entry]. rewrite Hentry.
      cbv [Extractor.iterate]. rewrite Hq. reflexivity.
    + exact Hall.
    + symmetry. eapply Forall2_length. exact Hall.
Qed.

(** The theorem at a reply with two entries: two quotes come back, the
    second one with every field at its default. *)
Lemma extract_prompt_and_parse_witness :
  exists quotes,
    fst (Extractor.extract Examples.canned_loads Examples.canned_extractor
           (u "三人行，必有我师焉。") 3 10 200 None Examples.empty_world)
      = Ok quotes
    /\ Forall2 Extraction.copied_from [Examples.reply_entry; []] quotes
    /\ length quotes = 2%nat.
Proof.
  destruct (extract_prompt_and_parse Examples.canned_loads
              Examples.canned_extractor (u "三人行，必有我师焉。") 3 10 200 None)
    as (_ & _ & _ & _ & _ & Hrun).
  apply (Hrun Examples.empty_world (u "{}")
           [(u "quotes", VList [VDict Examples.reply_entry; VDict []])]
           [Examples.reply_entry; []]); reflexivity.
Defined.

(** ** Filtering and sorting quotes *)

Section FilterFacts.

Import Extractor Filtering.

Lemma numeric_key q : numeric q -> num_of (score q) = Some (key q).
Proof.
  unfold numeric, key. destruct (num_of (score q)); congruence.
Qed.

Lemma py_lt_key a b :
  numeric a -> numeric b ->
  py_lt (score a) (score b) = Ok (Qlt_bool (key a) (key b)).
Proof.
  intros Ha Hb. unfold py_lt.
  now rewrite (numeric_key Ha), (numeric_key Hb).
Qed.

Lemma py_ge_key q s :
  numeric q -> py_ge (score q) (VFloat s) = Ok (Qle_bool s (key q)).
Proof. intros Hq. unfold py_ge. now rewrite (numeric_key Hq). Qed.

Lemma Qlt_bool_true x y : Qlt_bool x y = true -> (x < y)%Q.
Proof.
  unfold Qlt_bool. intros H. apply negb_true_iff in H.
  apply Qnot_le_lt. intros Hle. apply Qle_bool_iff in Hle. congruence.
Qed.

Lemma Qlt_bool_false x y : Qlt_bool x y = false -> (y <= x)%Q.
Proof.
  unfold Qlt_bool. intros H. apply negb_false_iff in H.
  now apply Qle_bool_iff.
Qed.

Lemma filter_score_ok s l :
  Forall numeric l ->
  filter_score s l = Ok (filter (fun q => Qle_bool s (key q)) l).
Proof.
  induction 1 as [|q l Hq Hl IH]; simpl; [reflexivity|].
  rewrite (py_ge_key s Hq), IH.
  destruct (Qle_bool s (key q)); reflexivity.
Qed.

Lemma insert_desc_ok q l :
  numeric q -> Forall numeric l ->
  exists l',
    insert_desc q l = Ok l'
    /\ Permutation l' (q :: l)
    /\ (StronglySorted key_ge l -> StronglySorted key_ge l').
Proof.
  intros Hq Hl. induction Hl as [|q' l Hq' Hl IH]; simpl.
  - exists [q]. repeat split; auto. intros _. repeat constructor.
  - rewrite (py_lt_key Hq Hq').
    destruct (Qlt_bool (key q) (key q')) eqn:Hlt.
    + destruct IH as (l' & -> & Hperm & Hsorted).
      exists (q' :: l'). split; [reflexivity|]. split.
      * rewrite Hperm. apply perm_swap.
      * intros Hs. inversion Hs as [|? ? Hs' Hall]; subst.
        constructor; [auto|].
        apply (Permutation_Forall (Permutation_sym Hperm)).
        constructor; [|assumption].
        apply Qlt_bool_true in Hlt. unfold key_ge.
        now apply Qlt_le_weak.
    + exists (q :: q' :: l). split; [reflexivity|]. split; [reflexivity|].
      intros Hs. constructor; [assumption|].
      apply Qlt_bool_false in Hlt.
      inversion Hs as [|? ? _ Hall]; subst.
      constructor; [exact Hlt|].
      eapply Forall_impl; [|exact Hall].
      intros b Hb. unfold key_ge in *. eapply Qle_trans; eassumption.
Qed.

Lemma sort_desc_ok l :
  Forall numeric l ->
  exists l',
    sort_desc l = Ok l' /\ Permutation l' l /\ StronglySorted key_ge l'.
Proof.
  induction 1 as [|q l Hq Hl (l1 & Hs & Hperm & Hsorted)]; simpl.
  - exists []. repeat split; auto. constructor.
  - rewrite Hs.
    assert (Hl1 : Forall numeric l1)
      by (apply (Permutation_Forall (Permutation_sym Hperm)); exact Hl).
    destruct (insert_desc_ok Hq Hl1) as (l2 & Hi & Hperm2 & Hsorted2).
    exists l2. split; [exact Hi|]. split; [|auto].
    rewrite Hperm2. now constructor.
Qed.









Lemma StronglySorted_firstn {A} (R : A -> A -> Prop) (n : nat) :
  forall l, StronglySorted R l -> StronglySorted R (firstn n l).
Proof.
  induction n as [|n IH]; intros l Hs; simpl; [constructor|].
  destruct l as [|a l]; [constructor|].
  inversion Hs as [|? ? Hs' Hall]; subst. constructor; [auto|].
  rewrite Forall_forall in *. intros b Hb. apply Hall.
  rewrite <- (firstn_skipn n l). apply in_or_app. now left.
Qed.

Lemma Forall_firstn {A} (P : A -> Prop) (n : nat) (l : list A) :
  Forall P l -> Forall P (firstn n l).
Proof.
  intros H. rewrite Forall_forall in *. intros x Hx. apply H.
  rewrite <- (firstn_skipn n l). apply in_or_app. now left.
Qed.

Lemma Forall_slice {A} (P : A -> Prop) (n : Z) (l : list A) :
  Forall P l -> Forall P (slice_to l n).
Proof. unfold slice_to. destruct (0 <=? n); apply Forall_firstn. Qed.

Lemma Forall_filter {A} (P : A -> Prop) (f : A -> bool) (l : list A) :
  Forall P l -> Forall P (filter f l).
Proof.
  intros H. rewrite Forall_forall in *. intros x Hx.
  apply filter_In in Hx. now apply H.
Qed.





Lemma by_category_Forall (P : Quote -> Prop) category l :
  Forall P l -> Forall P (by_category category l).
Proof.
  unfold by_category. destruct category as [c|]; [|auto].
  destruct (nonempty c); [apply Forall_filter | auto].
Qed.

Lemma truncated_Forall (P : Quote -> Prop) max_count l :
  Forall P l -> Forall P (truncated max_count l).
Proof.
  unfold truncated. destruct max_count as [n|]; [|auto].
  destruct (n =? 0); [auto | apply Forall_slice].
Qed.

Lemma truncated_sorted (R : Quote -> Quote -> Prop) max_count l :
  StronglySorted R l -> StronglySorted R (truncated max_count l).
Proof.
  unfold truncated, slice_to. destruct max_count as [n|]; [|auto].
  destruct (n =? 0); [auto|].
  destruct (0 <=? n); apply StronglySorted_firstn.
Qed.

(** [filter_quotes] as a composition of its stages. *)
Lemma filter_quotes_stages quotes min_score category max_count :
  Forall numeric quotes ->
  let scored :=
    if Qlt_bool 0 min_score
    then filter (fun q => Qle_bool min_score (key q)) quotes
    else quotes in
  exists sorted,
    sort_desc (by_category category scored) = Ok sorted
    /\ Permutation sorted (by_category category scored)
    /\ StronglySorted key_ge sorted
    /\ filter_quotes quotes min_score category max_count
       = Ok (truncated max_count sorted,
             if Qlt_bool 0 min_score
                || match category with
                   | Some c => nonempty c
                   | None => false
                   end
             then quotes else sorted).
Proof.
  intros Hnum scored.
  assert (Hscored : Forall numeric scored).
  { subst scored. destruct (Qlt_bool 0 min_score);
      [now apply Forall_filter | assumption]. }
  destruct (sort_desc_ok (by_category_Forall category Hscored))
    as (sorted & Hsort & Hperm & Hsorted).
  exists sorted. repeat split; try assumption.
  unfold filter_quotes.
  replace (if Qlt_bool 0 min_score then filter_score min_score quotes
           else Ok quotes) with (Ok (A := list Quote) scored).
  - fold (by_category category scored). rewrite Hsort. reflexivity.
  - subst scored. destruct (Qlt_bool 0 min_score); [|reflexivity].
    now rewrite filter_score_ok.
Qed.

End FilterFacts.



(** Without a filter the caller's list itself is sorted in place: the
    quote that scores 9 moves to the front. *)
Example filter_quotes_sorts_in_place :
  Extractor.filter_quotes Examples.three_quotes 0 None None
  = Ok ([ Examples.quote "千里之行，始于足下" "启发" 9;
          Examples.quote "学而不思则罔" "观点" (15 # 2);
          Examples.quote "温故而知新" "观点" (-1) ],
        [ Examples.quote "千里之行，始于足下" "启发" 9;
          Examples.quote "学而不思则罔" "观点" (15 # 2);
          Examples.quote "温故而知新" "观点" (-1) ]).
Proof. vm_compute. reflexivity. Qed.

(** ** Configuration *)

Section ConfigFacts.

Import Config.

Lemma get_one_level (self : Config) (key : str) (default : value) :
  ~ In dot key -> get self key default = flat_get self key default.
Proof.
  intros Hno. unfold get, flat_get, split_on.
  rewrite split_on_from_no_sep by assumption. simpl.
  destruct (config self); reflexivity.
Qed.

Lemma get_two_levels (self : Config) (section key : str) (default : value) :
  ~ In dot section -> ~ In dot key ->
  get self (section ++ dot :: key) default
  = match config self with
    | VDict d =>
      match Dict.lookup d section with
      | Some (VDict inner) => Dict.get inner key default
      | _ => default
      end
    | _ => default
    end.
Proof.
  intros Hs Hk. unfold get, split_on.
  rewrite split_on_from_sep by assumption.
  rewrite split_on_from_no_sep by assumption. simpl.
  destruct (config self); reflexivity.
Qed.

End ConfigFacts.

(** C4, as the code has it.  The configuration is a two-level object:
    each key of the default configuration maps to a section, a dictionary
    whose keys map to scalars.  [Config.get] splits the key at the dots
    and looks up one level per component: a key without a dot is a
    single-level lookup that returns the stored value or the default, and
    [section.key] returns what the section stores under [key], or the
    default when the section or the key is absent or the section is not a
    dictionary.  A process that runs the command line interface constructs
    exactly one [Config], when [procast.config] is first imported; no
    later import constructs another. *)
Theorem config_get_nested :
  Forall (fun entry =>
            exists section,
              snd entry = VDict section
              /\ Forall (fun e => Config.is_scalar (snd e) = true) section)
         Config._default_config
  /\ (forall (self : Config.Config) (key : str) (default : value),
        ~ In Config.dot key ->
        Config.get self key default = Config.flat_get self key default)
  /\ (forall (self : Config.Config) (section key : str) (default : value),
        ~ In Config.dot section -> ~ In Config.dot key ->
        Config.get self (section ++ Config.dot :: key) default
        = match Config.config self with
          | VDict d =>
            match Dict.lookup d section with
            | Some (VDict inner) => Dict.get inner key default
            | _ => default
            end
          | _ => default
          end)
  /\ exists st,
       Process.import_module 4 Process.procast_cli Process.fresh = Some st
       /\ Process.configs_constructed st = 1%nat
       /\ forall m fuel st',
            Process.import_module fuel m st = Some st' -> st' = st.
Proof.
  split; [|split; [|split]].
  - unfold Config._default_config.
    repeat (constructor; [eexists; split; [reflexivity|];
                          repeat constructor|]).
    constructor.
  - exact get_one_level.
  - exact get_two_levels.
  - eexists. split; [vm_compute; reflexivity|]. split; [reflexivity|].
    intros m [|fuel] st'; simpl; [discriminate|].
    destruct m; vm_compute; congruence.
Qed.

(** The theorem at the default configuration: [output] alone gives the
    whole section, [llm.model] the model name, and a key of an absent
    section the default. *)
Lemma config_get_nested_witness :
  Config.get Examples.default_Config (u "whisper") VNone
  = Config.flat_get Examples.default_Config (u "whisper") VNone
  /\ Config.get Examples.default_Config (u "llm.model") VNone
     = VStr (u "gpt-4-turbo-preview")
  /\ Config.get Examples.default_Config (u "cache.dir") (VStr (u "tmp"))
     = VStr (u "tmp").
Proof.
  destruct config_get_nested as (_ & Hone & Htwo & _).
  split; [|split].
  - apply Hone. vm_compute. intuition discriminate.
  - change (u "llm.model") with (u "llm" ++ Config.dot :: u "model").
    rewrite Htwo; [reflexivity | |]; vm_compute; intuition discriminate.
  - change (u "cache.dir") with (u "cache" ++ Config.dot :: u "dir").
    rewrite Htwo; [reflexivity | |]; vm_compute; intuition discriminate.
Defined.

(** C4, as the specification words it, fails on the default
    configuration: the key [llm] maps to a dictionary, not to a scalar,
    and [get] finds [llm.model] where a single-level lookup of that key
    finds nothing. *)
Lemma config_not_flat :
  Config.is_scalar (Config.get Examples.default_Config (u "llm") VNone)
  = false
  /\ Config.get Examples.default_Config (u "llm.model") VNone
     = VStr (u "gpt-4-turbo-preview")
  /\ Config.flat_get Examples.default_Config (u "llm.model") VNone = VNone.
Proof. repeat split; vm_compute; reflexivity. Qed.

(** ** Paths *)

Section PathFacts.

Import Pathlib Paths.

Lemma split_on_from_pieces sep (s : str) : forall piece,
  ~ In sep piece ->
  Forall (fun c => ~ In sep c) (split_on_from sep piece s).
Proof.
  induction s as [|c s IH]; intros piece Hp; simpl.
  - now repeat constructor.
  - destruct (N.eqb_spec c sep) as [->|Hne].
    + constructor; [assumption|]. apply IH. intros [].
    + apply IH. intros H. apply in_app_or in H.
      destruct H as [H|[H|[]]]; [now apply Hp | now apply Hne].
Qed.

Lemma parse_root_cases (s : str) :
  parse_root s = [] \/ parse_root s = [slash]
  \/ parse_root s = [slash; slash].
Proof.
  unfold parse_root. destruct (count_leading slash s) as [|[|[|n]]]; auto.
Qed.

Lemma Path_of_normal (s : str) : normal (Path_of s).
Proof.
  split; [apply parse_root_cases|]. simpl.
  pose proof (split_on_from_pieces slash s [] (fun x => x)) as H.
  unfold split_on.
  induction H as [|c l Hc Hl IH]; simpl; [constructor|].
  destruct (is_component c) eqn:E; [|exact IH].
  constructor; [split; assumption | exact IH].
Qed.

Lemma split_on_join (p : str) (ps : list str) : forall piece,
  Forall (fun c => ~ In slash c) (p :: ps) ->
  split_on_from slash piece (join [slash] (p :: ps)) = (piece ++ p) :: ps.
Proof.
  revert p. induction ps as [|p' ps IH]; intros p piece H.
  - simpl. inversion H; subst. now apply split_on_from_no_sep.
  - inversion H as [|? ? Hp Hps]; subst.
    rewrite join_cons by discriminate.
    change ([slash] ++ join [slash] (p' :: ps))
      with (slash :: join [slash] (p' :: ps)).
    rewrite split_on_from_sep by assumption.
    now rewrite IH.
Qed.

Lemma filter_components (ps : list str) :
  Forall component ps -> filter is_component ps = ps.
Proof.
  induction 1 as [|c l [Hc _] Hl IH]; simpl; [reflexivity|].
  now rewrite Hc, IH.
Qed.

Lemma components_no_slash (ps : list str) :
  Forall component ps -> Forall (fun c => ~ In slash c) ps.
Proof. apply Forall_impl. now intros c [_ H]. Qed.

Lemma component_head (c : str) :
  component c -> exists x rest, c = x :: rest /\ x <> slash.
Proof.
  intros [Hc Hno]. destruct c as [|x rest]; [discriminate|].
  exists x, rest. split; [reflexivity|]. intros ->. apply Hno. now left.
Qed.

Lemma count_leading_component (c rest : str) :
  component c -> count_leading slash (c ++ rest) = O.
Proof.
  intros H. destruct (component_head H) as (x & r & -> & Hx). simpl.
  destruct (N.eqb_spec x slash); [contradiction | reflexivity].
Qed.

Lemma join_head (p : str) (ps : list str) :
  exists rest, join [slash] (p :: ps) = p ++ rest.
Proof.
  destruct ps as [|p' ps].
  - exists []. simpl. now rewrite app_nil_r.
  - rewrite join_cons by discriminate. eexists. reflexivity.
Qed.

Lemma parse_join (p : str) (ps : list str) :
  Forall component (p :: ps) ->
  count_leading slash (join [slash] (p :: ps)) = O
  /\ filter is_component (split_on_from slash [] (join [slash] (p :: ps)))
     = p :: ps.
Proof.
  intros Hparts. inversion Hparts as [|? ? Hp _]; subst. split.
  - destruct (join_head p ps) as [rest ->].
    now apply count_leading_component.
  - rewrite split_on_join by now apply components_no_slash.
    now apply filter_components.
Qed.

(** [Path(str(p))] is [p]. *)
Lemma Path_of_str_of (p : Path) : normal p -> Path_of (str_of p) = p.
Proof.
  destruct p as [r ps]. intros [Hroot Hparts]; cbn [root parts] in *.
  destruct ps as [|p ps].
  - destruct Hroot as [-> | [-> | ->]]; reflexivity.
  - destruct (parse_join Hparts) as [Hcount Hsplit].
    unfold Path_of, split_on, parse_root.
    destruct Hroot as [-> | [-> | ->]];
      unfold str_of; cbn [root parts app count_leading split_on_from];
      rewrite ?N.eqb_refl; cbn [filter is_component nonempty andb];
      rewrite Hcount, Hsplit; reflexivity.
Qed.

Lemma Path_of_component (c : str) :
  component c -> Path_of c = {| root := []; parts := [c] |}.
Proof.
  intros Hc. unfold Path_of, parse_root, split_on.
  rewrite <- (app_nil_r c) at 1. rewrite (count_leading_component [] Hc).
  rewrite split_on_from_no_sep by apply Hc. simpl.
  destruct Hc as [-> _]. reflexivity.
Qed.

Lemma joinpath_component (p : Path) (c : str) :
  component c ->
  joinpath p c = {| root := root p; parts := parts p ++ [c] |}.
Proof.
  intros Hc. unfold joinpath. now rewrite (Path_of_component Hc).
Qed.

Lemma joinpath_normal (p : Path) (c : str) :
  normal p -> component c -> normal (joinpath p c).
Proof.
  intros [Hr Hp] Hc. rewrite (joinpath_component p Hc). split; simpl.
  - assumption.
  - apply Forall_app. split; [assumption|].
    constructor; [assumption | constructor].
Qed.

Lemma name_joinpath (p : Path) (c : str) :
  component c -> name (joinpath p c) = c.
Proof.
  intros Hc. rewrite (joinpath_component p Hc). unfold name; simpl.
  apply last_last.
Qed.

Lemma parent_joinpath (p : Path) (c : str) :
  component c -> parent (joinpath p c) = p.
Proof.
  intros Hc. rewrite (joinpath_component p Hc). unfold parent; simpl.
  rewrite removelast_last. now destruct p.
Qed.

(** Names of cards. *)

Lemma digits_of_uint_digits (d : Decimal.uint) :
  Forall is_digit (digits_of_uint d).
Proof.
  induction d; simpl; constructor; try assumption; unfold is_digit; lia.
Qed.

Lemma digits_of_uint_inj (d d' : Decimal.uint) :
  digits_of_uint d = digits_of_uint d' -> d = d'.
Proof.
  revert d'. induction d; intros d'; destruct d'; simpl; intros H;
    try discriminate; try reflexivity;
    injection H as H; f_equal; now apply IHd.
Qed.

Lemma repeat_zero_digits (k : nat) (d : Decimal.uint) :
  repeat CardGenerator.zero k ++ digits_of_uint d
  = digits_of_uint (Nat.iter k Decimal.D0 d).
Proof. induction k as [|k IH]; simpl; [reflexivity | now rewrite IH]. Qed.

Lemma of_uint_iter_D0 (k : nat) (d : Decimal.uint) :
  N.of_uint (Nat.iter k Decimal.D0 d) = N.of_uint d.
Proof.
  rewrite <- DecimalN.Unsigned.of_uint_norm, DecimalFacts.unorm_iter_D0.
  apply DecimalN.Unsigned.of_uint_norm.
Qed.

Lemma format_03d_inj (i j : N) :
  CardGenerator.format_03d i = CardGenerator.format_03d j -> i = j.
Proof.
  unfold CardGenerator.format_03d, str_of_N.
  rewrite !repeat_zero_digits. intros H.
  apply digits_of_uint_inj in H.
  apply (f_equal N.of_uint) in H.
  now rewrite !of_uint_iter_D0, !DecimalN.Unsigned.of_to in H.
Qed.

Lemma format_03d_digits (i : N) :
  Forall is_digit (CardGenerator.format_03d i).
Proof.
  unfold CardGenerator.format_03d, str_of_N.
  rewrite repeat_zero_digits. apply digits_of_uint_digits.
Qed.

Lemma card_name_inj (i j : N) :
  CardGenerator.card_name i = CardGenerator.card_name j -> i = j.
Proof.
  unfold CardGenerator.card_name. intros H.
  apply app_inv_head in H. apply app_inv_tail in H.
  now apply format_03d_inj.
Qed.

Lemma card_name_component (i : N) : component (CardGenerator.card_name i).
Proof.
  split.
  - reflexivity.
  - unfold CardGenerator.card_name. intros H.
    apply in_app_or in H. destruct H as [H|H].
    + vm_compute in H. intuition discriminate.
    + apply in_app_or in H. destruct H as [H|H].
      * pose proof (format_03d_digits i) as Hd.
        rewrite Forall_forall in Hd. specialize (Hd _ H).
        unfold is_digit, slash in Hd. lia.
      * vm_compute in H. intuition discriminate.
Qed.

Lemma card_paths_length dir i n : length (card_paths dir i n) = n.
Proof. revert i. induction n; intros i; simpl; congruence. Qed.

Lemma card_paths_from dir n : forall i path,
  normal dir -> In path (card_paths dir i n) ->
  exists j, (i <= j)%N /\ path = str_of (joinpath dir (CardGenerator.card_name j)).
Proof.
  induction n as [|n IH]; intros i path Hdir; simpl; [intros []|].
  intros [<-|H].
  - exists i. split; [lia | reflexivity].
  - destruct (IH _ _ Hdir H) as (j & Hj & ->).
    exists j. split; [lia | reflexivity].
Qed.

Lemma card_path_inj dir i j :
  normal dir ->
  str_of (joinpath dir (CardGenerator.card_name i))
  = str_of (joinpath dir (CardGenerator.card_name j)) ->
  i = j.
Proof.
  intros Hdir H. apply (f_equal Path_of) in H.
  rewrite !Path_of_str_of in H
    by (apply joinpath_normal; [assumption | apply card_name_component]).
  apply (f_equal name) in H.
  rewrite !name_joinpath in H by apply card_name_component.
  now apply card_name_inj.
Qed.

Lemma card_paths_NoDup dir n : forall i,
  normal dir -> NoDup (card_paths dir i n).
Proof.
  induction n as [|n IH]; intros i Hdir; simpl; constructor.
  - intros H. destruct (card_paths_from _ _ _ Hdir H) as (j & Hj & Heq).
    apply card_path_inj in Heq; [lia | exact Hdir].
  - now apply IH.
Qed.

End PathFacts.

(** ** Effects *)

Section MonadFacts.

Lemma files_written_app (l l' : list fs_event) :
  files_written (l ++ l') = files_written l ++ files_written l'.
Proof.
  induction l as [|[d|f c] l IH]; simpl; [reflexivity | assumption|].
  now rewrite IH.
Qed.

End MonadFacts.

(** ** Rendering cards *)

Section RenderFacts.

Import CardGenerator Rendering.

Variable int16 : str -> result Z.
Variable py_str : value -> str.
Variable upper : str -> str.
Variable truetype : str -> Z -> Font.

Let template := Rendering.template int16 upper truetype.

Lemma generate_run self quote_text title subtitle output_path style w
    background ops :
  _hex_to_rgb int16 (background_color self) = Ok background ->
  template self style quote_text title subtitle = Ok ops ->
  generate int16 upper truetype self quote_text title subtitle output_path
           style w
  = (Ok (Pathlib.str_of (Pathlib.Path_of output_path)),
     after_generate w (Pathlib.Path_of output_path)
       {| img_size := (width self, height self);
          img_background := background;
          img_ops := ops |}).
Proof.
  intros Hbg Hops. unfold template, Rendering.template in Hops.
  unfold generate. rewrite Hbg, Hops. reflexivity.
Qed.

Lemma draw_lines_ok self x text_y factor lines colour :
  _hex_to_rgb int16 (text_color self) = Ok colour ->
  exists ops, draw_lines int16 self x text_y factor lines = Ok ops.
Proof.
  intros H. unfold draw_lines. destruct lines; [now eexists|].
  rewrite H. now eexists.
Qed.

Lemma template_ok self style quote_text title subtitle :
  colours_ok int16 self ->
  exists ops, template self style quote_text title subtitle = Ok ops.
Proof.
  intros Hc.
  destruct (Hc (background_color self)) as [bg Hbg]; [simpl; auto|].
  destruct (Hc (text_color self)) as [tx Htx]; [simpl; auto|].
  destruct (Hc (accent_color self)) as [ac Hac]; [simpl; auto|].
  unfold template, Rendering.template, _draw_minimal_card,
    _draw_elegant_card, _draw_modern_card.
  rewrite Hac, Htx. cbn [rbind].
  destruct (str_eqb style (u "minimal")).
  - match goal with
    | |- context [draw_lines int16 self ?x ?y ?f ?l] =>
      destruct (draw_lines_ok self x y f l Htx) as [ops ->]
    end.
    cbn [rbind]. now eexists.
  - destruct (str_eqb style (u "elegant")).
    + match goal with
      | |- context [draw_lines int16 self ?x ?y ?f ?l] =>
        destruct (draw_lines_ok self x y f l Htx) as [ops ->]
      end.
      cbn [rbind]. now eexists.
    + destruct (str_eqb style (u "modern")).
      * match goal with
        | |- context [draw_lines int16 self ?x ?y ?f ?l] =>
          destruct (draw_lines_ok self x y f l Htx) as [ops ->]
        end.
        cbn [rbind]. destruct (nonempty subtitle).
        { rewrite Hbg. cbn [rbind]. now eexists. }
        { cbn [rbind]. now eexists. }
      * match goal with
        | |- context [draw_lines int16 self ?x ?y ?f ?l] =>
          destruct (draw_lines_ok self x y f l Htx) as [ops ->]
        end.
        cbn [rbind]. now eexists.
Qed.

(** C10. An unrecognized style is the minimal style.  For every style
    other than ["elegant"] and ["modern"], [generate] is [generate] with
    the style ["minimal"]; so whenever the minimal template can be drawn
    it is what the card shows, and the card is written to the output
    path. *)
Theorem unknown_style_is_minimal (self : CardGenerator)
    (quote_text title subtitle output_path style : str) :
  style <> u "elegant" -> style <> u "modern" ->
  generate int16 upper truetype self quote_text title subtitle output_path
           style
  = generate int16 upper truetype self quote_text title subtitle
             output_path (u "minimal")
  /\ forall (w : world) (background : rgb) (ops : list draw_op),
       _hex_to_rgb int16 (background_color self) = Ok background ->
       _draw_minimal_card int16 truetype self quote_text title subtitle
         = Ok ops ->
       generate int16 upper truetype self quote_text title subtitle
                output_path style w
       = (Ok (Pathlib.str_of (Pathlib.Path_of output_path)),
          after_generate w (Pathlib.Path_of output_path)
            {| img_size := (width self, height self);
               img_background := background;
               img_ops := ops |}).
Proof.
  intros He Hm.
  assert (Ht : template self style quote_text title subtitle
               = _draw_minimal_card int16 truetype self quote_text title
                   subtitle).
  { unfold template, Rendering.template.
    rewrite (str_eqb_neq He), (str_eqb_neq Hm).
    now destruct (str_eqb style (u "minimal")). }
  split.
  - unfold template, Rendering.template in Ht. unfold generate.
    rewrite Ht. reflexivity.
  - intros w background ops Hbg Hops. apply generate_run; [exact Hbg|].
    now rewrite Ht.
Qed.

Lemma files_after_generate w target img :
  files_written (fs_log (after_generate w target img))
  = files_written (fs_log w) ++ [(Pathlib.str_of target, saved img)].
Proof.
  unfold after_generate; simpl. now rewrite !files_written_app, app_nil_r.
Qed.

(** The loop of [generate_batch] from index [i] on. *)
Lemma batch_loop_run self dir title style quotes : forall i w,
  colours_ok int16 self ->
  Paths.normal dir ->
  Forall (printable py_str) quotes ->
  exists images w',
    batch_loop int16 py_str upper truetype self dir title style i quotes w
    = (Ok (Paths.card_paths dir i (length quotes)), w')
    /\ length images = length quotes
    /\ files_written (fs_log w')
       = files_written (fs_log w)
           ++ combine (Paths.card_paths dir i (length quotes))
                      (map saved images).
Proof.
  induction quotes as [|quote quotes IH]; intros i w Hc Hdir Hq.
  - exists [], w. simpl. now rewrite app_nil_r.
  - inversion Hq as [|? ? [[t Ht] [sub Hsub]] Hrest]; subst.
    destruct (Hc (background_color self)) as [bg Hbg]; [simpl; auto|].
    destruct (@template_ok self style t title sub Hc) as [ops Hops].
    set (target := Pathlib.joinpath dir (card_name i)).
    assert (Htarget : Pathlib.Path_of (Pathlib.str_of target) = target).
    { apply Path_of_str_of, joinpath_normal;
        [assumption | apply card_name_component]. }
    pose proof (@generate_run self t title sub (Pathlib.str_of target)
                  style w bg ops Hbg Hops) as Hgen.
    rewrite Htarget in Hgen.
    set (img := {| img_size := (width self, height self);
                   img_background := bg;
                   img_ops := ops |}) in Hgen.
    destruct (IH (i + 1)%N (after_generate w target img) Hc Hdir Hrest)
      as (images & w' & Hloop & Hlen & Hfiles).
    exists (img :: images), w'. split; [|split].
    + cbn [batch_loop length Paths.card_paths]. fold target.
      unfold lift at 1 2. unfold bind at 1. rewrite Ht.
      unfold bind at 1. rewrite Hsub.
      unfold bind at 1. rewrite Hgen.
      unfold bind at 1. rewrite Hloop. reflexivity.
    + simpl. now rewrite Hlen.
    + rewrite Hfiles, files_after_generate.
      cbn [length Paths.card_paths map combine]. fold target.
      now rewrite <- app_assoc.
Qed.

Lemma card_paths_nth dir n : forall i k path,
  nth_error (Paths.card_paths dir i n) k = Some path ->
  path = Pathlib.str_of (Pathlib.joinpath dir (card_name (i + N.of_nat k))).
Proof.
  induction n as [|n IH]; intros i [|k] path; simpl; try discriminate.
  - intros [= <-]. now rewrite N.add_0_r.
  - intros H. apply IH in H. rewrite H. do 3 f_equal. lia.
Qed.

(** C3. Rendering produces one image per quote.  For a generator whose
    colours can be read and a list of quotes that can be printed (the text
    is a string, the category a string or falsy), [generate_batch] returns
    the paths [card_001.png], [card_002.png], ... under the output
    directory, in input order and as many as there are quotes; the files
    it writes are exactly these, one image each, in the same order; and
    the paths are pairwise distinct. *)
Theorem generate_batch_one_png_per_quote (self : CardGenerator)
    (quotes : list batch_item) (output_dir title style : str) (w : world) :
  colours_ok int16 self ->
  Forall (printable py_str) quotes ->
  let dir := Pathlib.Path_of output_dir in
  let paths := Paths.card_paths dir 1 (length quotes) in
  exists (images : list image) (w' : world),
    generate_batch int16 py_str upper truetype self quotes output_dir title
                   style w = (Ok paths, w')
    /\ length paths = length quotes
    /\ length images = length quotes
    /\ files_written (fs_log w')
       = files_written (fs_log w) ++ combine paths (map saved images)
    /\ NoDup paths
    /\ forall (k : nat) (path : str),
         nth_error paths k = Some path ->
         Pathlib.name (Pathlib.Path_of path) = card_name (N.of_nat (S k))
         /\ Pathlib.parent (Pathlib.Path_of path) = dir.
Proof.
  intros Hc Hq dir paths.
  assert (Hdir : Paths.normal dir) by apply Path_of_normal.
  destruct (@batch_loop_run self dir title style quotes 1%N
              {| existed := existed w;
                 fs_log := fs_log w ++ [Mkdir (Pathlib.str_of dir)];
                 console := console w |} Hc Hdir Hq)
    as (images & w1 & Hloop & Hlen & Hfiles).
  exists images. eexists. split; [|split; [|split; [|split; [|split]]]].
  - unfold generate_batch. fold dir.
    unfold bind at 1. unfold emit at 1.
    unfold bind at 1. rewrite Hloop. fold paths.
    unfold bind at 1. unfold print at 1. reflexivity.
  - apply card_paths_length.
  - exact Hlen.
  - cbn [fs_log]. rewrite Hfiles. cbn [fs_log].
    now rewrite files_written_app, app_nil_r.
  - now apply card_paths_NoDup.
  - intros k path Hk. apply card_paths_nth in Hk. subst path.
    assert (Hn : Paths.normal
                   (Pathlib.joinpath dir (card_name (1 + N.of_nat k))))
      by (apply joinpath_normal; [assumption | apply card_name_component]).
    rewrite (Path_of_str_of Hn).
    rewrite name_joinpath, parent_joinpath by apply card_name_component.
    split; [|reflexivity]. f_equal. lia.
Qed.

End RenderFacts.

(** The first card is [card_001.png], the thousandth [card_1000.png]. *)
Example card_names :
  CardGenerator.card_name 1 = u "card_001.png"
  /\ CardGenerator.card_name 12 = u "card_012.png"
  /\ CardGenerator.card_name 1000 = u "card_1000.png".
Proof. repeat split. Qed.

(** The theorem at a quote object, a dictionary and a plain string. *)
Lemma generate_batch_one_png_per_quote_witness :
  exists (images : list image) (w' : world),
    CardGenerator.generate_batch Examples.hex_pair (fun _ => u "plain")
      (fun s => s) (fun _ _ => Examples.mono) Examples.generator
      [ CardGenerator.AQuote (Examples.quote "学而不思则罔" "观点" 8);
        CardGenerator.AValue (VDict Examples.reply_entry);
        CardGenerator.AValue (VStr (u "plain")) ]
      (u "output/cards") (u "播客金句") (u "modern") Examples.empty_world
    = (Ok [ u "output/cards/card_001.png"; u "output/cards/card_002.png";
            u "output/cards/card_003.png" ], w')
    /\ length images = 3%nat
    /\ files_written (fs_log w')
       = combine [ u "output/cards/card_001.png";
                   u "output/cards/card_002.png";
                   u "output/cards/card_003.png" ]
                 (map Rendering.saved images).
Proof.
  assert (Hc : Rendering.colours_ok Examples.hex_pair Examples.generator).
  { intros c [<-|[<-|[<-|[]]]]; eexists; vm_compute; reflexivity. }
  assert (Hq : Forall (Rendering.printable (fun _ => u "plain"))
                 [ CardGenerator.AQuote
                     (Examples.quote "学而不思则罔" "观点" 8);
                   CardGenerator.AValue (VDict Examples.reply_entry);
                   CardGenerator.AValue (VStr (u "plain")) ]).
  { repeat constructor; eexists; vm_compute; reflexivity. }
  destruct (@generate_batch_one_png_per_quote Examples.hex_pair
              (fun _ => u "plain") (fun s => s) (fun _ _ => Examples.mono)
              Examples.generator _ (u "output/cards") (u "播客金句")
              (u "modern") Examples.empty_world Hc Hq)
    as (images & w' & Hrun & _ & Hlen & Hfiles & _).
  exists images, w'. split; [exact Hrun|]. split; [exact Hlen|].
  exact Hfiles.
Defined.

(** The theorem at the style ["fancy"]. *)
Lemma unknown_style_is_minimal_witness :
  CardGenerator.generate Examples.hex_pair (fun s => s)
    (fun _ _ => Examples.mono) Examples.generator (u "学而不思则罔")
    (u "播客金句") (u "观点") (u "out/card.png") (u "fancy")
  = CardGenerator.generate Examples.hex_pair (fun s => s)
      (fun _ _ => Examples.mono) Examples.generator (u "学而不思则罔")
      (u "播客金句") (u "观点") (u "out/card.png") (u "minimal")
  /\ files_written
       (fs_log
          (snd (CardGenerator.generate Examples.hex_pair (fun s => s)
                  (fun _ _ => Examples.mono) Examples.generator
                  (u "学而不思则罔") (u "播客金句") (u "观点")
                  (u "out/card.png") (u "fancy") Examples.empty_world)))
     = files_written
         (fs_log
            (snd (CardGenerator.generate Examples.hex_pair (fun s => s)
                    (fun _ _ => Examples.mono) Examples.generator
                    (u "学而不思则罔") (u "播客金句") (u "观点")
                    (u "out/card.png") (u "minimal")
                    Examples.empty_world))).
Proof.
  assert (He : u "fancy" <> u "elegant") by (vm_compute; discriminate).
  assert (Hm : u "fancy" <> u "modern") by (vm_compute; discriminate).
  destruct (@unknown_style_is_minimal Examples.hex_pair (fun s => s)
              (fun _ _ => Examples.mono) Examples.generator
              (u "学而不思则罔") (u "播客金句") (u "观点") (u "out/card.png")
              (u "fancy") He Hm) as [Heq _].
  split; [exact Heq | now rewrite Heq].
Defined.

(** ** Suffixes *)

Section SuffixFacts.

Import Pathlib Transcription.

Lemma rfind_app (c : char) (a b : str) :
  rfind c (a ++ b)
  = match rfind c b with
    | Some i => Some (length a + i)%nat
    | None => rfind c a
    end.
Proof.
  induction a as [|x a IH]; simpl.
  - now destruct (rfind c b).
  - rewrite IH. now destruct (rfind c b).
Qed.

Lemma suffix_start_app (st suf : str) :
  st <> [] -> plain_suffix suf ->
  suffix_start (st ++ suf) = Some (length st).
Proof.
  intros Hst [Hdot Hlen]. unfold suffix_start.
  rewrite rfind_app, Hdot, Nat.add_0_r, length_app.
  destruct st as [|x st]; [congruence|]. simpl length.
  replace (0 <? S (length st))%nat with true
    by (symmetry; apply Nat.ltb_lt; lia).
  replace (S (length st) <? S (length st) + length suf - 1)%nat with true
    by (symmetry; apply Nat.ltb_lt; lia).
  reflexivity.
Qed.

Lemma suffix_of_app (st suf : str) :
  st <> [] -> plain_suffix suf -> suffix_of (st ++ suf) = suf.
Proof.
  intros Hst Hsuf. unfold suffix_of.
  rewrite suffix_start_app by assumption.
  rewrite skipn_app, skipn_all, Nat.sub_diag. reflexivity.
Qed.

Lemma stem_of_app (st suf : str) :
  st <> [] -> plain_suffix suf -> stem_of (st ++ suf) = st.
Proof.
  intros Hst Hsuf. unfold stem_of.
  rewrite suffix_start_app by assumption.
  rewrite firstn_app, firstn_all, Nat.sub_diag. simpl.
  now rewrite app_nil_r.
Qed.

Lemma stem_of_nonempty (name : str) : name <> [] -> stem_of name <> [].
Proof.
  intros Hn. unfold stem_of, suffix_start.
  destruct (rfind dot name) as [i|]; [|assumption].
  destruct (0 <? i)%nat eqn:Hi; [|assumption].
  destruct (i <? length name - 1)%nat; [|assumption].
  apply Nat.ltb_lt in Hi. destruct i; [lia|].
  destruct name; [congruence | discriminate].
Qed.

(** [with_suffix] on a path with a name: a sibling with that suffix. *)
Lemma with_suffix_sibling (p : Path) (suf : str) :
  name p <> [] -> plain_suffix suf ->
  exists q,
    with_suffix p suf = Ok q
    /\ q = {| root := root p;
              parts := removelast (parts p) ++ [stem p ++ suf] |}
    /\ sibling p q suf.
Proof.
  intros Hn Hsuf. eexists. split; [|split; [reflexivity|]].
  - unfold with_suffix. apply nonempty_true in Hn. now rewrite Hn.
  - assert (Hst : stem p <> []) by now apply stem_of_nonempty.
    unfold sibling, parent, stem, suffix, name; simpl.
    rewrite removelast_last, last_last.
    rewrite stem_of_app, suffix_of_app by assumption.
    repeat split.
Qed.

Lemma plain_txt : plain_suffix (u ".txt").
Proof. split; [reflexivity | vm_compute; lia]. Qed.

Lemma plain_json : plain_suffix (u ".json").
Proof. split; [reflexivity | vm_compute; lia]. Qed.

End SuffixFacts.

(** ** Transcription *)

Section TranscribeFacts.

Import Transcriber Transcription.

Variable load_model : str -> result WhisperModel.
Variable json_dumps : value -> str.

(** Runs [transcribe] up to the result of the speech model. *)
Ltac run_transcribe Hmodel Hres :=
  cbv [bind ret print lift emit]; rewrite Hmodel;
  cbv beta iota; cbn [model language]; rewrite Hres; cbv beta iota.

(** C7. Transcription writes a text and a JSON file.  For an audio file
    that exists and a speech model that returns a result: when an output
    path is supplied (a non-empty path that names a file), [transcribe]
    writes two files next to it, with its stem: the recognized text with
    the suffix [.txt], then the whole result as JSON with the suffix
    [.json]; when the output path is [None] it writes no file; in both
    cases it returns the result of the speech model as it is. *)
Theorem transcribe_writes_text_and_json (self : AudioTranscriber)
    (audio_path : str) (verbose : bool) (w : world) (m : WhisperModel)
    (res : dict) :
  path_exists w (Pathlib.str_of (Pathlib.Path_of audio_path)) = true ->
  model_in_use load_model self = Ok m ->
  m (Pathlib.str_of (Pathlib.Path_of audio_path)) (language self) = Ok res ->
  (forall (output_path t : str),
     output_path <> [] ->
     Pathlib.name (Pathlib.Path_of output_path) <> [] ->
     Dict.lookup res (u "text") = Some (VStr t) ->
     exists text_path json_path self' w',
       transcribe load_model json_dumps self audio_path (Some output_path)
                  verbose w = (Ok (res, self'), w')
       /\ files_written (fs_log w')
          = files_written (fs_log w)
              ++ [ (Pathlib.str_of text_path, TextFile t);
                   (Pathlib.str_of json_path,
                    TextFile (json_dumps (VDict res))) ]
       /\ sibling (Pathlib.Path_of output_path) text_path (u ".txt")
       /\ sibling (Pathlib.Path_of output_path) json_path (u ".json"))
  /\ (exists self' w',
        transcribe load_model json_dumps self audio_path None verbose w
        = (Ok (res, self'), w')
        /\ fs_log w' = fs_log w).
Proof.
  intros Hexists Hmodel Hres. split.
  - intros output_path t Hout Hname Htext.
    destruct (@with_suffix_sibling (Pathlib.Path_of output_path) (u ".txt")
                Hname plain_txt) as (text_path & Htxt & _ & Hsib_txt).
    destruct (@with_suffix_sibling (Pathlib.Path_of output_path)
                (u ".json") Hname plain_json)
      as (json_path & Hjson & _ & Hsib_json).
    exists text_path, json_path.
    destruct output_path as [|c output_path]; [congruence|].
    unfold transcribe, model_in_use, _load_model, write_text in *.
    unfold bind at 1. unfold exists_ at 1. rewrite Hexists. cbn [negb].
    destruct (model self) as [m'|] eqn:Hm.
    + injection Hmodel as ->.
      destruct verbose; run_transcribe Hm Hres;
        rewrite Htxt; cbv beta iota; rewrite Htext; cbv beta iota;
        rewrite Hjson; cbv beta iota;
        eexists _, _; (split; [reflexivity|]); cbn [fs_log];
        rewrite !files_written_app, <- !app_assoc; auto.
    + destruct verbose; run_transcribe Hmodel Hres;
        rewrite Htxt; cbv beta iota; rewrite Htext; cbv beta iota;
        rewrite Hjson; cbv beta iota;
        eexists _, _; (split; [reflexivity|]); cbn [fs_log];
        rewrite !files_written_app, <- !app_assoc; auto.
  - unfold transcribe, model_in_use, _load_model in *.
    unfold bind at 1. unfold exists_ at 1. rewrite Hexists. cbn [negb].
    destruct (model self) as [m'|] eqn:Hm.
    + injection Hmodel as ->.
      destruct verbose; run_transcribe Hm Hres;
        eexists _, _; split; reflexivity.
    + destruct verbose; run_transcribe Hmodel Hres;
        eexists _, _; split; reflexivity.
Qed.

End TranscribeFacts.

(** The theorem at an audio file [lesson.wav] and the output path
    [notes/lesson.out]. *)
Lemma transcribe_writes_text_and_json_witness :
  (exists text_path json_path self' w',
     Transcriber.transcribe Examples.canned_whisper (fun _ => u "{}")
       (Transcriber.AudioTranscriber_init (u "base") (u "zh"))
       (u "lesson.wav") (Some (u "notes/lesson.out")) true
       Examples.full_world = (Ok (Examples.heard, self'), w')
     /\ files_written (fs_log w')
        = [] ++ [ (Pathlib.str_of text_path, TextFile (u "学而时习之"));
                  (Pathlib.str_of json_path, TextFile (u "{}")) ]
     /\ Transcription.sibling (Pathlib.Path_of (u "notes/lesson.out"))
          text_path (u ".txt")
     /\ Transcription.sibling (Pathlib.Path_of (u "notes/lesson.out"))
          json_path (u ".json"))
  /\ (exists self' w',
        Transcriber.transcribe Examples.canned_whisper (fun _ => u "{}")
          (Transcriber.AudioTranscriber_init (u "base") (u "zh"))
          (u "lesson.wav") None true Examples.full_world
        = (Ok (Examples.heard, self'), w')
        /\ fs_log w' = []).
Proof.
  destruct (@transcribe_writes_text_and_json Examples.canned_whisper
              (fun _ => u "{}")
              (Transcriber.AudioTranscriber_init (u "base") (u "zh"))
              (u "lesson.wav") true Examples.full_world
              (fun _ _ => Ok Examples.heard) Examples.heard
              eq_refl eq_refl eq_refl) as [Hout Hnone].
  split; [|exact Hnone].
  apply (Hout (u "notes/lesson.out") (u "学而时习之")).
  - vm_compute. discriminate.
  - vm_compute. discriminate.
  - reflexivity.
Defined.

(** The paths [transcribe] writes for [notes/lesson.out]. *)
Example transcribe_paths :
  files_written
    (fs_log
       (snd (Transcriber.transcribe Examples.canned_whisper (fun _ => u "{}")
               (Transcriber.AudioTranscriber_init (u "base") (u "zh"))
               (u "lesson.wav") (Some (u "notes/lesson.out")) false
               Examples.full_world)))
  = [ (u "notes/lesson.txt", TextFile (u "学而时习之"));
      (u "notes/lesson.json", TextFile (u "{}")) ].
Proof. vm_compute. reflexivity. Qed.

(** ** Command line interface *)

Section CliFacts.

Import Cli Recovery.

Variable config : Config.Config.
Variable transcribe_stage : str -> str -> str -> option str -> M dict.
Variable extract_stage :
  list value -> str -> option str -> Z -> M (list Extractor.Quote).
Variable generate_stage :
  list value -> list Extractor.Quote -> str -> str -> str -> M (list str).
Variable load_json : str -> M value.
Variable render_table : list Extractor.Quote -> result str.
Variable str_of_float : Q -> str.


Lemma fail_run (label : str) (e : exn) (w : world) :
  fail label e w = (Raise (Exit 1), after_failure w label e).
Proof. reflexivity. Qed.



End CliFacts.



(** The whole command, from its first statement: the failure message is
    the last thing printed and the exit code is 1. *)
Example transcribe_command_fails :
  let r := Cli.run_blocks
             (Cli.transcribe Examples.default_Config
                Examples.failing_transcribe (u "lesson.wav") (u "base")
                (u "zh"))
             (Cli.start None) Examples.empty_world in
  Cli.exit_code (fst r) = 1
  /\ last (console (snd r)) []
     = Cli.failure_message (u "转录失败") (RuntimeError (u "out of memory"))
  /\ fs_log (snd r) = [Mkdir (u "output/transcripts")].
Proof. vm_compute. repeat split. Qed.


(** A remark on [pipeline]: its [raise typer.Exit(0)] for an empty list of
    quotes sits inside the second [try], and [typer.Exit] is an
    [Exception]; the handler catches it, so the command reports a failed
    extraction and exits with code 1. *)
Example pipeline_without_quotes :
  let r := Cli.run_blocks
             (Cli.pipeline Examples.default_Config Examples.quiet_transcribe
                Examples.no_quotes Examples.no_cards (fun _ => u "7.0")
                (u "lesson.wav") 10 7 (u "minimal") (u "base"))
             (Cli.start None) Examples.empty_world in
  Cli.exit_code (fst r) = 1
  /\ last (console (snd r)) []
     = Cli.failure_message (u "提取失败") (Exit 0).
Proof. vm_compute. repeat split. Qed.

(* ================================================================== *)
(** * Further properties *)
(* ================================================================== *)

(** ** Setting configuration values *)

Section ConfigStoreFacts.

Import Config ConfigStore Further.

Lemma lookup_setitem_same (d : dict) (k : str) (v : value) :
  Dict.lookup (setitem d k v) k = Some v.
Proof.
  induction d as [|[k' v'] d IH]; simpl.
  - now rewrite str_eqb_refl.
  - destruct (str_eqb k' k) eqn:E; simpl; now rewrite E.
Qed.

Lemma lookup_setitem_other (d : dict) (k k' : str) (v : value) :
  k' <> k -> Dict.lookup (setitem d k v) k' = Dict.lookup d k'.
Proof.
  intros Hne. induction d as [|[k0 v0] d IH]; simpl.
  - rewrite str_eqb_neq; [reflexivity | congruence].
  - destruct (str_eqb k0 k) eqn:E; simpl.
    + apply str_eqb_eq in E. subst k0.
      rewrite str_eqb_neq by congruence. reflexivity.
    + now rewrite IH.
Qed.

Lemma split_on_from_last sep (s : str) : forall piece,
  exists init last, split_on_from sep piece s = init ++ [last].
Proof.
  induction s as [|c s IH]; intros piece; simpl.
  - now exists [], piece.
  - destruct (c =? sep)%N.
    + destruct (IH []) as (init & last & ->).
      now exists (piece :: init), last.
    + apply IH.
Qed.

Lemma keys_init_last (key : str) :
  split_on dot key
  = removelast (split_on dot key) ++ [last (split_on dot key) []].
Proof.
  destruct (split_on_from_last dot key []) as (init & l & H).
  unfold split_on. rewrite H. now rewrite removelast_last, last_last.
Qed.

(** What [assign] stores is what [descend] finds. *)
Lemma assign_descend (init : list str) (last : str) (v default : value) :
  forall node node',
    assign init last v node = Ok node' ->
    descend (init ++ [last]) node' default = v.
Proof.
  induction init as [|k init IH]; intros node node' H;
    destruct node as [| | | | | |d]; try discriminate; simpl in H.
  - injection H as <-. simpl. now rewrite lookup_setitem_same.
  - destruct (assign init last v _) as [child'|] eqn:Hc; [|discriminate].
    injection H as <-. simpl. rewrite lookup_setitem_same.
    eapply IH. exact Hc.
Qed.


(** [assign] fails in one way only. *)
Lemma assign_TypeError (init : list str) (last : str) (v : value) :
  forall node e, assign init last v node = Raise e -> e = TypeError.
Proof.
  induction init as [|k init IH]; intros node e H;
    destruct node as [| | | | | |d]; simpl in H; try congruence.
  destruct (assign init last v _) as [child'|e'] eqn:Hc; [discriminate|].
  injection H as <-. eapply IH. exact Hc.
Qed.

(** Below an empty dictionary [assign] builds the path. *)
Lemma assign_fresh (init : list str) (last : str) (v : value) :
  exists node', assign init last v (VDict []) = Ok node'.
Proof.
  induction init as [|k init [node' IH]]; simpl.
  - now eexists.
  - rewrite IH. now eexists.
Qed.

End ConfigStoreFacts.

(** X1. A value that [Config.set] has stored under a key is what
    [Config.get] returns for that key, whatever the default and however
    many dots the key has; the path of the configuration file is kept. *)
Theorem config_set_get (self self' : Config.Config) (key : str)
    (v default : value) :
  ConfigStore.set self key v = Ok self' ->
  Config.get self' key default = v
  /\ Config.config_path self' = Config.config_path self.
Proof.
  unfold ConfigStore.set, Config.get. intros H.
  destruct (ConfigStore.assign _ _ v (Config.config self)) as [cfg|] eqn:Ha;
    [|discriminate].
  injection H as <-. simpl. split; [|reflexivity].
  rewrite (keys_init_last key). eapply assign_descend. exact Ha.
Qed.

Lemma config_set_get_witness :
  exists self',
    ConfigStore.set Examples.default_Config (u "llm.proxy.host")
      (VStr (u "localhost")) = Ok self'
    /\ Config.get self' (u "llm.proxy.host") VNone = VStr (u "localhost").
Proof.
  eexists. split; [vm_compute; reflexivity|].
  eapply (fun H => proj1 (@config_set_get Examples.default_Config _
                            (u "llm.proxy.host") (VStr (u "localhost"))
                            VNone H)).
  vm_compute. reflexivity.
Defined.



(** X3. When [Config.set] fails it fails with a [TypeError], which is the
    case whenever the configuration is not a dictionary; and it succeeds,
    creating the sections on the way, whenever the configuration is a
    dictionary that lacks the first component of the key. *)
Theorem config_set_outcomes (self : Config.Config) (key : str) (v : value) :
  (forall e, ConfigStore.set self key v = Raise e -> e = TypeError)
  /\ ((forall d, Config.config self <> VDict d) ->
      ConfigStore.set self key v = Raise TypeError)
  /\ (forall d first rest,
        Config.config self = VDict d ->
        split_on Config.dot key = first :: rest ->
        Dict.lookup d first = None ->
        exists self', ConfigStore.set self key v = Ok self').
Proof.
  unfold ConfigStore.set. split; [|split].
  - intros e H.
    destruct (ConfigStore.assign _ _ v (Config.config self)) as [cfg|e']
      eqn:Ha; [discriminate|].
    injection H as <-. eapply assign_TypeError. exact Ha.
  - intros Hnd.
    destruct (Config.config self) as [| | | | | |d];
      try (now destruct (removelast _)).
    now destruct (Hnd d).
  - intros d first rest Hcfg Hkeys Hfresh. rewrite Hcfg, Hkeys.
    destruct rest as [|k rest].
    + simpl. now eexists.
    + change (removelast (first :: k :: rest))
        with (first :: removelast (k :: rest)).
      cbn [ConfigStore.assign]. rewrite Hfresh.
      destruct (assign_fresh (removelast (k :: rest))
                  (last (first :: k :: rest) []) v) as [node' ->].
      simpl. now eexists.
Qed.

Lemma config_set_outcomes_witness :
  ConfigStore.set
    {| Config.config_path := u "config.json";
       Config.config := VList [] |} (u "llm.model") (VStr (u "x"))
  = Raise TypeError
  /\ exists self',
       ConfigStore.set Examples.default_Config (u "cache.dir")
         (VStr (u "tmp")) = Ok self'.
Proof.
  split.
  - apply (proj1 (proj2 (config_set_outcomes
                           {| Config.config_path := u "config.json";
                              Config.config := VList [] |}
                           (u "llm.model") (VStr (u "x"))))).
    intros d. discriminate.
  - apply (proj2 (proj2 (config_set_outcomes Examples.default_Config
                           (u "cache.dir") (VStr (u "tmp"))))
             Config._default_config (u "cache") [u "dir"]);
      vm_compute; reflexivity.
Defined.

(** ** Constructing the configuration *)

Section ConfigInitFacts.

Import Config Further.

Variable getenv : str -> option str.
Variable json_load : str -> result value.

Lemma override_unset (cfg : value) (var k : str) :
  ~ is_set getenv var -> override getenv cfg var k = Ok cfg.
Proof.
  unfold override, is_set. intros H.
  destruct (getenv var) as [[|c s]|]; try reflexivity.
  exfalso. apply H. now exists c, s.
Qed.

Lemma override_set (d inner : dict) (var k : str) (c : char) (s : str) :
  getenv var = Some (c :: s) ->
  Dict.lookup d (u "llm") = Some (VDict inner) ->
  override getenv (VDict d) var k
  = Ok (VDict (setitem d (u "llm")
                 (VDict (setitem inner k (VStr (c :: s)))))).
Proof. unfold override, setitem_in. now intros -> ->. Qed.

Lemma override_no_llm (d : dict) (var k : str) :
  is_set getenv var ->
  Dict.lookup d (u "llm") = None ->
  override getenv (VDict d) var k = Raise (KeyError (u "llm")).
Proof.
  unfold override, setitem_in. intros (c & s & ->) ->. reflexivity.
Qed.

(** One override keeps the section [llm] a dictionary and changes at most
    its own key. *)
Lemma override_llm (d inner : dict) (var k : str) :
  Dict.lookup d (u "llm") = Some (VDict inner) ->
  exists d' inner',
    override getenv (VDict d) var k = Ok (VDict d')
    /\ Dict.lookup d' (u "llm") = Some (VDict inner')
    /\ (forall k', k' <> k -> Dict.lookup inner' k' = Dict.lookup inner k')
    /\ (forall c s, getenv var = Some (c :: s) ->
                    Dict.lookup inner' k = Some (VStr (c :: s))).
Proof.
  intros Hllm. destruct (getenv var) as [[|c s]|] eqn:Hvar.
  - exists d, inner. unfold override. rewrite Hvar.
    repeat split; auto; discriminate.
  - exists (setitem d (u "llm") (VDict (setitem inner k (VStr (c :: s))))),
      (setitem inner k (VStr (c :: s))).
    rewrite (@override_set d inner var k c s Hvar Hllm). repeat split.
    + apply lookup_setitem_same.
    + intros k' Hne. now apply lookup_setitem_other.
    + intros c' s' [= <- <-]. apply lookup_setitem_same.
  - exists d, inner. unfold override. rewrite Hvar.
    repeat split; auto; discriminate.
Qed.

Lemma override_set_shape (cfg cfg' : value) (var k : str) :
  is_set getenv var -> override getenv cfg var k = Ok cfg' -> has_llm cfg.
Proof.
  unfold override, setitem_in, has_llm. intros (c & s & ->).
  destruct cfg as [| | | | | |d]; try discriminate.
  destruct (Dict.lookup d (u "llm")) as [[| | | | | |inner]|] eqn:Hllm;
    try discriminate.
  intros _. now exists d, inner.
Qed.

Lemma override_ok_shape (cfg cfg' : value) (var k : str) :
  override getenv cfg var k = Ok cfg' -> has_llm cfg' -> has_llm cfg.
Proof.
  intros H Hllm. destruct (getenv var) as [[|c s]|] eqn:Hvar.
  - unfold override in H. rewrite Hvar in H. now injection H as <-.
  - eapply override_set_shape; [|exact H]. now exists c, s.
  - unfold override in H. rewrite Hvar in H. now injection H as <-.
Qed.

(** When [_override_with_env] succeeds with one of its variables set, the
    configuration it started from has a dictionary as section [llm]. *)
Lemma override_with_env_shape (cfg cfg' : value) (var k : str) :
  In (var, k) overrides -> is_set getenv var ->
  _override_with_env getenv cfg = Ok cfg' -> has_llm cfg.
Proof.
  unfold _override_with_env. intros Hin Hset Hov.
  destruct (override getenv cfg (u "OPENAI_API_KEY") (u "api_key"))
    as [c1|] eqn:H1; [|discriminate].
  destruct (override getenv c1 (u "OPENAI_BASE_URL") (u "base_url"))
    as [c2|] eqn:H2; [|discriminate].
  destruct (override getenv c2 (u "ANTHROPIC_API_KEY") (u "anthropic_key"))
    as [c3|] eqn:H3; [|discriminate].
  cbn [In overrides] in Hin.
  destruct Hin as [H | [H | [H | [H | []]]]]; injection H as <- <-.
  - eapply override_set_shape; [exact Hset | exact H1].
  - eapply override_ok_shape; [exact H1|].
    eapply override_set_shape; [exact Hset | exact H2].
  - eapply override_ok_shape; [exact H1|].
    eapply override_ok_shape; [exact H2|].
    eapply override_set_shape; [exact Hset | exact H3].
  - eapply override_ok_shape; [exact H1|].
    eapply override_ok_shape; [exact H2|].
    eapply override_ok_shape; [exact H3|].
    eapply override_set_shape; [exact Hset | exact Hov].
Qed.

(** Without a section [llm], the first variable that is set makes
    [_override_with_env] fail. *)
Lemma override_with_env_no_llm (d : dict) (var k : str) :
  Dict.lookup d (u "llm") = None ->
  In (var, k) overrides -> is_set getenv var ->
  _override_with_env getenv (VDict d) = Raise (KeyError (u "llm")).
Proof.
  intros Hllm Hin (c & s & Hvar).
  assert (Hstep : forall var' k',
            override getenv (VDict d) var' k' = Ok (VDict d)
            \/ override getenv (VDict d) var' k'
               = Raise (KeyError (u "llm"))).
  { intros var' k'. unfold override, setitem_in. rewrite Hllm.
    destruct (getenv var') as [[|? ?]|]; auto. }
  assert (Hown : override getenv (VDict d) var k
                 = Raise (KeyError (u "llm"))).
  { apply override_no_llm; [now exists c, s | exact Hllm]. }
  unfold _override_with_env. cbn [In overrides] in Hin.
  destruct (Hstep (u "OPENAI_API_KEY") (u "api_key")) as [H1|H1];
    rewrite H1; [|reflexivity].
  destruct (Hstep (u "OPENAI_BASE_URL") (u "base_url")) as [H2|H2];
    rewrite H2; [|reflexivity].
  destruct (Hstep (u "ANTHROPIC_API_KEY") (u "anthropic_key")) as [H3|H3];
    rewrite H3; [|reflexivity].
  destruct Hin as [H | [H | [H | [H | []]]]]; injection H as <- <-;
    congruence.
Qed.

Lemma load_config_world (path : str) (w : world) :
  snd (_load_config json_load path w) = w.
Proof.
  unfold _load_config, bind, exists_, lift, ret.
  destruct (path_exists w path); reflexivity.
Qed.

End ConfigInitFacts.

(** X4. Without any of the four override variables set, [Config()] holds
    exactly what it loaded: the default configuration when the
    configuration file does not exist, and what [json.load] returned when
    it does; the world is left as it was. *)
Theorem config_init_loaded (getenv : str -> option str)
    (json_load : str -> result value) (config_path : option str)
    (w : world) :
  (forall var k, In (var, k) Further.overrides ->
                 ~ Further.is_set getenv var) ->
  let path := Further.effective_path getenv config_path in
  (path_exists w path = false ->
   Config.Config_init getenv json_load config_path w
   = (Ok {| Config.config_path := path;
            Config.config := VDict Config._default_config |}, w))
  /\ (forall cfg,
        path_exists w path = true -> json_load path = Ok cfg ->
        Config.Config_init getenv json_load config_path w
        = (Ok {| Config.config_path := path; Config.config := cfg |}, w)).
Proof.
  intros Hunset path.
  assert (Hov : forall cfg, Config._override_with_env getenv cfg = Ok cfg).
  { intros cfg. unfold Config._override_with_env.
    rewrite !override_unset; [reflexivity | | | |];
      eapply Hunset; simpl; eauto 6. }
  subst path. unfold Config.Config_init, Further.effective_path.
  split.
  - intros Hno.
    destruct config_path as [p|]; [|destruct (getenv (u "CONFIG_PATH"))];
      cbv [bind Config._load_config exists_ lift ret] in *;
      rewrite Hno, Hov; reflexivity.
  - intros cfg Hyes Hload.
    destruct config_path as [p|]; [|destruct (getenv (u "CONFIG_PATH"))];
      cbv [bind Config._load_config exists_ lift ret] in *;
      rewrite Hyes, Hload, Hov; reflexivity.
Qed.

Lemma config_init_loaded_witness :
  Config.Config_init Samples.no_environment Samples.card_only None
    Examples.empty_world
  = (Ok Examples.default_Config, Examples.empty_world)
  /\ Config.Config_init Samples.no_environment Samples.card_only
       (Some (u "my.json")) Examples.full_world
     = (Ok {| Config.config_path := u "my.json";
              Config.config :=
                VDict [(u "card", VDict [(u "width", VInt 800)])] |},
        Examples.full_world).
Proof.
  assert (Hunset : forall var k, In (var, k) Further.overrides ->
                     ~ Further.is_set Samples.no_environment var).
  { intros var k _ (c & s & H). discriminate. }
  split.
  - apply (proj1 (@config_init_loaded Samples.no_environment
                    Samples.card_only None Examples.empty_world Hunset)).
    reflexivity.
  - apply (proj2 (@config_init_loaded Samples.no_environment
                    Samples.card_only (Some (u "my.json"))
                    Examples.full_world Hunset)); reflexivity.
Defined.

(** X5. An override variable that is set wins: after [Config()] has
    succeeded, [get] returns the value of [OPENAI_API_KEY] for
    [llm.api_key], of [OPENAI_BASE_URL] for [llm.base_url], of
    [ANTHROPIC_API_KEY] for [llm.anthropic_key] and of [GOOGLE_API_KEY] for
    [llm.google_key], whatever the configuration file says. *)
Theorem config_init_override (getenv : str -> option str)
    (json_load : str -> result value) (config_path : option str)
    (w w' : world) (self : Config.Config) (var k : str) (c : char)
    (s : str) (default : value) :
  Config.Config_init getenv json_load config_path w = (Ok self, w') ->
  In (var, k) Further.overrides ->
  getenv var = Some (c :: s) ->
  Config.get self (u "llm" ++ Config.dot :: k) default = VStr (c :: s).
Proof.
  unfold Config.Config_init, bind, lift, ret. intros Hinit Hin Hvar.
  destruct (Config._load_config json_load _ w) as [[cfg0|] w0];
    [|discriminate].
  destruct (Config._override_with_env getenv cfg0) as [cfg|] eqn:Hov;
    [|discriminate].
  injection Hinit as <- <-.
  assert (Hget : forall p d inner,
            cfg = VDict d -> Dict.lookup d (u "llm") = Some (VDict inner) ->
            Dict.lookup inner k = Some (VStr (c :: s)) ->
            Config.get {| Config.config_path := p; Config.config := cfg |}
                       (u "llm" ++ Config.dot :: k) default
            = VStr (c :: s)).
  { intros p d inner -> Hllm Hk. unfold Config.get, split_on.
    rewrite split_on_from_sep by (vm_compute; intuition discriminate).
    assert (Hnodot : ~ In Config.dot k).
    { simpl in Hin. destruct Hin as [H|[H|[H|[H|[]]]]];
        injection H as _ <-; vm_compute; intuition discriminate. }
    rewrite split_on_from_no_sep by assumption.
    cbn [Config.descend Config.config app]. now rewrite Hllm, Hk. }
  assert (Hset : Further.is_set getenv var) by now exists c, s.
  destruct (@override_with_env_shape getenv cfg0 cfg var k Hin Hset Hov)
    as (d0 & inner0 & -> & Hllm0).
  unfold Config._override_with_env in Hov.
  destruct (@override_llm getenv d0 inner0 (u "OPENAI_API_KEY")
              (u "api_key") Hllm0)
    as (d1 & inner1 & H1 & Hllm1 & Hother1 & Hown1).
  rewrite H1 in Hov.
  destruct (@override_llm getenv d1 inner1 (u "OPENAI_BASE_URL")
              (u "base_url") Hllm1)
    as (d2 & inner2 & H2 & Hllm2 & Hother2 & Hown2).
  rewrite H2 in Hov.
  destruct (@override_llm getenv d2 inner2 (u "ANTHROPIC_API_KEY")
              (u "anthropic_key") Hllm2)
    as (d3 & inner3 & H3 & Hllm3 & Hother3 & Hown3).
  rewrite H3 in Hov.
  destruct (@override_llm getenv d3 inner3 (u "GOOGLE_API_KEY")
              (u "google_key") Hllm3)
    as (d4 & inner4 & H4 & Hllm4 & Hother4 & Hown4).
  rewrite H4 in Hov. injection Hov as <-.
  apply (Hget _ d4 inner4 eq_refl Hllm4).
  simpl in Hin. destruct Hin as [H|[H|[H|[H|[]]]]]; injection H as <- <-.
  - rewrite Hother4, Hother3, Hother2 by (vm_compute; discriminate).
    now apply Hown1.
  - rewrite Hother4, Hother3 by (vm_compute; discriminate).
    now apply Hown2.
  - rewrite Hother4 by (vm_compute; discriminate). now apply Hown3.
  - now apply Hown4.
Qed.

Lemma config_init_override_witness :
  exists self,
    Config.Config_init Samples.only_openai_key Samples.card_only None
      Examples.empty_world = (Ok self, Examples.empty_world)
    /\ Config.get self (u "llm.api_key") VNone = VStr (u "sk-test").
Proof.
  eexists. split; [vm_compute; reflexivity|].
  eapply (@config_init_override Samples.only_openai_key Samples.card_only
            None Examples.empty_world Examples.empty_world _
            (u "OPENAI_API_KEY") (u "api_key") 0x73%N (u "k-test") VNone).
  - vm_compute. reflexivity.
  - left. reflexivity.
  - vm_compute. reflexivity.
Defined.

(** X6. A configuration file that holds an object without the section
    [llm] makes [Config()] fail with [KeyError: 'llm'] as soon as one of
    the four override variables is set; nothing is written. *)
Theorem config_init_no_llm (getenv : str -> option str)
    (json_load : str -> result value) (config_path : option str)
    (w : world) (d : dict) (var k : str) :
  let path := Further.effective_path getenv config_path in
  path_exists w path = true ->
  json_load path = Ok (VDict d) ->
  Dict.lookup d (u "llm") = None ->
  In (var, k) Further.overrides ->
  Further.is_set getenv var ->
  Config.Config_init getenv json_load config_path w
  = (Raise (KeyError (u "llm")), w).
Proof.
  intros path Hyes Hload Hllm Hin Hset. subst path.
  unfold Config.Config_init, Further.effective_path in *.
  destruct config_path as [p|]; [|destruct (getenv (u "CONFIG_PATH"))];
    cbv [bind Config._load_config exists_ lift ret] in *;
    rewrite Hyes, Hload,
      (@override_with_env_no_llm getenv d var k Hllm Hin Hset);
    reflexivity.
Qed.

Lemma config_init_no_llm_witness :
  Config.Config_init Samples.only_openai_key Samples.card_only None
    Examples.full_world
  = (Raise (KeyError (u "llm")), Examples.full_world).
Proof.
  apply (@config_init_no_llm Samples.only_openai_key Samples.card_only None
           Examples.full_world [(u "card", VDict [(u "width", VInt 800)])]
           (u "OPENAI_API_KEY") (u "api_key")).
  - vm_compute. reflexivity.
  - reflexivity.
  - vm_compute. reflexivity.
  - left. reflexivity.
  - exists 0x73%N, (u "k-test"). vm_compute. reflexivity.
Defined.

(** ** Extraction: other replies, effects, and files *)

Section ExtractFacts.

Import Extractor Further.

Variable json_loads : str -> result value.

Lemma quotes_of_items_raises (items : list value) (e : exn) :
  quotes_of_items items = Raise e -> e = AttributeError.
Proof.
  induction items as [|item items IH]; simpl; [discriminate|].
  destruct item; simpl; try (now intros [= <-]).
  destruct (quotes_of_items items); [discriminate|].
  intros [= <-]. now apply IH.
Qed.

Lemma quotes_of_items_bad (items : list value) (item : value) :
  In item items -> (forall d, item <> VDict d) ->
  quotes_of_items items = Raise AttributeError.
Proof.
  induction items as [|x items IH]; simpl; [easy|].
  intros [->|Hin] Hbad.
  - destruct item; try reflexivity. now destruct (Hbad d).
  - destruct x; try reflexivity. simpl. now rewrite (IH Hin Hbad).
Qed.

(** Every quote [extract] builds has the empty dictionary as timestamp. *)
Lemma quotes_of_items_timestamp (items : list value) :
  forall quotes, quotes_of_items items = Ok quotes ->
  Forall (fun q => timestamp q = VDict []) quotes.
Proof.
  induction items as [|item items IH]; simpl; intros quotes.
  - intros [= <-]. constructor.
  - destruct item; simpl; try discriminate.
    destruct (quotes_of_items items) as [qs|]; [|discriminate].
    intros [= <-]. constructor; [reflexivity | now apply IH].
Qed.

(** [extract] in one step: the progress message, the outcome of the
    reply, and the success message when there is one. *)
Lemma extract_run (self : QuoteExtractor) (text : str)
    (num_quotes min_length max_length : Z) (categories : option (list str))
    (w : world) :
  extract json_loads self text num_quotes min_length max_length categories w
  = match
      rbind (client self (model self)
               (Extraction.messages
                  (_build_prompt text num_quotes min_length max_length
                     (Extraction.effective_categories categories)))
               (temperature self))
            (quotes_of_reply json_loads)
    with
    | Ok quotes =>
      (Ok quotes,
       printed w [progress_message; success_message (length quotes)])
    | Raise e => (Raise e, printed w [progress_message])
    end.
Proof.
  unfold extract. fold (Extraction.effective_categories categories).
  unfold Extraction.messages, quotes_of_reply, printed, progress_message,
    success_message.
  cbv [bind lift print ret rbind].
  destruct (client self _ _ _) as [reply|]; [|reflexivity].
  destruct (json_loads reply) as [parsed|]; [|reflexivity].
  destruct (quotes_entry parsed) as [entry|]; [|reflexivity].
  destruct (iterate entry) as [items|]; [|reflexivity].
  destruct (quotes_of_items items) as [quotes|]; [|reflexivity].
  cbn [existed fs_log console]. now rewrite <- app_assoc.
Qed.

Lemma from_dict_to_dict (q : Quote) :
  timestamp q = VDict [] -> from_dict (to_dict q) = q.
Proof.
  destruct q as [t c k s ts]. cbn [timestamp]. intros ->.
  unfold from_dict, to_dict. cbn [text context category score timestamp].
  change (Dict.get _ (u "text") _) with t.
  change (Dict.get _ (u "context") _) with c.
  change (Dict.get _ (u "category") _) with k.
  change (Dict.get _ (u "score") _) with s.
  change (Dict.get _ (u "timestamp") _) with (VDict []).
  reflexivity.
Qed.

Lemma quotes_from_data (quotes : list Quote) :
  Forall (fun q => timestamp q = VDict []) quotes ->
  Cli.quotes_from (map (fun q => VDict (to_dict q)) quotes) = Ok quotes.
Proof.
  induction 1 as [|q quotes Hq _ IH]; [reflexivity|].
  cbn [map Cli.quotes_from]. rewrite IH. cbn [rbind].
  now rewrite from_dict_to_dict by exact Hq.
Qed.

End ExtractFacts.

(** X7. [extract] never touches the file system.  Whatever the model
    replies, the files are as they were; the console has gained the
    progress message, followed by the success message with the number of
    quotes exactly when [extract] returns. *)
Theorem extract_writes_nothing (json_loads : str -> result value)
    (self : Extractor.QuoteExtractor) (text : str)
    (num_quotes min_length max_length : Z) (categories : option (list str))
    (w : world) :
  let run :=
    Extractor.extract json_loads self text num_quotes min_length max_length
      categories w in
  existed (snd run) = existed w
  /\ fs_log (snd run) = fs_log w
  /\ match fst run with
     | Ok quotes =>
       console (snd run)
       = console w ++ [ Further.progress_message;
                        Further.success_message (length quotes) ]
     | Raise _ => console (snd run) = console w ++ [Further.progress_message]
     end.
Proof.
  intros run. subst run. rewrite extract_run.
  destruct (rbind _ _); repeat split.
Qed.

(** X8. Replies of other shapes.  When the reply parses to an object
    without the key ["quotes"], [extract] returns no quotes; when it
    parses to anything that is not an object, or when an entry of its
    ["quotes"] list is not an object, [extract] fails with an
    [AttributeError]; and a failure of the model or of [json.loads] is
    passed on as it is. *)
Theorem extract_other_replies (json_loads : str -> result value)
    (self : Extractor.QuoteExtractor) (text : str)
    (num_quotes min_length max_length : Z) (categories : option (list str))
    (w : world) :
  let reply :=
    Extractor.client self (Extractor.model self)
      (Extraction.messages
         (Extractor._build_prompt text num_quotes min_length max_length
            (Extraction.effective_categories categories)))
      (Extractor.temperature self) in
  let outcome :=
    fst (Extractor.extract json_loads self text num_quotes min_length
           max_length categories w) in
  (forall e, reply = Raise e -> outcome = Raise e)
  /\ (forall r e, reply = Ok r -> json_loads r = Raise e ->
                  outcome = Raise e)
  /\ (forall r v, reply = Ok r -> json_loads r = Ok v ->
                  (forall d, v <> VDict d) ->
                  outcome = Raise AttributeError)
  /\ (forall r d, reply = Ok r -> json_loads r = Ok (VDict d) ->
                  Dict.lookup d (u "quotes") = None ->
                  outcome = Ok [])
  /\ (forall r d items item,
        reply = Ok r -> json_loads r = Ok (VDict d) ->
        Dict.lookup d (u "quotes") = Some (VList items) ->
        In item items -> (forall entry, item <> VDict entry) ->
        outcome = Raise AttributeError).
Proof.
  intros reply outcome. subst outcome. rewrite extract_run. fold reply.
  split; [|split; [|split; [|split]]].
  - intros e ->. reflexivity.
  - intros r e -> Hl. cbn [rbind]. unfold Further.quotes_of_reply.
    now rewrite Hl.
  - intros r v -> Hl Hv. cbn [rbind]. unfold Further.quotes_of_reply.
    rewrite Hl. cbn [rbind].
    destruct v as [| | | | | |d]; try reflexivity. now destruct (Hv d).
  - intros r d -> Hl Hq. cbn [rbind]. unfold Further.quotes_of_reply.
    rewrite Hl. cbn [rbind Extractor.quotes_entry]. unfold Dict.get.
    rewrite Hq. reflexivity.
  - intros r d items item -> Hl Hq Hin Hbad. cbn [rbind].
    unfold Further.quotes_of_reply.
    rewrite Hl. cbn [rbind Extractor.quotes_entry]. unfold Dict.get.
    rewrite Hq. cbn [rbind Extractor.iterate].
    rewrite (quotes_of_items_bad items Hin Hbad). reflexivity.
Qed.

Lemma extract_other_replies_witness :
  fst (Extractor.extract Samples.loads_list Examples.canned_extractor
         (u "三人行") 3 10 200 None Examples.empty_world)
  = Raise AttributeError
  /\ fst (Extractor.extract Samples.loads_empty_object
            Examples.canned_extractor (u "三人行") 3 10 200 None
            Examples.empty_world)
     = Ok []
  /\ fst (Extractor.extract Samples.loads_bad_entry
            Examples.canned_extractor (u "三人行") 3 10 200 None
            Examples.empty_world)
     = Raise AttributeError.
Proof.
  split; [|split].
  - apply (proj1 (proj2 (proj2 (extract_other_replies Samples.loads_list
             Examples.canned_extractor (u "三人行") 3 10 200 None
             Examples.empty_world)))) with (r := u "{}") (v := VList []);
      [reflexivity | reflexivity | discriminate].
  - apply (proj1 (proj2 (proj2 (proj2 (extract_other_replies
             Samples.loads_empty_object Examples.canned_extractor
             (u "三人行") 3 10 200 None Examples.empty_world)))))
      with (r := u "{}") (d := []); reflexivity.
  - apply (proj2 (proj2 (proj2 (proj2 (extract_other_replies
             Samples.loads_bad_entry Examples.canned_extractor
             (u "三人行") 3 10 200 None Examples.empty_world)))))
      with (r := u "{}") (d := [(u "quotes",
                                 VList [VDict []; VStr (u "three")])])
           (items := [VDict []; VStr (u "three")])
           (item := VStr (u "three"));
      [reflexivity | reflexivity | vm_compute; reflexivity
      | right; left; reflexivity | discriminate].
Defined.

Section ExtractFileFacts.

Import Extractor ExtractorFile Further.

Variable json_loads : str -> result value.

Lemma quotes_of_reply_timestamp (reply : str) (quotes : list Quote) :
  quotes_of_reply json_loads reply = Ok quotes ->
  Forall (fun q => timestamp q = VDict []) quotes.
Proof.
  unfold quotes_of_reply.
  destruct (json_loads reply) as [parsed|]; [|discriminate].
  cbn [rbind]. destruct (quotes_entry parsed) as [entry|]; [|discriminate].
  cbn [rbind]. destruct (iterate entry) as [items|]; [|discriminate].
  cbn [rbind]. apply quotes_of_items_timestamp.
Qed.

(** What a successful [extract] leaves behind. *)
Lemma extract_ok (self : QuoteExtractor) (text : str)
    (num_quotes min_length max_length : Z) (categories : option (list str))
    (w w1 : world) (quotes : list Quote) :
  extract json_loads self text num_quotes min_length max_length categories w
  = (Ok quotes, w1) ->
  w1 = printed w [progress_message; success_message (length quotes)]
  /\ Forall (fun q => timestamp q = VDict []) quotes.
Proof.
  rewrite extract_run.
  destruct (client self _ _ _) as [reply|]; [|discriminate].
  cbn [rbind].
  destruct (quotes_of_reply json_loads reply) as [qs|] eqn:Hq;
    [|discriminate].
  intros [= <- <-]. split; [reflexivity|].
  eapply quotes_of_reply_timestamp. exact Hq.
Qed.

Lemma extract_raise (self : QuoteExtractor) (text : str)
    (num_quotes min_length max_length : Z) (categories : option (list str))
    (w w1 : world) (e : exn) :
  extract json_loads self text num_quotes min_length max_length categories w
  = (Raise e, w1) ->
  w1 = printed w [progress_message].
Proof.
  rewrite extract_run. destruct (rbind _ _); [discriminate|].
  now intros [= _ <-].
Qed.

End ExtractFileFacts.

(** X9. [extract_from_file] fails cleanly.  When the input file does not
    exist it raises [FileNotFoundError] naming the path, and nothing has
    been read, written or printed; and when the file is read but [extract]
    fails, the failure is passed on and no file has been created, whatever
    the output path. *)
Theorem extract_from_file_failures (json_loads : str -> result value)
    (read_text : str -> result str) (json_dumps : value -> str)
    (self : Extractor.QuoteExtractor) (input_path : str)
    (output_path : option str) (num_quotes min_length max_length : Z)
    (categories : option (list str)) (w : world) :
  let source := Pathlib.str_of (Pathlib.Path_of input_path) in
  let run :=
    ExtractorFile.extract_from_file json_loads read_text json_dumps self
      input_path output_path num_quotes min_length max_length categories w in
  (path_exists w source = false ->
   run = (Raise (FileNotFoundError (u "文件不存在: " ++ source)), w))
  /\ (forall text e w1,
        path_exists w source = true ->
        read_text source = Ok text ->
        Extractor.extract json_loads self text num_quotes min_length
          max_length categories w = (Raise e, w1) ->
        run = (Raise e, w1) /\ fs_log w1 = fs_log w).
Proof.
  intros source run. subst source run. unfold ExtractorFile.extract_from_file.
  cbv [bind exists_ lift raise]. split.
  - intros ->. reflexivity.
  - intros text e w1 -> -> Hextract. cbn [negb]. rewrite Hextract.
    split; [reflexivity|].
    apply extract_raise in Hextract. now rewrite Hextract.
Qed.

Lemma extract_from_file_failures_witness :
  ExtractorFile.extract_from_file Examples.canned_loads
    Samples.read_transcript Samples.dumps_stub Examples.canned_extractor
    (u "./talk//notes.txt") (Some (u "out/quotes.json")) 3 10 200 None
    Samples.transcript_world
  = (Raise (FileNotFoundError (u "文件不存在: talk/notes.txt")),
     Samples.transcript_world)
  /\ ExtractorFile.extract_from_file Samples.loads_list
       Samples.read_transcript Samples.dumps_stub Examples.canned_extractor
       (u "talk/transcript.txt") (Some (u "out/quotes.json")) 3 10 200 None
       Samples.transcript_world
     = (Raise AttributeError,
        Further.printed Samples.transcript_world
          [Further.progress_message]).
Proof.
  split.
  - apply (proj1 (extract_from_file_failures Examples.canned_loads
                    Samples.read_transcript Samples.dumps_stub
                    Examples.canned_extractor (u "./talk//notes.txt")
                    (Some (u "out/quotes.json")) 3 10 200 None
                    Samples.transcript_world)).
    vm_compute. reflexivity.
  - apply (proj2 (extract_from_file_failures Samples.loads_list
                    Samples.read_transcript Samples.dumps_stub
                    Examples.canned_extractor (u "talk/transcript.txt")
                    (Some (u "out/quotes.json")) 3 10 200 None
                    Samples.transcript_world)
             (u "三人行，必有我师焉。")).
    + vm_compute. reflexivity.
    + reflexivity.
    + vm_compute. reflexivity.
Defined.

(** X10. [extract_from_file] saves what it returns.  When the input file
    exists and is read and [extract] returns quotes, then with an output
    path [extract_from_file] returns these quotes after having created the
    parent directory and written one file, the dump of their dictionaries
    at the output path, and no other; reading these dictionaries back with
    [Quote.from_dict], as the command [generate] does, gives the quotes
    again; and without an output path it is [extract] on the text of the
    file. *)
Theorem extract_from_file_saves (json_loads : str -> result value)
    (read_text : str -> result str) (json_dumps : value -> str)
    (self : Extractor.QuoteExtractor) (input_path : str) (c : char)
    (s : str) (num_quotes min_length max_length : Z)
    (categories : option (list str)) (w w1 : world) (text : str)
    (quotes : list Extractor.Quote) :
  let source := Pathlib.str_of (Pathlib.Path_of input_path) in
  let target := Pathlib.Path_of (c :: s) in
  path_exists w source = true ->
  read_text source = Ok text ->
  Extractor.extract json_loads self text num_quotes min_length max_length
    categories w = (Ok quotes, w1) ->
  ExtractorFile.extract_from_file json_loads read_text json_dumps self
    input_path (Some (c :: s)) num_quotes min_length max_length categories w
  = (Ok quotes, Further.after_save json_dumps w1 target quotes)
  /\ files_written
       (fs_log (Further.after_save json_dumps w1 target quotes))
     = files_written (fs_log w)
         ++ [(Pathlib.str_of target,
              TextFile (json_dumps (ExtractorFile.quotes_data quotes)))]
  /\ (exists items,
        Extractor.iterate (ExtractorFile.quotes_data quotes) = Ok items
        /\ Cli.quotes_from items = Ok quotes)
  /\ (forall output_path,
        output_path = None \/ output_path = Some [] ->
        ExtractorFile.extract_from_file json_loads read_text json_dumps self
          input_path output_path num_quotes min_length max_length
          categories w
        = (Ok quotes, w1)).
Proof.
  intros source target Hex Hread Hextract. subst source target.
  pose proof Hextract as Hok. apply extract_ok in Hok.
  destruct Hok as [Hw1 Hts].
  split; [|split; [|split]].
  - unfold ExtractorFile.extract_from_file.
    cbv [bind exists_ lift raise]. rewrite Hex. cbn [negb].
    rewrite Hread, Hextract. reflexivity.
  - unfold Further.after_save. cbn [fs_log].
    rewrite !files_written_app. rewrite Hw1. cbn [files_written].
    unfold Further.printed. cbn [fs_log]. now rewrite app_nil_r.
  - eexists. split; [reflexivity|]. now apply quotes_from_data.
  - intros output_path Hout. unfold ExtractorFile.extract_from_file.
    cbv [bind exists_ lift raise]. rewrite Hex. cbn [negb].
    rewrite Hread, Hextract. now destruct Hout as [-> | ->].
Qed.

Lemma extract_from_file_saves_witness :
  exists quotes w1,
    Extractor.extract Examples.canned_loads Examples.canned_extractor
      (u "三人行，必有我师焉。") 3 10 200 None Samples.transcript_world
    = (Ok quotes, w1)
    /\ ExtractorFile.extract_from_file Examples.canned_loads
         Samples.read_transcript Samples.dumps_stub
         Examples.canned_extractor (u "talk/transcript.txt")
         (Some (u "talk/quotes.json")) 3 10 200 None
         Samples.transcript_world
       = (Ok quotes,
          Further.after_save Samples.dumps_stub w1
            (Pathlib.Path_of (u "talk/quotes.json")) quotes).
Proof.
  do 2 eexists. split; [vm_compute; reflexivity|].
  apply (fun H1 H2 H3 =>
           proj1 (@extract_from_file_saves Examples.canned_loads
                    Samples.read_transcript Samples.dumps_stub
                    Examples.canned_extractor (u "talk/transcript.txt")
                    0x74%N (u "alk/quotes.json") 3 10 200 None
                    Samples.transcript_world _ (u "三人行，必有我师焉。") _
                    H1 H2 H3)).
  - vm_compute. reflexivity.
  - reflexivity.
  - vm_compute. reflexivity.
Defined.

(** ** Filtering: errors, stability and idempotence *)

Section FilterMore.

Import Extractor Filtering Further.

Lemma filter_score_raises (s : Q) (l : list Quote) (q : Quote) :
  In q l -> ~ numeric q -> filter_score s l = Raise TypeError.
Proof.
  unfold numeric. induction l as [|a l IH]; simpl; [easy|].
  intros [->|Hin] Hq.
  - unfold py_ge. destruct (num_of (score q)); [|reflexivity].
    exfalso. apply Hq. discriminate.
  - unfold py_ge. destruct (num_of (score a)); [|reflexivity].
    cbn [num_of]. now rewrite (IH Hin Hq).
Qed.

Lemma filter_all {A} (f : A -> bool) (l : list A) :
  Forall (fun x => f x = true) l -> filter f l = l.
Proof.
  induction 1 as [|x l Hx _ IH]; simpl; [reflexivity|].
  now rewrite Hx, IH.
Qed.

Lemma Forall_filter_true {A} (f : A -> bool) (l : list A) :
  Forall (fun x => f x = true) (filter f l).
Proof.
  induction l as [|x l IH]; simpl; [constructor|].
  destruct (f x) eqn:Hx; [constructor|]; assumption.
Qed.

(** A list already in descending order is left as it is. *)
Lemma sort_desc_sorted (l : list Quote) :
  Forall numeric l -> StronglySorted key_ge l -> sort_desc l = Ok l.
Proof.
  intros Hnum Hs. induction Hs as [|a l Hs IH Hall]; [reflexivity|].
  inversion Hnum as [|? ? Ha Hl]; subst.
  cbn [sort_desc]. rewrite (IH Hl).
  destruct l as [|b l]; [reflexivity|].
  inversion Hl as [|? ? Hb _]; subst.
  inversion Hall as [|? ? Hab _]; subst.
  cbn [insert_desc]. rewrite (py_lt_key Ha Hb).
  unfold Qlt_bool. unfold key_ge in Hab.
  apply Qle_bool_iff in Hab. now rewrite Hab.
Qed.



Lemma truncated_twice (max_count : option Z) (l : list Quote) :
  (forall n, max_count = Some n -> 0 <= n) ->
  truncated max_count (truncated max_count l) = truncated max_count l.
Proof.
  intros Hn. destruct max_count as [n|]; [|reflexivity].
  specialize (Hn n eq_refl). unfold truncated.
  destruct (n =? 0); [reflexivity|]. unfold slice_to.
  destruct (Z.leb_spec 0 n); [|lia].
  rewrite firstn_firstn. now rewrite Nat.min_id.
Qed.

Lemma selected_numeric (min_score : Q) (category : option str)
    (quotes : list Quote) :
  Forall numeric quotes -> Forall numeric (selected min_score category quotes).
Proof.
  intros H. unfold selected. apply by_category_Forall.
  destruct (Qlt_bool 0 min_score); [now apply Forall_filter | assumption].
Qed.

(** What [filter_quotes] returns passes its own filters. *)
Lemma selected_fixed (min_score : Q) (category : option str)
    (max_count : option Z) (quotes sorted : list Quote) :
  Permutation sorted (selected min_score category quotes) ->
  selected min_score category (truncated max_count sorted)
  = truncated max_count sorted.
Proof.
  intros Hperm. unfold selected at 1.
  assert (Hscore : Qlt_bool 0 min_score = true ->
            Forall (fun q => Qle_bool min_score (key q) = true)
                   (truncated max_count sorted)).
  { intros Hby. apply truncated_Forall.
    apply (Permutation_Forall (Permutation_sym Hperm)).
    unfold selected. rewrite Hby. apply by_category_Forall.
    apply Forall_filter_true. }
  assert (Hcat : forall c, category = Some c -> nonempty c = true ->
            Forall (fun q => category_is c q = true)
                   (truncated max_count sorted)).
  { intros c -> Hc. apply truncated_Forall.
    apply (Permutation_Forall (Permutation_sym Hperm)).
    unfold selected, by_category. rewrite Hc. apply Forall_filter_true. }
  destruct (Qlt_bool 0 min_score).
  - rewrite (filter_all _ (Hscore eq_refl)).
    unfold by_category. destruct category as [c|]; [|reflexivity].
    destruct (nonempty c) eqn:Hc; [|reflexivity].
    now rewrite (filter_all _ (Hcat c eq_refl Hc)).
  - unfold by_category. destruct category as [c|]; [|reflexivity].
    destruct (nonempty c) eqn:Hc; [|reflexivity].
    now rewrite (filter_all _ (Hcat c eq_refl Hc)).
Qed.

(** [filter_quotes] in terms of the selection. *)
Lemma filter_quotes_selected (quotes : list Quote) (min_score : Q)
    (category : option str) (max_count : option Z) :
  Forall numeric quotes ->
  exists sorted after,
    sort_desc (selected min_score category quotes) = Ok sorted
    /\ Permutation sorted (selected min_score category quotes)
    /\ StronglySorted key_ge sorted
    /\ filter_quotes quotes min_score category max_count
       = Ok (truncated max_count sorted, after).
Proof.
  intros Hnum.
  destruct (@filter_quotes_stages quotes min_score category max_count Hnum)
    as (sorted & Hsort & Hperm & Hsorted & Hrun).
  exists sorted. eexists. repeat split; eassumption.
Qed.

End FilterMore.



(** X12. [filter_quotes] is idempotent.  For quotes whose scores are
    numbers and [max_count] not negative, filtering the returned list
    again with the same arguments returns it unchanged, and leaves the
    list given to it as it is. *)
Theorem filter_quotes_idempotent (quotes filtered after : list Extractor.Quote)
    (min_score : Q) (category : option str) (max_count : option Z) :
  Forall Filtering.numeric quotes ->
  (forall n, max_count = Some n -> 0 <= n) ->
  Extractor.filter_quotes quotes min_score category max_count
  = Ok (filtered, after) ->
  Extractor.filter_quotes filtered min_score category max_count
  = Ok (filtered, filtered).
Proof.
  intros Hnum Hn Hrun.
  destruct (@filter_quotes_selected quotes min_score category max_count
              Hnum) as (sorted & after' & Hsort & Hperm & Hsorted & Hrun').
  rewrite Hrun' in Hrun. injection Hrun as <- _.
  assert (Hnum1 : Forall Filtering.numeric sorted).
  { apply (Permutation_Forall (Permutation_sym Hperm)).
    now apply selected_numeric. }
  assert (Hnum2 : Forall Filtering.numeric
                    (Filtering.truncated max_count sorted))
    by now apply truncated_Forall.
  destruct (@filter_quotes_stages (Filtering.truncated max_count sorted)
              min_score category max_count Hnum2)
    as (sorted2 & Hsort2 & _ & _ & Hrun2).
  fold (Further.selected min_score category
          (Filtering.truncated max_count sorted)) in Hsort2.
  rewrite (@selected_fixed min_score category max_count quotes sorted Hperm)
    in Hsort2.
  rewrite sort_desc_sorted in Hsort2;
    [|exact Hnum2 | now apply truncated_sorted].
  injection Hsort2 as <-.
  rewrite Hrun2, truncated_twice by exact Hn.
  now destruct (_ || _).
Qed.

Lemma filter_quotes_idempotent_witness :
  exists filtered after,
    Extractor.filter_quotes Examples.three_quotes (1 # 2) (Some (u "观点"))
      (Some 5) = Ok (filtered, after)
    /\ Extractor.filter_quotes filtered (1 # 2) (Some (u "观点")) (Some 5)
       = Ok (filtered, filtered).
Proof.
  do 2 eexists. split; [vm_compute; reflexivity|].
  eapply (@filter_quotes_idempotent Examples.three_quotes _ _ (1 # 2)
            (Some (u "观点")) (Some 5)).
  - repeat constructor; discriminate.
  - intros n [= <-]. lia.
  - vm_compute. reflexivity.
Defined.

(** X13. A score that is not a number cannot be compared with
    [min_score]: when [min_score > 0] and some quote has a score that is
    neither an [int], a [float] nor a [bool], [filter_quotes] fails with a
    [TypeError]. *)
Theorem filter_quotes_TypeError (quotes : list Extractor.Quote) (min_score : Q)
    (category : option str) (max_count : option Z) (q : Extractor.Quote) :
  (0 < min_score)%Q ->
  In q quotes -> ~ Filtering.numeric q ->
  Extractor.filter_quotes quotes min_score category max_count
  = Raise TypeError.
Proof.
  intros Hpos Hin Hq. unfold Extractor.filter_quotes.
  assert (Hby : Qlt_bool 0 min_score = true).
  { unfold Qlt_bool. apply negb_true_iff.
    destruct (Qle_bool min_score 0) eqn:Hle; [|reflexivity].
    apply Qle_bool_iff in Hle. exfalso.
    now apply (Qlt_not_le _ _ Hpos). }
  rewrite Hby. now rewrite (filter_score_raises min_score quotes Hin Hq).
Qed.

Lemma filter_quotes_TypeError_witness :
  Extractor.filter_quotes
    [Examples.quote "学而不思则罔" "观点" 8; Samples.unscored] (1 # 2) None
    None
  = Raise TypeError.
Proof.
  apply (@filter_quotes_TypeError _ (1 # 2) None None Samples.unscored).
  - reflexivity.
  - right. left. reflexivity.
  - intros H. apply H. reflexivity.
Defined.

(** ** Wrapping: the number of lines *)

Section WrapMore.

Import CardGenerator Wrapping.

Lemma groups_length {A} (gs : list (list A)) :
  Forall (fun g => g <> []) gs -> (length gs <= length (concat gs))%nat.
Proof.
  induction 1 as [|g gs Hg _ IH]; simpl; [lia|].
  rewrite length_app. destruct g; [congruence|]. simpl. lia.
Qed.

Lemma concat_units_nonempty (gs : list (list str)) :
  Forall (fun x => x <> []) (concat gs) ->
  Forall (fun g => Forall (fun x => x <> []) g) gs.
Proof.
  induction gs as [|g gs IH]; simpl; intros Hu; [constructor|].
  apply Forall_app in Hu. destruct Hu as [Hu1 Hu2].
  constructor; auto.
Qed.

(** A loop in which every test line fits never starts a second line. *)
Lemma fold_fits (font : Font) (max_width : Z) (sep : str) (us : list str) :
  forall done,
    Forall (fun x => x <> []) done ->
    Forall (fun x => x <> []) us ->
    (forall n, (0 < n <= length us)%nat ->
               bbox_width font (join sep (done ++ firstn n us))
                 <= max_width) ->
    fold_left (wrap_unit font max_width sep) us ([], join sep done)
    = ([], join sep (done ++ us)).
Proof.
  induction us as [|x us IH]; intros done Hdone Hus Hfit.
  - simpl. now rewrite app_nil_r.
  - inversion Hus as [|? ? Hx Hus']; subst.
    cbn [fold_left]. unfold wrap_unit at 2.
    rewrite (@test_line_join sep done x Hdone).
    pose proof (Hfit 1%nat ltac:(simpl; lia)) as H1. cbn [firstn] in H1.
    apply Z.leb_le in H1.
    match goal with
    | |- context [if ?c then (_, _) else _] =>
      assert (Hc : c = true) by exact H1; rewrite Hc
    end.
    cbv iota. etransitivity; [apply (IH (done ++ [x]))|].
    + apply Forall_app. split; [assumption | now constructor].
    + assumption.
    + intros n Hn. rewrite <- app_assoc.
      apply (Hfit (S n)). simpl. lia.
    + now rewrite <- app_assoc.
Qed.

End WrapMore.

(** X14. The lines of [_wrap_text].  No line is empty; there are at most
    as many lines as the text has units (characters of a text with a
    Chinese character, words of any other text); and there is no line at
    all exactly when the text has no unit, that is, when it is empty or,
    without a Chinese character, all whitespace. *)
Theorem wrap_text_line_count (text : str) (font : Font) (max_width : Z) :
  let lines := CardGenerator._wrap_text text font max_width in
  Forall (fun line => line <> []) lines
  /\ (length lines <= length (Wrapping.units text))%nat
  /\ (lines = [] <-> Wrapping.units text = []).
Proof.
  intros lines. subst lines.
  destruct (wrap_text_lines text font max_width)
    as (groups & -> & Hc & Hne & _ & _).
  pose proof (units_nonempty text) as Hu. rewrite <- Hc in *.
  split; [|split].
  - apply concat_units_nonempty in Hu.
    apply Forall_map. rewrite Forall_forall in *.
    intros g Hg. apply join_nonempty; auto.
  - rewrite length_map. now apply groups_length.
  - destruct groups as [|g groups]; [easy|].
    split; [discriminate|]. intros H. exfalso.
    apply (@concat_groups_nonempty _ (g :: groups)); easy.
Qed.

(** X15. A text that fits stays on one line.  When the text has a unit
    and, read unit by unit, never gets wider than [max_width], [_wrap_text]
    returns a single line: the units joined, which is the text itself when
    it holds a Chinese character and its words separated by single spaces
    otherwise. *)
Theorem wrap_text_one_line (text : str) (font : Font) (max_width : Z) :
  Wrapping.units text <> [] ->
  (forall n, (0 < n <= length (Wrapping.units text))%nat ->
     CardGenerator.bbox_width font
       (join (Wrapping.separator text) (firstn n (Wrapping.units text)))
       <= max_width) ->
  CardGenerator._wrap_text text font max_width
  = [join (Wrapping.separator text) (Wrapping.units text)].
Proof.
  intros Hne Hfit. pose proof (units_nonempty text) as Hu.
  pose proof (@fold_fits font max_width (Wrapping.separator text)
                (Wrapping.units text) [] (Forall_nil _) Hu Hfit) as Hrun.
  cbn [join app] in Hrun.
  assert (Hj : nonempty (join (Wrapping.separator text)
                           (Wrapping.units text)) = true)
    by (apply nonempty_true, join_nonempty; assumption).
  unfold CardGenerator._wrap_text. clear Hne Hfit Hu. revert Hrun Hj.
  unfold Wrapping.units, Wrapping.separator.
  destruct (existsb CardGenerator.is_cjk text); intros Hrun Hj;
    [rewrite fold_wrap_char | rewrite fold_wrap_word];
    (etransitivity; [exact (f_equal CardGenerator.flush Hrun)|]);
    unfold CardGenerator.flush;
    match goal with
    | |- context [if ?c then _ else _] =>
      assert (Hc : c = true) by exact Hj; rewrite Hc
    end; reflexivity.
Qed.

Lemma wrap_text_one_line_witness :
  CardGenerator._wrap_text (u "  hello   world ") Examples.mono 200
  = [u "hello world"].
Proof.
  apply (@wrap_text_one_line (u "  hello   world ") Examples.mono 200).
  - vm_compute. discriminate.
  - intros n Hn. vm_compute in Hn.
    destruct n as [|[|[|n]]]; try lia; vm_compute; discriminate.
Defined.

(** ** Colours *)

Section HexFacts.

Import CardGenerator.

Lemma slice2_firstn (h : str) (i : nat) :
  (i <= 4)%nat -> slice2 (firstn 6 h) i = slice2 h i.
Proof.
  intros Hi. unfold slice2.
  replace 6%nat with (i + (6 - i))%nat by lia.
  rewrite <- firstn_skipn_comm, firstn_firstn.
  f_equal. lia.
Qed.

End HexFacts.

(** X16. What [_hex_to_rgb] reads of a colour.  Leading [#] characters
    are dropped, however many there are, and only the six characters that
    follow matter: two colours that agree on them give the same result.
    A colour with fewer than five characters after the [#]s is rejected,
    since its third pair is the empty string, which [int(_, 16)] does not
    accept. *)
Theorem hex_to_rgb_reads_six (int16 : str -> result Z) :
  (forall s,
     CardGenerator._hex_to_rgb int16 (CardGenerator.hash :: s)
     = CardGenerator._hex_to_rgb int16 s)
  /\ (forall s t,
        firstn 6 (CardGenerator.lstrip_hash s)
        = firstn 6 (CardGenerator.lstrip_hash t) ->
        CardGenerator._hex_to_rgb int16 s
        = CardGenerator._hex_to_rgb int16 t)
  /\ (forall s e,
        (length (CardGenerator.lstrip_hash s) < 5)%nat ->
        int16 [] = Raise e ->
        exists e', CardGenerator._hex_to_rgb int16 s = Raise e').
Proof.
  split; [|split].
  - reflexivity.
  - intros s t H. unfold CardGenerator._hex_to_rgb.
    rewrite <- (@slice2_firstn (CardGenerator.lstrip_hash s) 0),
      <- (@slice2_firstn (CardGenerator.lstrip_hash s) 2),
      <- (@slice2_firstn (CardGenerator.lstrip_hash s) 4) by lia.
    rewrite H.
    now rewrite !slice2_firstn by lia.
  - intros s e Hlen He. unfold CardGenerator._hex_to_rgb.
    assert (H4 : CardGenerator.slice2 (CardGenerator.lstrip_hash s) 4 = []).
    { unfold CardGenerator.slice2. rewrite skipn_all2 by lia. reflexivity. }
    rewrite H4, He.
    destruct (int16 (CardGenerator.slice2 _ 0)) as [r|e1];
      [|now eexists].
    cbn [rbind].
    destruct (int16 (CardGenerator.slice2 _ 2)) as [g|e2];
      [|now eexists].
    cbn [rbind]. now eexists.
Qed.

Lemma hex_to_rgb_reads_six_witness :
  CardGenerator._hex_to_rgb Examples.hex_pair (u "##1a1a2e")
  = CardGenerator._hex_to_rgb Examples.hex_pair (u "1a1a2eff")
  /\ exists e, CardGenerator._hex_to_rgb Examples.hex_pair (u "#fff")
               = Raise e.
Proof.
  split.
  - apply (proj1 (proj2 (hex_to_rgb_reads_six Examples.hex_pair))).
    vm_compute. reflexivity.
  - apply (proj2 (proj2 (hex_to_rgb_reads_six Examples.hex_pair))
             (u "#fff") (ValueError (u "invalid literal for int()"))).
    + vm_compute. lia.
    + reflexivity.
Defined.

(** ** Rendering: failures *)

Section RenderMore.

Import CardGenerator Rendering.

Variable int16 : str -> result Z.
Variable py_str : value -> str.
Variable upper : str -> str.
Variable truetype : str -> Z -> Font.

(** [generate] in one step. *)
Lemma generate_cases (self : CardGenerator)
    (quote_text title subtitle output_path style : str) (w : world) :
  generate int16 upper truetype self quote_text title subtitle output_path
           style w
  = match _hex_to_rgb int16 (background_color self) with
    | Raise e => (Raise e, w)
    | Ok background =>
      match Rendering.template int16 upper truetype self style quote_text
              title subtitle with
      | Raise e => (Raise e, w)
      | Ok ops =>
        (Ok (Pathlib.str_of (Pathlib.Path_of output_path)),
         after_generate w (Pathlib.Path_of output_path)
           {| img_size := (width self, height self);
              img_background := background;
              img_ops := ops |})
      end
    end.
Proof.
  unfold generate, Rendering.template. cbv [bind lift].
  destruct (_hex_to_rgb int16 (background_color self)); [|reflexivity].
  destruct (if str_eqb style (u "minimal") then _ else _); reflexivity.
Qed.

(** A text that cannot be iterated over is no text. *)
Lemma not_iterable_raises (v : value) :
  Further.not_iterable v -> as_text v = Raise TypeError.
Proof. destruct v; simpl; intros H; now try destruct H. Qed.

Lemma batch_loop_stops (self : CardGenerator) (dir : Pathlib.Path)
    (title style : str) (bad : batch_item) (rest : list batch_item)
    (good : list batch_item) : forall i w,
  colours_ok int16 self ->
  Paths.normal dir ->
  Forall (printable py_str) good ->
  Further.not_iterable (item_text py_str bad) ->
  exists images w',
    batch_loop int16 py_str upper truetype self dir title style i
               (good ++ bad :: rest) w
    = (Raise TypeError, w')
    /\ length images = length good
    /\ files_written (fs_log w')
       = files_written (fs_log w)
           ++ combine (Paths.card_paths dir i (length good))
                      (map saved images)
    /\ console w'
       = console w
           ++ map (fun p => u "✓ 卡片已生成: " ++ p)
                  (Paths.card_paths dir i (length good)).
Proof.
  induction good as [|quote good IH]; intros i w Hc Hdir Hgood Hbad.
  - exists [], w. cbn [app length Paths.card_paths map combine].
    rewrite !app_nil_r. split; [|repeat split].
    cbn [batch_loop]. cbv [bind lift].
    now rewrite (not_iterable_raises _ Hbad).
  - inversion Hgood as [|? ? [[t Ht] [sub Hsub]] Hrest]; subst.
    destruct (Hc (background_color self)) as [bg Hbg]; [simpl; auto|].
    destruct (@template_ok int16 upper truetype self style t title sub Hc)
      as [ops Hops].
    set (target := Pathlib.joinpath dir (card_name i)).
    assert (Htarget : Pathlib.Path_of (Pathlib.str_of target) = target).
    { apply Path_of_str_of, joinpath_normal;
        [assumption | apply card_name_component]. }
    pose proof (@generate_run int16 upper truetype self t title sub
                  (Pathlib.str_of target) style w bg ops Hbg Hops) as Hgen.
    rewrite Htarget in Hgen.
    set (img := {| img_size := (width self, height self);
                   img_background := bg;
                   img_ops := ops |}) in Hgen.
    destruct (IH (i + 1)%N (after_generate w target img) Hc Hdir Hrest Hbad)
      as (images & w' & Hloop & Hlen & Hfiles & Hcons).
    exists (img :: images), w'. split; [|split; [|split]].
    + change ((quote :: good) ++ bad :: rest)
        with (quote :: (good ++ bad :: rest)).
      cbn [batch_loop]. fold target.
      unfold lift at 1 2. unfold bind at 1. rewrite Ht.
      unfold bind at 1. rewrite Hsub.
      unfold bind at 1. rewrite Hgen.
      unfold bind at 1. rewrite Hloop. reflexivity.
    + simpl. now rewrite Hlen.
    + rewrite Hfiles, files_after_generate.
      cbn [length Paths.card_paths map combine]. fold target.
      now rewrite <- app_assoc.
    + rewrite Hcons. unfold after_generate. cbn [console].
      cbn [length Paths.card_paths map]. fold target.
      now rewrite <- app_assoc.
Qed.

(** X17. A colour that cannot be read stops [generate] before anything
    happens.  When [int(_, 16)] rejects the background colour, or accepts
    it and rejects the accent colour, [generate] fails with that error,
    whatever the style, and no directory has been created, no file written
    and nothing printed. *)
Theorem generate_bad_colour (self : CardGenerator)
    (quote_text title subtitle output_path style : str) (w : world)
    (e : exn) :
  _hex_to_rgb int16 (background_color self) = Raise e
  \/ ((exists background,
         _hex_to_rgb int16 (background_color self) = Ok background)
      /\ _hex_to_rgb int16 (accent_color self) = Raise e) ->
  generate int16 upper truetype self quote_text title subtitle output_path
           style w
  = (Raise e, w).
Proof.
  rewrite generate_cases. intros [-> | [[background ->] Hacc]];
    [reflexivity|].
  unfold Rendering.template, _draw_minimal_card, _draw_elegant_card,
    _draw_modern_card.
  rewrite Hacc. cbn [rbind].
  now repeat match goal with
             | |- context [if ?c then _ else _] => destruct c
             end.
Qed.

(** X18. [generate_batch] stops at the first quote whose text is not a
    text.  When the colours can be read, the quotes before it can be
    printed and its text is a number, a Boolean or [None], the call fails
    with a [TypeError] after having written the cards of exactly the
    quotes before it, [card_001.png] onwards, and printed their messages;
    no later quote is looked at and the closing message is not printed. *)
Theorem generate_batch_stops (self : CardGenerator)
    (good rest : list batch_item) (bad : batch_item)
    (output_dir title style : str) (w : world) :
  colours_ok int16 self ->
  Forall (printable py_str) good ->
  Further.not_iterable (item_text py_str bad) ->
  let dir := Pathlib.Path_of output_dir in
  let paths := Paths.card_paths dir 1 (length good) in
  exists (images : list image) (w' : world),
    generate_batch int16 py_str upper truetype self (good ++ bad :: rest)
                   output_dir title style w
    = (Raise TypeError, w')
    /\ length images = length good
    /\ files_written (fs_log w')
       = files_written (fs_log w) ++ combine paths (map saved images)
    /\ console w'
       = console w ++ map (fun p => u "✓ 卡片已生成: " ++ p) paths.
Proof.
  intros Hc Hgood Hbad dir paths.
  assert (Hdir : Paths.normal dir) by apply Path_of_normal.
  destruct (@batch_loop_stops self dir title style bad rest good 1%N
              {| existed := existed w;
                 fs_log := fs_log w ++ [Mkdir (Pathlib.str_of dir)];
                 console := console w |} Hc Hdir Hgood Hbad)
    as (images & w1 & Hloop & Hlen & Hfiles & Hcons).
  exists images, w1. split; [|split; [|split]].
  - unfold generate_batch. fold dir.
    unfold bind at 1. unfold emit at 1.
    unfold bind at 1. rewrite Hloop. reflexivity.
  - exact Hlen.
  - rewrite Hfiles. cbn [fs_log].
    now rewrite files_written_app, app_nil_r.
  - exact Hcons.
Qed.

End RenderMore.

Lemma generate_bad_colour_witness :
  CardGenerator.generate Examples.hex_pair (fun s => s)
    (fun _ _ => Examples.mono) Samples.bad_accent (u "学而不思则罔")
    (u "论语") [] (u "out/card.png") (u "modern") Examples.empty_world
  = (Raise (ValueError (u "invalid literal for int()")),
     Examples.empty_world).
Proof.
  apply (@generate_bad_colour Examples.hex_pair (fun s => s)
           (fun _ _ => Examples.mono) Samples.bad_accent (u "学而不思则罔")
           (u "论语") [] (u "out/card.png") (u "modern")
           Examples.empty_world).
  right. split; [eexists|]; vm_compute; reflexivity.
Defined.

Lemma generate_batch_stops_witness :
  exists (images : list image) (w' : world),
    CardGenerator.generate_batch Examples.hex_pair (fun _ => u "plain")
      (fun s => s) (fun _ _ => Examples.mono) Examples.generator
      ([CardGenerator.AQuote (Examples.quote "学而不思则罔" "观点" 8)]
         ++ Samples.numbered
         :: [CardGenerator.AQuote (Examples.quote "温故而知新" "观点" 7)])
      (u "out/cards") (u "论语") (u "minimal") Examples.empty_world
    = (Raise TypeError, w')
    /\ length images = 1%nat
    /\ files_written (fs_log w')
       = combine [u "out/cards/card_001.png"] (map Rendering.saved images)
    /\ console w' = [u "✓ 卡片已生成: out/cards/card_001.png"].
Proof.
  apply (@generate_batch_stops Examples.hex_pair (fun _ => u "plain")
           (fun s => s) (fun _ _ => Examples.mono) Examples.generator
           [CardGenerator.AQuote (Examples.quote "学而不思则罔" "观点" 8)]
           [CardGenerator.AQuote (Examples.quote "温故而知新" "观点" 7)]
           Samples.numbered (u "out/cards") (u "论语") (u "minimal")
           Examples.empty_world).
  - intros c [<- | [<- | [<- | []]]]; eexists; vm_compute; reflexivity.
  - constructor; [|constructor].
    split; eexists; vm_compute; reflexivity.
  - exact I.
Defined.

(** ** Fonts *)

Section FontFacts.

Import Fonts Further.

Variable truetype : str -> Z -> result Font.
Variable load_default : Font.

Lemma try_fonts_run (size : Z) (w : world) (fonts : list str) :
  exists loaded,
    try_fonts truetype load_default fonts size w = (Ok loaded, w)
    /\ (loaded = load_default
        \/ exists p,
             truetype p size = Ok loaded
             /\ path_exists w p = true /\ In p fonts).
Proof.
  induction fonts as [|f fonts (loaded & Hrun & Hsrc)].
  - exists load_default. split; [reflexivity | now left].
  - cbn [try_fonts]. cbv [bind exists_ ret].
    destruct (path_exists w f) eqn:Hf.
    + destruct (truetype f size) as [font|e] eqn:Ht.
      * exists font. split; [reflexivity|]. right. exists f.
        repeat split; auto. now left.
      * exists loaded. split; [exact Hrun|].
        destruct Hsrc as [-> | (p & Hp & Hex & Hin)]; [now left|].
        right. exists p. repeat split; auto. now right.
    + exists loaded. split; [exact Hrun|].
      destruct Hsrc as [-> | (p & Hp & Hex & Hin)]; [now left|].
      right. exists p. repeat split; auto. now right.
Qed.

End FontFacts.

(** X19. [_load_font] always finds a font.  It never fails with an
    exception that derives from [Exception] and it never touches the file
    system; the font it returns is the default font or one that
    [ImageFont.truetype] loaded from an existing file, the given path or a
    system font; and a given path that exists and loads is the font
    returned, with nothing printed. *)
Theorem load_font_total (truetype : str -> Z -> result Font)
    (load_default : Font) (font_path : option str) (size : Z) (w : world) :
  let run := Fonts._load_font truetype load_default font_path size w in
  existed (snd run) = existed w
  /\ fs_log (snd run) = fs_log w
  /\ match fst run with
     | Ok loaded =>
       Further.font_source truetype load_default font_path size w loaded
     | Raise e =>
       is_Exception e = false
       /\ exists p, font_path = Some p /\ truetype p size = Raise e
     end
  /\ (forall p loaded,
        font_path = Some p -> p <> [] -> path_exists w p = true ->
        truetype p size = Ok loaded -> run = (Ok loaded, w)).
Proof.
  intros run. subst run. unfold Fonts._load_font, Further.font_source.
  destruct (@try_fonts_run truetype load_default size w Fonts.system_fonts)
    as (sys & Hsys & Hsrc).
  assert (Hsrc' : sys = load_default
                  \/ exists p,
                       truetype p size = Ok sys
                       /\ path_exists w p = true
                       /\ (font_path = Some p \/ In p Fonts.system_fonts)).
  { destruct Hsrc as [-> | (p & Hp & Hex & Hin)]; [now left|].
    right. exists p. auto. }
  destruct font_path as [[|c s]|].
  - rewrite Hsys. cbn [fst snd]. repeat split; auto.
    intros p loaded [= <-] Hne. now destruct Hne.
  - cbv [bind exists_ ret raise].
    destruct (path_exists w (c :: s)) eqn:Hex.
    + destruct (truetype (c :: s) size) as [font|e] eqn:Ht.
      * cbn [fst snd]. repeat split.
        { right. exists (c :: s). auto. }
        { intros p loaded [= <-] _ _ Hl. rewrite Ht in Hl.
          now injection Hl as <-. }
      * destruct (is_Exception e) eqn:He.
        { unfold print. cbv beta iota.
          match goal with
          | |- context [Fonts.try_fonts _ _ _ _ ?w1] =>
            destruct (@try_fonts_run truetype load_default size w1
                        Fonts.system_fonts) as (sys2 & Hsys2 & Hsrc2)
          end.
          rewrite Hsys2. cbn [fst snd existed fs_log]. repeat split.
          - destruct Hsrc2 as [-> | (p & Hp & Hex2 & Hin)]; [now left|].
            right. exists p. repeat split; auto.
          - intros p loaded [= <-] _ _ Hl. rewrite Ht in Hl. discriminate. }
        { cbn [fst snd]. repeat split; auto.
          - now exists (c :: s).
          - intros p loaded [= <-] _ _ Hl. rewrite Ht in Hl. discriminate. }
    + rewrite Hsys. cbn [fst snd]. repeat split; auto.
      intros p loaded [= <-] _ Hex'. rewrite Hex in Hex'. discriminate.
  - rewrite Hsys. cbn [fst snd]. repeat split; auto. discriminate.
Qed.

Lemma load_font_total_witness :
  Fonts._load_font Samples.truetype_noto Examples.mono
    (Some (u "/usr/share/fonts/truetype/noto/NotoSansCJK-Regular.ttc")) 48
    Examples.full_world
  = (Ok Examples.mono, Examples.full_world).
Proof.
  apply (proj2 (proj2 (proj2 (load_font_total Samples.truetype_noto
           Examples.mono
           (Some (u "/usr/share/fonts/truetype/noto/NotoSansCJK-Regular.ttc"))
           48 Examples.full_world)))
         (u "/usr/share/fonts/truetype/noto/NotoSansCJK-Regular.ttc")).
  - reflexivity.
  - vm_compute. discriminate.
  - reflexivity.
  - vm_compute. reflexivity.
Defined.

(** ** Transcription: failures, the cached model, segments *)

Section StripFacts.

Import Segments.

Lemma lstrip_split (s : str) :
  exists pre, s = pre ++ lstrip s /\ forallb isspace pre = true.
Proof.
  induction s as [|c s (pre & Hs & Hpre)].
  - now exists [].
  - cbn [lstrip]. destruct (isspace c) eqn:Hc.
    + exists (c :: pre). cbn [forallb app]. rewrite Hc, Hpre.
      split; [now f_equal | reflexivity].
    + now exists [].
Qed.

Lemma lstrip_head (s : str) :
  match lstrip s with
  | c :: _ => isspace c = false
  | [] => True
  end.
Proof.
  induction s as [|c s IH]; [exact I|].
  cbn [lstrip]. destruct (isspace c) eqn:Hc; [exact IH | exact Hc].
Qed.

Lemma lstrip_snoc (s : str) (c : char) :
  isspace c = false -> lstrip (s ++ [c]) = lstrip s ++ [c].
Proof.
  intros Hc. induction s as [|x s IH]; cbn [app lstrip].
  - now rewrite Hc.
  - destruct (isspace x); [exact IH | reflexivity].
Qed.

Lemma rstrip_cons (c : char) (s : str) :
  isspace c = false -> rstrip (c :: s) = c :: rstrip s.
Proof.
  intros Hc. unfold rstrip. cbn [rev].
  rewrite (@lstrip_snoc (rev s) c Hc), rev_app_distr. reflexivity.
Qed.

Lemma forallb_rev {A} (f : A -> bool) (l : list A) :
  forallb f (rev l) = forallb f l.
Proof.
  induction l as [|x l IH]; [reflexivity|].
  cbn [rev forallb]. rewrite forallb_app, IH. cbn [forallb].
  rewrite andb_true_r. apply andb_comm.
Qed.

Lemma rstrip_split (s : str) :
  exists post, s = rstrip s ++ post /\ forallb isspace post = true.
Proof.
  destruct (lstrip_split (rev s)) as (pre & Hs & Hpre).
  exists (rev pre). split.
  - unfold rstrip. rewrite <- rev_app_distr, <- Hs. now rewrite rev_involutive.
  - now rewrite forallb_rev.
Qed.

Lemma rstrip_last (s : str) (d : char) :
  rstrip s <> [] -> isspace (last (rstrip s) d) = false.
Proof.
  unfold rstrip. pose proof (lstrip_head (rev s)) as H.
  destruct (lstrip (rev s)) as [|c r]; [easy|]. intros _.
  cbn [rev]. now rewrite last_last.
Qed.

Lemma strip_stripped (s : str) : Further.stripped s (strip s).
Proof.
  unfold Further.stripped, strip.
  destruct (lstrip_split s) as (pre & Hs & Hpre).
  destruct (rstrip_split (lstrip s)) as (post & Hl & Hpost).
  split.
  - exists pre, post. repeat split; try assumption.
    now rewrite <- Hl.
  - pose proof (lstrip_head s) as Hhead.
    destruct (lstrip s) as [|c r]; [exact I|].
    rewrite (@rstrip_cons c r Hhead). split; [exact Hhead|].
    rewrite <- (@rstrip_cons c r Hhead).
    apply rstrip_last. rewrite (@rstrip_cons c r Hhead). discriminate.
Qed.

Lemma segment_entry_ok (segment : value) :
  Further.well_formed segment ->
  exists entry,
    segment_entry segment = Ok entry /\ Further.entry_of segment entry.
Proof.
  intros (start & stop & t & d & -> & Hstart & Hstop & Htext).
  unfold segment_entry, getitem. rewrite Hstart, Hstop, Htext.
  cbn [rbind]. eexists. split; [reflexivity|].
  exists start, stop, t, (strip t). split; [|split].
  - now exists d.
  - apply strip_stripped.
  - reflexivity.
Qed.

Lemma segment_entries_ok (segments : list value) :
  Forall Further.well_formed segments ->
  exists entries,
    segment_entries segments = Ok entries
    /\ Forall2 Further.entry_of segments entries.
Proof.
  induction 1 as [|segment segments Hseg _ (entries & Hrun & Hall)].
  - exists []. split; [reflexivity | constructor].
  - destruct (segment_entry_ok Hseg) as (entry & He & Hentry).
    exists (entry :: entries). cbn [segment_entries].
    rewrite He, Hrun. split; [reflexivity | now constructor].
Qed.

End StripFacts.

Section TranscribeMore.

Import Transcriber Transcription Segments.

Variable load_model : str -> result WhisperModel.
Variable json_dumps : value -> str.

(** Case analysis on a run of [transcribe], innermost test first. *)
Ltac split_run H :=
  repeat
    (cbv beta iota in H; cbn [model language model_name] in H;
     match type of H with
     | context [match ?x with _ => _ end] =>
       lazymatch x with
       | context [match _ with _ => _ end] => fail
       | _ => destruct x eqn:?
       end
     end);
  cbv beta iota in H.

Ltac split_goal :=
  repeat
    (cbv beta iota; cbn [model language model_name];
     match goal with
     | |- context [match ?x with _ => _ end] =>
       lazymatch x with
       | context [match _ with _ => _ end] => fail
       | _ => destruct x eqn:?
       end
     end);
  cbv beta iota.

(** Without an output path [transcribe] leaves the files alone. *)
Lemma transcribe_none_files (self : AudioTranscriber) (audio_path : str)
    (verbose : bool) (w : world) :
  let run := transcribe load_model json_dumps self audio_path None verbose w in
  existed (snd run) = existed w /\ fs_log (snd run) = fs_log w.
Proof.
  intros run. subst run. unfold transcribe, _load_model.
  cbv [bind exists_ raise ret print lift].
  split_goal; split; reflexivity.
Qed.

(** What a successful run returns of the transcriber. *)
Lemma transcribe_ok_model (self self' : AudioTranscriber) (audio_path : str)
    (output_path : option str) (verbose : bool) (w w' : world) (res : dict) :
  transcribe load_model json_dumps self audio_path output_path verbose w
  = (Ok (res, self'), w') ->
  (exists m, model self' = Some m /\ model_in_use load_model self = Ok m)
  /\ model_name self' = model_name self
  /\ language self' = language self.
Proof.
  unfold transcribe, _load_model, model_in_use.
  cbv [bind exists_ raise ret print lift emit]. intros H.
  destruct (negb _); [discriminate|].
  destruct (model self) as [m|] eqn:Hm.
  - assert (Hself : self' = self).
    { split_run H; try discriminate; now injection H as _ <- _. }
    subst self'. rewrite Hm. repeat split. now exists m.
  - destruct (load_model (model_name self)) as [m|] eqn:Hl;
      [|discriminate].
    assert (Hself : self' = {| model_name := model_name self;
                               language := language self;
                               model := Some m |}).
    { split_run H; try discriminate; now injection H as _ <- _. }
    subst self'. repeat split. now exists m.
Qed.

Lemma transcribe_cached (self : AudioTranscriber) (m : WhisperModel)
    (load_model' : str -> result WhisperModel) (audio_path : str)
    (output_path : option str) (verbose : bool) (w : world) :
  model self = Some m ->
  transcribe load_model' json_dumps self audio_path output_path verbose w
  = transcribe load_model json_dumps self audio_path output_path verbose w.
Proof.
  intros Hm. unfold transcribe, _load_model. now rewrite Hm.
Qed.

(** X20. [transcribe] fails before it writes.  When the audio file does
    not exist it raises [FileNotFoundError] naming the path, and nothing
    has been loaded, printed or written; when loading the speech model
    fails, or the model fails on the audio file, the failure is passed on
    and no directory or file has been created, whatever the output
    path. *)
Theorem transcribe_failures (self : AudioTranscriber) (audio_path : str)
    (output_path : option str) (verbose : bool) (w : world) :
  let source := Pathlib.str_of (Pathlib.Path_of audio_path) in
  let run :=
    transcribe load_model json_dumps self audio_path output_path verbose w in
  (path_exists w source = false ->
   run = (Raise (FileNotFoundError (u "音频文件不存在: " ++ source)), w))
  /\ (forall e,
        path_exists w source = true ->
        model_in_use load_model self = Raise e ->
        fst run = Raise e /\ fs_log (snd run) = fs_log w)
  /\ (forall m e,
        path_exists w source = true ->
        model_in_use load_model self = Ok m ->
        m source (language self) = Raise e ->
        fst run = Raise e /\ fs_log (snd run) = fs_log w).
Proof.
  intros source run. subst source run.
  unfold transcribe, _load_model, model_in_use.
  cbv [bind exists_ raise ret print lift]. split; [|split].
  - intros ->. reflexivity.
  - intros e -> Hm. cbn [negb].
    destruct (model self); [discriminate|]. rewrite Hm. now split.
  - intros m e -> Hm Hres. cbn [negb].
    destruct (model self) as [m'|] eqn:Hself.
    + injection Hm as ->. destruct verbose;
        cbv beta iota; rewrite Hself, Hres; now split.
    + rewrite Hm. destruct verbose;
        cbv beta iota; cbn [model language]; rewrite Hres; now split.
Qed.

(** X21. A result without text leaves half of the output.  When the
    speech model returns a result that has no entry ['text'] and an output
    path is given, [transcribe] fails with [KeyError: 'text'] after it has
    created the text file, which stays empty; the JSON file is not
    written. *)
Theorem transcribe_missing_text (self : AudioTranscriber) (audio_path : str)
    (c : char) (s : str) (verbose : bool) (w : world) (m : WhisperModel)
    (res : dict) :
  let source := Pathlib.str_of (Pathlib.Path_of audio_path) in
  path_exists w source = true ->
  model_in_use load_model self = Ok m ->
  m source (language self) = Ok res ->
  Dict.lookup res (u "text") = None ->
  Pathlib.name (Pathlib.Path_of (c :: s)) <> [] ->
  exists text_path w',
    transcribe load_model json_dumps self audio_path (Some (c :: s)) verbose w
    = (Raise (KeyError (u "text")), w')
    /\ sibling (Pathlib.Path_of (c :: s)) text_path (u ".txt")
    /\ files_written (fs_log w')
       = files_written (fs_log w) ++ [(Pathlib.str_of text_path, TextFile [])].
Proof.
  intros source Hexists Hmodel Hres Htext Hname. subst source.
  destruct (@with_suffix_sibling (Pathlib.Path_of (c :: s)) (u ".txt")
              Hname plain_txt) as (text_path & Htxt & _ & Hsib).
  exists text_path.
  unfold transcribe, model_in_use, _load_model, write_text in *.
  unfold bind at 1. unfold exists_ at 1. rewrite Hexists. cbn [negb].
  destruct (model self) as [m'|] eqn:Hm.
  - injection Hmodel as ->.
    destruct verbose;
      cbv [bind ret print lift emit raise]; rewrite Hm;
      cbv beta iota; cbn [model language]; rewrite Hres; cbv beta iota;
      rewrite Htxt; cbv beta iota; rewrite Htext; cbv beta iota;
      eexists; (split; [reflexivity|]); (split; [exact Hsib|]);
      cbn [fs_log]; rewrite !files_written_app; cbn [files_written];
      now rewrite app_nil_r.
  - destruct verbose;
      cbv [bind ret print lift emit raise]; rewrite Hmodel;
      cbv beta iota; cbn [model language]; rewrite Hres; cbv beta iota;
      rewrite Htxt; cbv beta iota; rewrite Htext; cbv beta iota;
      eexists; (split; [reflexivity|]); (split; [exact Hsib|]);
      cbn [fs_log]; rewrite !files_written_app; cbn [files_written];
      now rewrite app_nil_r.
Qed.

(** X22. The speech model is loaded once.  The transcriber a successful
    [transcribe] leaves behind holds the model that was used (the one it
    had, or the one just loaded) under the same name and language, and
    every later call on it runs without [whisper.load_model]: it does the
    same whatever loading would do. *)
Theorem transcribe_caches_model (self self' : AudioTranscriber)
    (audio_path : str) (output_path : option str) (verbose : bool)
    (w w' : world) (res : dict) :
  transcribe load_model json_dumps self audio_path output_path verbose w
  = (Ok (res, self'), w') ->
  (exists m, model self' = Some m /\ model_in_use load_model self = Ok m)
  /\ model_name self' = model_name self
  /\ language self' = language self
  /\ forall load_model' audio_path' output_path' verbose' w2,
       transcribe load_model' json_dumps self' audio_path' output_path'
                  verbose' w2
       = transcribe load_model json_dumps self' audio_path' output_path'
                    verbose' w2.
Proof.
  intros Hrun.
  pose proof Hrun as Hok. apply transcribe_ok_model in Hok.
  destruct Hok as ((m & Hm & Huse) & Hname & Hlang).
  split; [now exists m|]. split; [exact Hname|]. split; [exact Hlang|].
  intros load_model' audio_path' output_path' verbose' w2.
  eapply transcribe_cached. exact Hm.
Qed.

(** X23. One entry per segment.  When [transcribe] returns a result
    whose ['segments'] are dictionaries with the keys ['start'], ['end']
    and a string under ['text'], [transcribe_with_timestamps] returns, after
    the same effects, one entry per segment, in order, that holds the
    segment's start and end as they are and its text without the
    whitespace around it. *)
Theorem transcribe_with_timestamps_entries (self self' : AudioTranscriber)
    (audio_path : str) (output_path : option str) (w w' : world)
    (res : dict) (segments : list value) :
  transcribe load_model json_dumps self audio_path output_path true w
  = (Ok (res, self'), w') ->
  Dict.get res (u "segments") (VList []) = VList segments ->
  Forall Further.well_formed segments ->
  exists entries,
    transcribe_with_timestamps load_model json_dumps self audio_path
      output_path w = (Ok (entries, self'), w')
    /\ Forall2 Further.entry_of segments entries.
Proof.
  intros Hrun Hsegs Hwf.
  destruct (@segment_entries_ok segments Hwf) as (entries & Hentries & Hall).
  exists entries. split; [|exact Hall].
  unfold transcribe_with_timestamps. unfold bind at 1. rewrite Hrun.
  cbv [bind lift ret]. rewrite Hsegs. cbn [Extractor.iterate].
  now rewrite Hentries.
Qed.

Lemma get_full_text_run (self : AudioTranscriber) (audio_path : str)
    (w : world) :
  get_full_text load_model json_dumps self audio_path w
  = match transcribe load_model json_dumps self audio_path None false w with
    | (Ok (res, self'), w') =>
      (match Dict.lookup res (u "text") with
       | Some t => Ok (t, self')
       | None => Raise (KeyError (u "text"))
       end, w')
    | (Raise e, w') => (Raise e, w')
    end.
Proof.
  unfold get_full_text. cbv [bind lift ret getitem].
  destruct (transcribe _ _ _ _ _ _ _) as [[[res self']|e] w1];
    [|reflexivity].
  now destruct (Dict.lookup res (u "text")).
Qed.

(** X24. [get_full_text] reads only.  It never creates a directory or a
    file; and when the transcription without output path and messages
    returns a result, [get_full_text] returns what the result holds under
    ['text'], or fails with [KeyError: 'text'] when it holds nothing
    there. *)
Theorem get_full_text_reads_only (self : AudioTranscriber)
    (audio_path : str) (w : world) :
  let run := get_full_text load_model json_dumps self audio_path w in
  existed (snd run) = existed w
  /\ fs_log (snd run) = fs_log w
  /\ forall res self' w',
       transcribe load_model json_dumps self audio_path None false w
       = (Ok (res, self'), w') ->
       run = (match Dict.lookup res (u "text") with
              | Some t => Ok (t, self')
              | None => Raise (KeyError (u "text"))
              end, w').
Proof.
  intros run. subst run. rewrite get_full_text_run.
  destruct (transcribe_none_files self audio_path false w) as [Hex Hlog].
  revert Hex Hlog.
  destruct (transcribe load_model json_dumps self audio_path None false w)
    as [[[res self']|e] w1]; cbn [fst snd]; intros Hex Hlog.
  - split; [|split].
    + now destruct (Dict.lookup res (u "text")).
    + now destruct (Dict.lookup res (u "text")).
    + now intros ? ? ? [= <- <- <-].
  - repeat split; try assumption. discriminate.
Qed.

End TranscribeMore.

Lemma transcribe_failures_witness :
  Transcriber.transcribe Examples.canned_whisper Samples.dumps_stub
    (Transcriber.AudioTranscriber_init (u "base") (u "zh"))
    (u "./talks//lesson.wav") (Some (u "notes/lesson.txt")) true
    Examples.empty_world
  = (Raise (FileNotFoundError (u "音频文件不存在: talks/lesson.wav")),
     Examples.empty_world)
  /\ fst (Transcriber.transcribe Samples.broken_whisper Samples.dumps_stub
            (Transcriber.AudioTranscriber_init (u "large") (u "zh"))
            (u "lesson.wav") (Some (u "notes/lesson.txt")) true
            Examples.full_world)
     = Raise (RuntimeError (u "CUDA out of memory")).
Proof.
  split.
  - apply (proj1 (transcribe_failures Examples.canned_whisper
                    Samples.dumps_stub
                    (Transcriber.AudioTranscriber_init (u "base") (u "zh"))
                    (u "./talks//lesson.wav") (Some (u "notes/lesson.txt"))
                    true Examples.empty_world)).
    vm_compute. reflexivity.
  - apply (proj1 (proj2 (transcribe_failures Samples.broken_whisper
                           Samples.dumps_stub
                           (Transcriber.AudioTranscriber_init (u "large")
                              (u "zh"))
                           (u "lesson.wav") (Some (u "notes/lesson.txt"))
                           true Examples.full_world))
             (RuntimeError (u "CUDA out of memory")));
      reflexivity.
Defined.

Lemma transcribe_missing_text_witness :
  exists text_path w',
    Transcriber.transcribe Samples.silent_whisper Samples.dumps_stub
      (Transcriber.AudioTranscriber_init (u "base") (u "zh"))
      (u "lesson.wav") (Some (u "notes/lesson.out")) false
      Examples.full_world
    = (Raise (KeyError (u "text")), w')
    /\ Transcription.sibling (Pathlib.Path_of (u "notes/lesson.out"))
         text_path (u ".txt")
    /\ files_written (fs_log w')
       = [] ++ [(Pathlib.str_of text_path, TextFile [])].
Proof.
  apply (@transcribe_missing_text Samples.silent_whisper Samples.dumps_stub
           (Transcriber.AudioTranscriber_init (u "base") (u "zh"))
           (u "lesson.wav") 0x6E%N (u "otes/lesson.out") false
           Examples.full_world
           (fun _ _ => Ok [(u "segments", VList [])])
           [(u "segments", VList [])]).
  - reflexivity.
  - reflexivity.
  - reflexivity.
  - vm_compute. reflexivity.
  - vm_compute. discriminate.
Defined.

Lemma transcribe_caches_model_witness :
  exists self' w',
    Transcriber.transcribe Examples.canned_whisper Samples.dumps_stub
      (Transcriber.AudioTranscriber_init (u "base") (u "zh"))
      (u "lesson.wav") None true Examples.full_world
    = (Ok (Examples.heard, self'), w')
    /\ Transcriber.transcribe Samples.broken_whisper Samples.dumps_stub
         self' (u "lesson.wav") None true w'
       = Transcriber.transcribe Examples.canned_whisper Samples.dumps_stub
           self' (u "lesson.wav") None true w'.
Proof.
  do 2 eexists. split; [vm_compute; reflexivity|].
  eapply (fun H =>
            proj2 (proj2 (proj2
              (@transcribe_caches_model Examples.canned_whisper
                 Samples.dumps_stub
                 (Transcriber.AudioTranscriber_init (u "base") (u "zh"))
                 _ (u "lesson.wav") None true Examples.full_world _
                 Examples.heard H)))).
  vm_compute. reflexivity.
Defined.

Lemma transcribe_with_timestamps_entries_witness :
  exists self' w' entries,
    Transcriber.transcribe Samples.padded_whisper Samples.dumps_stub
      (Transcriber.AudioTranscriber_init (u "base") (u "zh"))
      (u "lesson.wav") None true Examples.full_world
    = (Ok (Samples.heard_twice, self'), w')
    /\ Segments.transcribe_with_timestamps Samples.padded_whisper
         Samples.dumps_stub
         (Transcriber.AudioTranscriber_init (u "base") (u "zh"))
         (u "lesson.wav") None Examples.full_world
       = (Ok (entries, self'), w')
    /\ length entries = 2%nat.
Proof.
  do 2 eexists.
  assert (Hrun :
    Transcriber.transcribe Samples.padded_whisper Samples.dumps_stub
      (Transcriber.AudioTranscriber_init (u "base") (u "zh"))
      (u "lesson.wav") None true Examples.full_world
    = (Ok (Samples.heard_twice, _), _)) by (vm_compute; reflexivity).
  destruct (@transcribe_with_timestamps_entries Samples.padded_whisper
              Samples.dumps_stub
              (Transcriber.AudioTranscriber_init (u "base") (u "zh")) _
              (u "lesson.wav") None Examples.full_world _
              Samples.heard_twice
              [ VDict [ (u "id", VInt 0); (u "start", VFloat 0);
                        (u "end", VFloat (5 # 2));
                        (u "text", VStr (u " 学而时习之")) ];
                VDict [ (u "id", VInt 1); (u "start", VFloat (5 # 2));
                        (u "end", VFloat 5);
                        (u "text", VStr (u " 不亦说乎 ")) ] ]
              Hrun)
    as (entries & Hentries & Hall).
  - vm_compute. reflexivity.
  - constructor; [|constructor; [|constructor]].
    + exists (VFloat 0), (VFloat (5 # 2)), (u " 学而时习之").
      eexists. split; [reflexivity|]. repeat split; vm_compute; reflexivity.
    + exists (VFloat (5 # 2)), (VFloat 5), (u " 不亦说乎 ").
      eexists. split; [reflexivity|]. repeat split; vm_compute; reflexivity.
  - exists entries. split; [exact Hrun|]. split; [exact Hentries|].
    apply Forall2_length in Hall. now rewrite <- Hall.
Defined.

(** ** The command line: what the handlers catch *)

Section CliMore.

Import Cli Further.

Variable config : Config.Config.
Variable transcribe_stage : str -> str -> str -> option str -> M dict.
Variable extract_stage :
  list value -> str -> option str -> Z -> M (list Extractor.Quote).
Variable generate_stage :
  list value -> list Extractor.Quote -> str -> str -> str -> M (list str).
Variable load_json : str -> M value.
Variable render_table : list Extractor.Quote -> result str.
Variable str_of_float : Q -> str.


(** X27. What the [generate] command does before its [try] is not
    recovered.  When the quotes file cannot be loaded, the exception
    leaves the command as it is: no failure message is printed, no card
    is generated, and the exit is not the [typer.Exit(1)] of the
    handler. *)
Theorem generate_command_load_fails (quotes_path title style : str)
    (min_score : Q) (max_count : Z) (o : option str) (w w1 : world)
    (e : exn) :
  load_json quotes_path
    (printed w [u "[bold cyan]开始生成金句卡片...[/bold cyan]"])
  = (Raise e, w1) ->
  run_blocks
    (generate config generate_stage load_json quotes_path title style
       min_score max_count)
    (start o) w
  = (Raise e, w1).
Proof.
  intros Hload. unfold generate, printed in *. cbn [run_blocks].
  cbv [bind print] in *.
  match goal with
  | |- context [load_json ?a ?w0] =>
    replace (load_json a w0) with (Raise (A := value) e, w1)
      by (symmetry; exact Hload)
  end.
  reflexivity.
Qed.

End CliMore.


Lemma generate_command_load_fails_witness :
  Cli.run_blocks
    (Cli.generate Examples.default_Config Examples.no_cards
       (fun path => raise (FileNotFoundError path)) (u "quotes.json")
       (u "论语") (u "minimal") 0 0)
    (Cli.start None) Examples.empty_world
  = (Raise (FileNotFoundError (u "quotes.json")),
     Further.printed Examples.empty_world
       [u "[bold cyan]开始生成金句卡片...[/bold cyan]"]).
Proof.
  apply (@generate_command_load_fails Examples.default_Config
           Examples.no_cards (fun path => raise (FileNotFoundError path))
           (u "quotes.json") (u "论语") (u "minimal") 0 0 None
           Examples.empty_world).
  reflexivity.
Defined.

(** ** From the transcription to the extraction *)

Section PipelineFiles.

Import Pathlib Paths Transcriber Transcription.

Variable load_model : str -> result WhisperModel.
Variable json_dumps : value -> str.

Lemma transcript_component : component (u "transcript.txt").
Proof.
  split; [reflexivity|]. vm_compute. intuition discriminate.
Qed.

(** The transcript keeps its name when given the suffix [.txt]. *)
Lemma with_suffix_transcript (dir : Path) :
  with_suffix (joinpath dir (u "transcript.txt")) (u ".txt")
  = Ok (joinpath dir (u "transcript.txt"))
  /\ with_suffix (joinpath dir (u "transcript.txt")) (u ".json")
     = Ok (joinpath dir (u "transcript.json")).
Proof.
  assert (Hjson : component (u "transcript.json"))
    by (split; [reflexivity | vm_compute; intuition discriminate]).
  rewrite !(joinpath_component dir transcript_component).
  rewrite (joinpath_component dir Hjson).
  unfold with_suffix, stem, name. cbn [parts root].
  rewrite last_last, removelast_last.
  change (nonempty (u "transcript.txt")) with true. cbv iota.
  replace (stem_of (u "transcript.txt")) with (u "transcript")
    by (vm_compute; reflexivity).
  replace (u "transcript" ++ u ".txt") with (u "transcript.txt")
    by (vm_compute; reflexivity).
  replace (u "transcript" ++ u ".json") with (u "transcript.json")
    by (vm_compute; reflexivity).
  split; reflexivity.
Qed.

Lemma written_exists (p : str) (c : content) (log : list fs_event) :
  In (p, c) (files_written log) -> existsb (touches p) log = true.
Proof.
  induction log as [|[d|f c'] log IH]; cbn [files_written existsb touches].
  - easy.
  - intros H. rewrite (IH H). apply orb_true_r.
  - intros [[= -> _] | H].
    + now rewrite str_eqb_refl.
    + rewrite (IH H). apply orb_true_r.
Qed.

(** A run of [transcribe] that saves its result. *)
Lemma transcribe_saved (self : AudioTranscriber) (audio_path : str)
    (c : char) (s : str) (verbose : bool) (w : world) (m : WhisperModel)
    (res : dict) (t : str) (text_path json_path : Path) :
  path_exists w (str_of (Path_of audio_path)) = true ->
  model_in_use load_model self = Ok m ->
  m (str_of (Path_of audio_path)) (language self) = Ok res ->
  Dict.lookup res (u "text") = Some (VStr t) ->
  with_suffix (Path_of (c :: s)) (u ".txt") = Ok text_path ->
  with_suffix (Path_of (c :: s)) (u ".json") = Ok json_path ->
  exists self' w',
    transcribe load_model json_dumps self audio_path (Some (c :: s)) verbose w
    = (Ok (res, self'), w')
    /\ files_written (fs_log w')
       = files_written (fs_log w)
           ++ [ (str_of text_path, TextFile t);
                (str_of json_path, TextFile (json_dumps (VDict res))) ].
Proof.
  intros Hexists Hmodel Hres Htext Htxt Hjson.
  unfold transcribe, model_in_use, _load_model, write_text in *.
  unfold bind at 1. unfold exists_ at 1. rewrite Hexists. cbn [negb].
  destruct (model self) as [m'|] eqn:Hm.
  - injection Hmodel as ->.
    destruct verbose;
      cbv [bind ret print lift emit]; rewrite Hm;
      cbv beta iota; cbn [model language]; rewrite Hres; cbv beta iota;
      rewrite Htxt; cbv beta iota; rewrite Htext; cbv beta iota;
      rewrite Hjson; cbv beta iota;
      eexists _, _; (split; [reflexivity|]); cbn [fs_log];
      rewrite !files_written_app, <- !app_assoc; auto.
  - destruct verbose;
      cbv [bind ret print lift emit]; rewrite Hmodel;
      cbv beta iota; cbn [model language]; rewrite Hres; cbv beta iota;
      rewrite Htxt; cbv beta iota; rewrite Htext; cbv beta iota;
      rewrite Hjson; cbv beta iota;
      eexists _, _; (split; [reflexivity|]); cbn [fs_log];
      rewrite !files_written_app, <- !app_assoc; auto.
Qed.

(** X26. The transcript is where the extraction looks for it.  [pipeline]
    gives [transcribe] the output path [transcript.txt] in the output
    directory and [extract_from_file] the same path as input.  For every
    output directory, an audio file that exists and a speech model that
    returns a text, [transcribe] with that output path writes the text to
    that very path (the suffix [.txt] replaces itself) and the result to
    [transcript.json] beside it, so that afterwards the path exists, as
    [extract_from_file] requires. *)
Theorem pipeline_transcript_is_read (self : AudioTranscriber)
    (audio_path : str) (verbose : bool) (w : world) (m : WhisperModel)
    (res : dict) (t : str) (dir : Path) :
  normal dir ->
  path_exists w (str_of (Path_of audio_path)) = true ->
  model_in_use load_model self = Ok m ->
  m (str_of (Path_of audio_path)) (language self) = Ok res ->
  Dict.lookup res (u "text") = Some (VStr t) ->
  let transcript := str_of (joinpath dir (u "transcript.txt")) in
  exists self' w',
    transcribe load_model json_dumps self audio_path (Some transcript)
               verbose w
    = (Ok (res, self'), w')
    /\ files_written (fs_log w')
       = files_written (fs_log w)
           ++ [ (transcript, TextFile t);
                (str_of (joinpath dir (u "transcript.json")),
                 TextFile (json_dumps (VDict res))) ]
    /\ path_exists w' (str_of (Path_of transcript)) = true.
Proof.
  intros Hdir Hexists Hmodel Hres Htext transcript. subst transcript.
  set (target := joinpath dir (u "transcript.txt")).
  assert (Hnormal : normal target)
    by (apply joinpath_normal; [assumption | apply transcript_component]).
  pose proof (Path_of_str_of Hnormal) as Hback.
  destruct (with_suffix_transcript dir) as [Htxt Hjson]. fold target in Htxt, Hjson.
  destruct (str_of target) as [|c s] eqn:Hstr.
  - exfalso. unfold target in Hback.
    rewrite (joinpath_component dir transcript_component) in Hback.
    apply (f_equal parts) in Hback. cbn [parts] in Hback.
    destruct (parts dir); discriminate Hback.
  - rewrite <- Hback in Htxt at 1. rewrite <- Hback in Hjson at 1.
    destruct (@transcribe_saved self audio_path c s verbose w m res t
                target (joinpath dir (u "transcript.json"))
                Hexists Hmodel Hres Htext Htxt Hjson)
      as (self' & w' & Hrun & Hfiles).
    exists self', w'. rewrite Hback, Hstr in *.
    split; [exact Hrun|]. split; [exact Hfiles|].
    unfold path_exists. rewrite (@written_exists (c :: s) (TextFile t)).
    + apply orb_true_r.
    + rewrite Hfiles. apply in_or_app. right. now left.
Qed.

End PipelineFiles.

Lemma pipeline_transcript_is_read_witness :
  exists self' w',
    Transcriber.transcribe Examples.canned_whisper Samples.dumps_stub
      (Transcriber.AudioTranscriber_init (u "base") (u "zh"))
      (u "lesson.wav") (Some (u "output/lesson/transcript.txt")) true
      Examples.full_world
    = (Ok (Examples.heard, self'), w')
    /\ files_written (fs_log w')
       = [ (u "output/lesson/transcript.txt", TextFile (u "学而时习之"));
           (u "output/lesson/transcript.json", TextFile (u "[...]")) ].
Proof.
  destruct (@pipeline_transcript_is_read Examples.canned_whisper
              Samples.dumps_stub
              (Transcriber.AudioTranscriber_init (u "base") (u "zh"))
              (u "lesson.wav") true Examples.full_world
              (fun _ _ => Ok Examples.heard) Examples.heard (u "学而时习之")
              (Further.pipeline_dir (u "lesson.wav") None))
    as (self' & w' & Hrun & Hfiles & _).
  - apply joinpath_normal; [apply Path_of_normal|].
    split; [reflexivity | vm_compute; intuition discriminate].
  - reflexivity.
  - reflexivity.
  - reflexivity.
  - reflexivity.
  - exists self', w'. split; [exact Hrun | exact Hfiles].
Defined.

(** ** The body of a card *)

Section BodyFacts.

Import CardGenerator Wrapping Rendering Further.

Variable int16 : str -> result Z.
Variable upper : str -> str.
Variable truetype : str -> Z -> Font.

(** Every line fits, or is one unit of the text that is too wide. *)
Lemma wrap_lines_fit (text : str) (f : Font) (max_width : Z) :
  Forall (fun line =>
            bbox_width f line <= max_width
            \/ (In line (units text) /\ max_width < bbox_width f line))
         (_wrap_text text f max_width).
Proof.
  destruct (wrap_text_lines text f max_width)
    as (groups & -> & Hc & _ & Hok & _).
  apply Forall_map. rewrite Forall_forall in *. intros g Hg.
  destruct (Hok g Hg) as [Hfit | (unit & -> & Hwide)]; [now left|].
  right. cbn [join]. split; [|exact Hwide].
  rewrite <- Hc. apply in_concat. exists [unit]. split; [exact Hg | now left].
Qed.

Lemma draw_lines_from_spec (self : CardGenerator) (x : str -> Z) (text_y : Z)
    (factor : Q) (fill : rgb) (P : draw_op -> Prop) (lines : list str) :
  forall k,
    (forall line y,
       In line lines -> P (DrawText (x line) y line (font self) fill)) ->
    map drawn_text (draw_lines_from self x text_y factor fill k lines) = lines
    /\ Forall P (draw_lines_from self x text_y factor fill k lines).
Proof.
  induction lines as [|line lines IH]; intros k HP.
  - split; [reflexivity | constructor].
  - destruct (IH (S k)) as [Hmap Hall].
    { intros l y Hl. apply HP. now right. }
    cbn [draw_lines_from map drawn_text]. split.
    + now rewrite Hmap.
    + constructor; [apply HP; now left | exact Hall].
Qed.

Lemma draw_lines_spec (self : CardGenerator) (x : str -> Z) (text_y : Z)
    (factor : Q) (P : draw_op -> Prop) (lines : list str)
    (ops : list draw_op) :
  draw_lines int16 self x text_y factor lines = Ok ops ->
  (forall line y fill,
     In line lines -> P (DrawText (x line) y line (font self) fill)) ->
  map drawn_text ops = lines /\ Forall P ops.
Proof.
  unfold draw_lines. intros Hrun HP. destruct lines as [|line lines].
  - injection Hrun as <-. split; [reflexivity | constructor].
  - destruct (_hex_to_rgb int16 (text_color self)) as [fill|];
      [|discriminate].
    cbn [rbind] in Hrun. injection Hrun as <-.
    apply (@draw_lines_from_spec self x text_y factor fill P (line :: lines)
             0%nat).
    intros l y Hl. now apply HP.
Qed.

(** X28. The quote stays inside the right padding.  In the minimal and
    the modern template (any style but ["elegant"]), the operations drawn
    for the body are the lines of [_wrap_text] for the width of the body,
    one text each and in order, in the body font; and each of them ends at
    or before the right padding of the card, unless it is a single unit of
    the text that is wider than the body by itself. *)
Theorem body_inside_margin (self : CardGenerator)
    (style quote_text title subtitle : str) (ops : list draw_op) :
  Rendering.template int16 upper truetype self style quote_text title
    subtitle = Ok ops ->
  str_eqb style (u "elegant") = false ->
  exists head body tail,
    ops = head ++ body ++ tail
    /\ map drawn_text body
       = _wrap_text quote_text (font self) (body_width self style)
    /\ Forall (inside_margin self style quote_text) body.
Proof.
  intros Hrun Hstyle. unfold Rendering.template in Hrun.
  unfold inside_margin, body_width. rewrite Hstyle in *.
  assert (Hmin :
    _draw_minimal_card int16 truetype self quote_text title subtitle
    = Ok ops ->
    exists head body tail,
      ops = head ++ body ++ tail
      /\ map drawn_text body
         = _wrap_text quote_text (font self) (width self - 2 * padding self)
      /\ Forall (fun op =>
           match op with
           | DrawText x _ s f _ =>
             f = font self
             /\ (x + bbox_width f s <= width self - padding self
                 \/ (In s (units quote_text)
                     /\ width self - 2 * padding self < bbox_width f s))
           | _ => False
           end) body).
  { unfold _draw_minimal_card. intros H.
    destruct (_hex_to_rgb int16 (accent_color self)) as [accent|];
      [|discriminate].
    cbn [rbind] in H.
    destruct (_hex_to_rgb int16 (text_color self)) as [colour|];
      [|discriminate].
    cbn [rbind] in H.
    destruct (draw_lines int16 self _ _ _ _) as [body|] eqn:Hbody;
      [|discriminate].
    cbn [rbind] in H. injection H as <-.
    match goal with
    | |- exists _ _ _, (?a :: ?b :: ?c :: body ++ ?t) = _ /\ _ =>
      exists [a; b; c], body, t
    end.
    split; [reflexivity|].
    eapply draw_lines_spec; [exact Hbody|].
    intros line y fill Hline. split; [reflexivity|].
    pose proof (wrap_lines_fit quote_text (font self)
                  (width self - 2 * padding self)) as Hfit.
    rewrite Forall_forall in Hfit.
    destruct (Hfit line Hline) as [Hle | Hwide]; [left; lia | now right]. }
  destruct (str_eqb style (u "minimal")) eqn:Emin.
  { apply str_eqb_eq in Emin. subst style.
    change (str_eqb (u "minimal") (u "modern")) with false. cbv iota.
    now apply Hmin. }
  destruct (str_eqb style (u "modern")); [|now apply Hmin].
  clear Hmin. unfold _draw_modern_card in Hrun.
  destruct (_hex_to_rgb int16 (accent_color self)) as [accent|];
    [|discriminate].
  cbn [rbind] in Hrun.
  destruct (draw_lines int16 self _ _ _ _) as [body|] eqn:Hbody;
    [|discriminate].
  cbn [rbind] in Hrun.
  match type of Hrun with
  | rbind ?sub _ = _ => destruct sub as [tail|]; [|discriminate]
  end.
  cbn [rbind] in Hrun. injection Hrun as <-.
  match goal with
  | |- exists _ _ _, (?a :: ?b :: body ++ tail) = _ /\ _ =>
    exists [a; b], body, tail
  end.
  split; [reflexivity|].
  eapply draw_lines_spec; [exact Hbody|].
  intros line y fill Hline. split; [reflexivity|].
  pose proof (wrap_lines_fit quote_text (font self)
                (width self - padding self - (padding self + 20) - 40))
    as Hfit.
  rewrite Forall_forall in Hfit.
  destruct (Hfit line Hline) as [Hle | Hwide]; [left; lia | now right].
Qed.

End BodyFacts.

Lemma body_inside_margin_witness :
  exists ops head body tail,
    Rendering.template Examples.hex_pair (fun s => s)
      (fun _ _ => Examples.mono) Examples.generator (u "modern")
      (u "学而时习之，不亦说乎") (u "论语") (u "观点") = Ok ops
    /\ ops = head ++ body ++ tail
    /\ map Further.drawn_text body
       = CardGenerator._wrap_text (u "学而时习之，不亦说乎") Examples.mono
           (Further.body_width Examples.generator (u "modern"))
    /\ Forall (Further.inside_margin Examples.generator (u "modern")
                 (u "学而时习之，不亦说乎")) body.
Proof.
  eexists.
  assert (Hrun :
    Rendering.template Examples.hex_pair (fun s => s)
      (fun _ _ => Examples.mono) Examples.generator (u "modern")
      (u "学而时习之，不亦说乎") (u "论语") (u "观点") = Ok _)
    by (vm_compute; reflexivity).
  destruct (@body_inside_margin Examples.hex_pair (fun s => s)
              (fun _ _ => Examples.mono) Examples.generator (u "modern")
              (u "学而时习之，不亦说乎") (u "论语") (u "观点") _ Hrun eq_refl)
    as (head & body & tail & Hops & Hmap & Hall).
  exists head, body, tail. repeat split; assumption.
Defined.

(** ** The elegant template *)

Section ElegantFacts.

Import CardGenerator Rendering Further.

Variable int16 : str -> result Z.

Lemma centred_spec (self : CardGenerator) (f : Font) (s : str) :
  0 <= width self - bbox_w (textbbox f s) - 2 * centred self f s <= 1.
Proof.
  unfold centred.
  pose proof (Z.div_mod (width self - bbox_w (textbbox f s)) 2) as Hdiv.
  pose proof (Z.mod_pos_bound (width self - bbox_w (textbbox f s)) 2).
  lia.
Qed.

(** X29. The elegant template centres its texts.  Every text it draws,
    the title, each line of the quote and the subtitle, is placed so that
    the space to its left and the space to its right, by the width
    [draw.textbbox] reports, differ by at most one pixel; and the lines of
    the quote are those of [_wrap_text] for the card width less twice the
    padding and 40 pixels, in order. *)
Theorem elegant_texts_centred (self : CardGenerator)
    (quote_text title subtitle : str) (ops : list draw_op) :
  _draw_elegant_card int16 self quote_text title subtitle = Ok ops ->
  Forall (centred_text self) ops
  /\ exists head body tail,
       ops = head ++ body ++ tail
       /\ map drawn_text body
          = _wrap_text quote_text (font self)
              (width self - 2 * padding self - 40).
Proof.
  unfold _draw_elegant_card. intros H.
  destruct (_hex_to_rgb int16 (accent_color self)) as [accent|];
    [|discriminate].
  cbn [rbind] in H.
  destruct (draw_lines int16 self _ _ _ _) as [body|] eqn:Hbody;
    [|discriminate].
  cbn [rbind] in H. injection H as <-.
  destruct (@draw_lines_spec int16 self (centred self (font self)) _ _
              (centred_text self) _ body Hbody) as [Hmap Hall].
  { intros line y fill _. apply centred_spec. }
  split.
  - constructor; [exact I|]. constructor; [apply centred_spec|].
    constructor; [exact I|].
    apply Forall_app. split; [exact Hall|].
    destruct (nonempty subtitle); [|constructor].
    constructor; [apply centred_spec | constructor].
  - match goal with
    | |- exists _ _ _, (?a :: ?b :: ?c :: body ++ ?t) = _ /\ _ =>
      exists [a; b; c], body, t
    end.
    split; [reflexivity | exact Hmap].
Qed.

End ElegantFacts.

Lemma elegant_texts_centred_witness :
  exists ops,
    CardGenerator._draw_elegant_card Examples.hex_pair Examples.generator
      (u "学而时习之，不亦说乎") (u "论语") (u "观点") = Ok ops
    /\ Forall (Further.centred_text Examples.generator) ops.
Proof.
  eexists.
  assert (Hrun :
    CardGenerator._draw_elegant_card Examples.hex_pair Examples.generator
      (u "学而时习之，不亦说乎") (u "论语") (u "观点") = Ok _)
    by (vm_compute; reflexivity).
  split; [exact Hrun|].
  exact (proj1 (@elegant_texts_centred Examples.hex_pair Examples.generator
                  (u "学而时习之，不亦说乎") (u "论语") (u "观点") _ Hrun)).
Defined.

(** ** Filtering: a count that is zero or negative *)

(** X30. [max_count] at and below zero.  A [max_count] of 0 does not
    limit the result: it is falsy, and [filter_quotes] returns what it
    returns without [max_count].  A negative [max_count] is truthy and
    used as the end of a slice: for quotes whose scores are numbers the
    result is the sorted list without its last [-max_count] quotes, the
    ones with the lowest scores. *)
Theorem filter_quotes_max_count_edges (quotes : list Extractor.Quote)
    (min_score : Q) (category : option str) :
  Extractor.filter_quotes quotes min_score category (Some 0)
  = Extractor.filter_quotes quotes min_score category None
  /\ forall n,
       n < 0 -> Forall Filtering.numeric quotes ->
       exists sorted after,
         Extractor.filter_quotes quotes min_score category None
         = Ok (sorted, after)
         /\ Extractor.filter_quotes quotes min_score category (Some n)
            = Ok (firstn (length sorted - Z.to_nat (- n)) sorted, after).
Proof.
  split.
  - unfold Extractor.filter_quotes.
    destruct (if Qlt_bool 0 min_score then _ else _); [|reflexivity].
    destruct (Extractor.sort_desc _); reflexivity.
  - intros n Hn Hnum.
    destruct (@filter_quotes_stages quotes min_score category None Hnum)
      as (sorted & Hsort & _ & _ & Hnone).
    destruct (@filter_quotes_stages quotes min_score category (Some n) Hnum)
      as (sorted' & Hsort' & _ & _ & Hsome).
    rewrite Hsort in Hsort'. injection Hsort' as <-.
    exists sorted. eexists. split; [exact Hnone|].
    rewrite Hsome. unfold Filtering.truncated, Extractor.slice_to.
    destruct (Z.eqb_spec n 0); [lia|].
    destruct (Z.leb_spec 0 n); [lia|]. reflexivity.
Qed.

Lemma filter_quotes_max_count_edges_witness :
  exists sorted after,
    Extractor.filter_quotes Examples.three_quotes 0 None None
    = Ok (sorted, after)
    /\ Extractor.filter_quotes Examples.three_quotes 0 None (Some (-1))
       = Ok (firstn (length sorted - Z.to_nat (- -1)) sorted, after).
Proof.
  apply (proj2 (filter_quotes_max_count_edges Examples.three_quotes 0 None)).
  - lia.
  - repeat constructor; discriminate.
Defined.
